(** * The UTXO store of chain/api/asset (utxodb.go)

    A shallow embedding of [api/asset/utxodb.go]: the key-index packer
    [toKeyIndex], the reservation update [SaveReservations] and the
    transaction applier [ApplyTx] with its helpers [insertUTXOs],
    [initAddrInfoFromRecs], [loadAddrInfoFromDB] and [deleteUTXOs].

    Go values are modelled as follows: [uint32], [int64] and [uint64] are
    [Z] with the conversions written out; slices are lists; a nil-able
    pointer is an [option]; a function returning [(v, err)] returns a
    [result]; the database reached through the context is an explicit
    state threaded through a small state-and-error monad. *)

From Stdlib Require Import ZArith List String Bool Lia.
Import ListNotations.

Local Open Scope Z_scope.

(** * Part I: the program *)

(** ** Machine integers *)

Module Int.

Definition to_uint32 (z : Z) : Z := z mod 2 ^ 32.
Definition to_uint64 (z : Z) : Z := z mod 2 ^ 64.
(** Conversion to a signed 64-bit integer (two's complement wrap-around). *)
Definition to_int64 (z : Z) : Z := (z + 2 ^ 63) mod 2 ^ 64 - 2 ^ 63.

Definition is_uint32 (z : Z) : Prop := 0 <= z < 2 ^ 32.
Definition is_int64 (z : Z) : Prop := - 2 ^ 63 <= z < 2 ^ 63.

End Int.

(** ** The key-index packer *)

(** [func toKeyIndex(i []uint32) int64]:
    [int64(i[0])<<31 | int64(i[1]&0x7fffffff)].  The slice is indexed at 0
    and 1; a shorter slice makes the Go code panic, which is [None] here. *)
Definition toKeyIndex (i : list Z) : option Z :=
  match i with
  | i0 :: i1 :: _ =>
      Some (Z.lor (Int.to_int64 (Z.shiftl (Int.to_int64 i0) 31))
                  (Int.to_int64 (Z.land i1 0x7fffffff)))
  | _ => None
  end.

(** Modelled from the spec: the inverse of the packer is the SQL function
    [key_index], which the sources only call (in the query of
    [loadAddrInfoFromDB]).  The spec fixes the layout: the first component
    occupies bits 31 and above, the second the low 31 bits. *)
Definition key_index (k : Z) : list Z :=
  [Z.shiftr k 31; Z.land k 0x7fffffff].

(** ** Errors and results *)

(** Values of Go's [error]: [errors.New], an error handed up by another
    package (the storage driver, [txscript], [bc]), and [errors.Wrap],
    which adds a context message.  [errors.Wrap(nil, _)] is [nil], so a
    wrap never turns a success into a failure. *)
Inductive error : Type :=
| ErrNew (msg : string)
| ErrForeign (pkg : string)
| ErrWrap (e : error) (msg : string).

(** What a call can do: return normally, return a non-nil [error], or
    panic. *)
Inductive result (A : Type) : Type :=
| Ok (a : A)
| Err (e : error)
| Panic.
Arguments Ok {A} a.
Arguments Err {A} e.
Arguments Panic {A}.

(** [time.Time], as an instant; [zeroTime] is the zero value of the type. *)
Definition time_Time : Type := Z.
Definition zeroTime : time_Time := 0.

(** The database handle a context carries: [pg.FromContext(ctx)] is either
    a plain connection pool or an open transaction; only the latter
    implements [pg.Tx]. *)
Inductive pg_DB : Type := pg_Pool | pg_Tx.
Record context : Type := { FromContext : pg_DB }.

(** ** Types of the packages the file imports *)

(** The parts of [chain/fedchain/bc] and [chain/fedchain-sandbox/txscript]
    that the file uses and does not define: hashes and asset ids with their
    textual form, and the address of a pay-to-address script
    ([txscript.PkScriptAddr] followed by [addr.String()], [None] when the
    script is not recognised).  [Other] is the rest of the database, the
    tables this file never names. *)
Class Primitives : Type := {
  bc_Hash : Type;
  Hash_String : bc_Hash -> string;
  ParseHash : string -> option bc_Hash;
  bc_AssetID : Type;
  AssetID_String : bc_AssetID -> string;
  pk_script : Type;
  PkScriptAddr : pk_script -> option string;
  Other : Type
}.

Section DataModel.
Context {P : Primitives}.

Record bc_Outpoint : Type := { Hash : bc_Hash; Index : Z }.
Record bc_TxInput : Type := { Previous : bc_Outpoint }.
Record bc_TxOutput : Type :=
  { O_AssetID : bc_AssetID; Value : Z; Script : pk_script }.
Record bc_Tx : Type :=
  { Inputs : list bc_TxInput; Outputs : list bc_TxOutput }.

(** [utxodb.UTXO]. *)
Record utxodb_UTXO : Type := {
  AccountID : string;
  AssetID : string;
  Amount : Z;
  Outpoint : bc_Outpoint;
  AddrIndex : Z * Z;
  ResvExpires : time_Time
}.

(** [appdb.UTXO] embeds a [*utxodb.UTXO]. *)
Record appdb_UTXO : Type := {
  UTXO : utxodb_UTXO;
  Addr : string;
  ManagerNodeID : string;
  IsChange : bool
}.

(** [utxodb.Receiver]; [AddrIndex] is a slice here. *)
Record utxodb_Receiver : Type := {
  R_ManagerNodeID : string;
  R_AccountID : string;
  R_AddrIndex : list Z;
  R_IsChange : bool
}.

(** *** The tables *)

(** A row of [utxos], primary key [(txid, index)]; [reserved_until] is
    [None] when the column holds no timestamp. *)
Record utxo_row : Type := {
  txid : string;
  index : Z;
  asset_id : string;
  amount : Z;
  account_id : string;
  manager_node_id : string;
  addr_index : Z;
  reserved_until : option time_Time
}.

(** A row of [addresses], primary key [address]; [a_key_index] is the
    packed pair. *)
Record address_row : Type := {
  address : string;
  a_account_id : string;
  a_manager_node_id : string;
  a_key_index : Z;
  a_is_change : bool
}.

Record DB : Type := {
  utxos : list utxo_row;
  addresses : list address_row;
  other : Other
}.

Definition set_utxos (d : DB) (rows : list utxo_row) : DB :=
  {| utxos := rows; addresses := addresses d; other := other d |}.

(** The four statements of the file, with their arguments. *)
Inductive Stmt : Type :=
| UpdateReserved (txids : list string) (indexes : list Z) (exp : time_Time)
| InsertUTXOs (txid : string) (index : list Z) (assetID : list string)
    (amount : list Z) (accountID managerNodeID : list string)
    (aIndex : list Z)
| DeleteUTXOs (txid : list string) (index : list Z)
| SelectAddresses (addrs : list string).

(** What the program does to the outside, in order: a statement sent to
    the database, or a call of [appdb.WriteActivity]. *)
Inductive Event : Type :=
| EvStmt (s : Stmt)
| EvWriteActivity (tx : bc_Tx) (utxos : list appdb_UTXO) (now : time_Time).

Record World : Type := { db : DB; trace : list Event }.

End DataModel.

(** The collaborators: [tx.Hash()], [appdb.WriteActivity] (which reads and
    writes the database and may fail) and the storage layer's own failures
    ([pg_fail s d]: statement [s], sent when the database is [d], is
    answered by an error, for a reason outside the statement's meaning: a
    lost connection, a cancelled context, a cast out of range). *)
Class Collaborators {P : Primitives} : Type := {
  TxHash : bc_Tx -> bc_Hash;
  WriteActivity :
    DB -> bc_Tx -> list appdb_UTXO -> time_Time -> option error * DB;
  pg_fail : Stmt -> DB -> bool
}.

(** ** The monad of the program *)

Section Program.
Context {P : Primitives} {C : Collaborators}.

(** A computation reads and writes the world and returns, fails or
    panics; the world it leaves is kept in all three cases (the rollback of
    the enclosing database transaction is its owner's business). *)
Definition M (A : Type) : Type := World -> result A * World.

Definition ret {A} (a : A) : M A := fun w => (Ok a, w).
Definition raise {A} (e : error) : M A := fun w => (Err e, w).
Definition panic {A} : M A := fun w => (Panic, w).

Definition bind {A B} (m : M A) (k : A -> M B) : M B :=
  fun w =>
    match m w with
    | (Ok a, w') => k a w'
    | (Err e, w') => (Err e, w')
    | (Panic, w') => (Panic, w')
    end.

(** [if err != nil { return ..., errors.Wrap(err, msg) }]. *)
Definition wrap {A} (msg : string) (m : M A) : M A :=
  fun w =>
    match m w with
    | (Err e, w') => (Err (ErrWrap e msg), w')
    | r => r
    end.

(** A pure call whose [(v, err)] is handed on unchanged. *)
Definition lift {A} (r : result A) : M A := fun w => (r, w).

Definition log (ev : Event) (w : World) : World :=
  {| db := db w; trace := trace w ++ [ev] |}.

End Program.

Declare Scope go_scope.
Delimit Scope go_scope with go.
Notation "x <- m ;; k" := (bind m (fun x => k))
  (at level 61, m at next level, right associativity) : go_scope.
Notation "m ;;; k" := (bind m (fun _ => k))
  (at level 61, right associativity) : go_scope.

Local Open Scope go_scope.

(** ** The storage layer *)

Section Storage.
Context {P : Primitives} {C : Collaborators}.

(** [SELECT unnest($1), unnest($2)]: the two arrays are read side by side.
    Every caller in the file builds them in one loop, so they have the same
    length. *)
Definition unnest2 (txids : list string) (indexes : list Z)
  : list (string * Z) := combine txids indexes.

(** [(txid, index) IN (...)]. *)
Definition in_outpoints (r : utxo_row) (ops : list (string * Z)) : bool :=
  existsb (fun o => String.eqb (txid r) (fst o) && Z.eqb (index r) (snd o)) ops.

Definition set_reserved_until (r : utxo_row) (t : option time_Time) : utxo_row :=
  {| txid := txid r; index := index r; asset_id := asset_id r;
     amount := amount r; account_id := account_id r;
     manager_node_id := manager_node_id r; addr_index := addr_index r;
     reserved_until := t |}.

(** [UPDATE utxos SET reserved_until=$3 WHERE (txid, index) IN (...)]. *)
Definition sql_update_reserved (txids : list string) (indexes : list Z)
    (exp : time_Time) (rows : list utxo_row) : list utxo_row :=
  map (fun r => if in_outpoints r (unnest2 txids indexes)
                then set_reserved_until r (Some exp) else r) rows.

(** The rows of [INSERT INTO utxos (txid, index, asset_id, amount,
    account_id, manager_node_id, addr_index) SELECT $1, unnest($2), ...]:
    the six arrays read side by side.  The statement names no
    [reserved_until], so the column gets its default.

    Modelled from the spec: the schema of [utxos] is not in the sources;
    the spec gives [reserved_until] as a timestamp or unset and no
    default, so a column the insert does not name holds no timestamp. *)
Fixpoint unnest_utxos (tx : string) (ixs : list Z) (assets : list string)
    (amounts : list Z) (accounts managers : list string) (aixs : list Z)
  : list utxo_row :=
  match ixs, assets, amounts, accounts, managers, aixs with
  | i :: ixs', a :: assets', n :: amounts', acc :: accounts',
    m :: managers', k :: aixs' =>
      {| txid := tx; index := i; asset_id := a; amount := n;
         account_id := acc; manager_node_id := m; addr_index := k;
         reserved_until := None |}
      :: unnest_utxos tx ixs' assets' amounts' accounts' managers' aixs'
  | _, _, _, _, _, _ => []
  end.

(** Modelled from the spec: [(txid, index)] is the primary key of [utxos],
    so a row whose key is already there is refused and the statement
    fails as a whole. *)
Fixpoint sql_insert (rows new : list utxo_row) : option (list utxo_row) :=
  match new with
  | [] => Some rows
  | n :: new' =>
      if in_outpoints n (map (fun r => (txid r, index r)) rows) then None
      else sql_insert (rows ++ [n]) new'
  end.

(** [DELETE FROM utxos WHERE (txid, index) IN (...)
     RETURNING account_id, asset_id, txid, index]. *)
Definition sql_delete (txids : list string) (indexes : list Z)
    (rows : list utxo_row)
  : list (string * string * string * Z) * list utxo_row :=
  let hit r := in_outpoints r (unnest2 txids indexes) in
  (map (fun r => (account_id r, asset_id r, txid r, index r)) (filter hit rows),
   filter (fun r => negb (hit r)) rows).

(** [SELECT address, account_id, manager_node_id, key_index(key_index),
     is_change FROM addresses WHERE address IN (SELECT unnest($1))]. *)
Definition sql_select_addresses (addrs : list string)
    (rows : list address_row)
  : list (string * string * string * list Z * bool) :=
  map (fun r => (address r, a_account_id r, a_manager_node_id r,
                 key_index (a_key_index r), a_is_change r))
      (filter (fun r => existsb (String.eqb (address r)) addrs) rows).

(** One statement sent through [pg.FromContext(ctx)]: it is recorded, then
    either the storage layer fails or the statement takes effect ([sem]
    returns [None] when a constraint refuses it).  A failed statement
    leaves the tables as they were. *)
Definition pg_run {A} (ctx : context) (s : Stmt)
    (sem : DB -> option (A * DB)) : M A :=
  fun w =>
    let w1 := log (EvStmt s) w in
    if pg_fail s (db w) then (Err (ErrForeign "pg"), w1)
    else match sem (db w) with
         | None => (Err (ErrForeign "pg"), w1)
         | Some (a, d) => (Ok a, {| db := d; trace := trace w1 |})
         end.

Definition execUpdateReserved ctx txids indexes exp : M unit :=
  pg_run ctx (UpdateReserved txids indexes exp)
    (fun d => Some (tt, set_utxos d (sql_update_reserved txids indexes exp (utxos d)))).

Definition execInsertUTXOs ctx tx ixs assets amounts accounts managers aixs
  : M unit :=
  pg_run ctx (InsertUTXOs tx ixs assets amounts accounts managers aixs)
    (fun d =>
       match sql_insert (utxos d)
               (unnest_utxos tx ixs assets amounts accounts managers aixs) with
       | Some rows => Some (tt, set_utxos d rows)
       | None => None
       end).

Definition queryDeleteUTXOs ctx txids indexes
  : M (list (string * string * string * Z)) :=
  pg_run ctx (DeleteUTXOs txids indexes)
    (fun d => let '(ret, rows) := sql_delete txids indexes (utxos d) in
              Some (ret, set_utxos d rows)).

Definition querySelectAddresses ctx addrs
  : M (list (string * string * string * list Z * bool)) :=
  pg_run ctx (SelectAddresses addrs)
    (fun d => Some (sql_select_addresses addrs (addresses d), d)).

(** [rows.Scan] into a [uint32]: a value outside the type is a scan
    error. *)
Definition scan_uint32 (z : Z) : option Z :=
  if (0 <=? z) && (z <? 2 ^ 32) then Some z else None.

End Storage.

(** ** The functions of utxodb.go *)

Section Functions.
Context {P : Primitives} {C : Collaborators}.

(** [SaveReservations]: the two arrays are filled in one loop over
    [utxos], then the update is sent. *)
Definition SaveReservations (ctx : context) (utxos : list utxodb_UTXO)
    (exp : time_Time) : M unit :=
  let txids := map (fun u => Hash_String (Hash (Outpoint u))) utxos in
  let indexes := map (fun u => Index (Outpoint u)) utxos in
  wrap "update utxo reserve expiration"
    (execUpdateReserved ctx txids indexes exp).

(** [copy(dst[:], src)] into an array of two. *)
Definition copy2 (dst : Z * Z) (src : list Z) : Z * Z :=
  match src with
  | [] => dst
  | [x] => (x, snd dst)
  | x :: y :: _ => (x, y)
  end.

(** The body of the loop of [initAddrInfoFromRecs] once the address is
    known: the fresh record, then the receiver's fields when there is
    one. *)
Definition newUTXO (hash : bc_Hash) (i : nat) (txo : bc_TxOutput)
    (addr : string) (rec : option utxodb_Receiver) : appdb_UTXO :=
  let u := {| AccountID := ""; AssetID := AssetID_String (O_AssetID txo);
              Amount := Int.to_uint64 (Value txo);
              Outpoint := {| Hash := hash;
                             Index := Int.to_uint32 (Z.of_nat i) |};
              AddrIndex := (0, 0); ResvExpires := zeroTime |} in
  match rec with
  | Some r =>
      {| UTXO := {| AccountID := R_AccountID r; AssetID := AssetID u;
                    Amount := Amount u; Outpoint := Outpoint u;
                    AddrIndex := copy2 (AddrIndex u) (R_AddrIndex r);
                    ResvExpires := ResvExpires u |};
         Addr := addr; ManagerNodeID := R_ManagerNodeID r;
         IsChange := R_IsChange r |}
  | None =>
      {| UTXO := u; Addr := addr; ManagerNodeID := ""; IsChange := false |}
  end.

(** The loop of [initAddrInfoFromRecs] from position [i] on.  [recs[i]]
    past the end of [recs] panics. *)
Fixpoint initAddrInfoLoop (hash : bc_Hash) (i : nat)
    (txouts : list bc_TxOutput) (recs : list (option utxodb_Receiver))
  : result (list appdb_UTXO) :=
  match txouts with
  | [] => Ok []
  | txo :: txouts' =>
      match PkScriptAddr (Script txo) with
      | None => Err (ErrWrap (ErrForeign "txscript") "bad pk script")
      | Some addr =>
          match nth_error recs i with
          | None => Panic
          | Some rec =>
              match initAddrInfoLoop hash (S i) txouts' recs with
              | Ok us => Ok (newUTXO hash i txo addr rec :: us)
              | Err e => Err e
              | Panic => Panic
              end
          end
      end
  end.

Definition initAddrInfoFromRecs (hash : bc_Hash)
    (txouts : list bc_TxOutput) (recs : list (option utxodb_Receiver))
  : result (list appdb_UTXO) :=
  initAddrInfoLoop hash 0 txouts recs.

(** The inner loop of [loadAddrInfoFromDB] for one row: every record that
    still has no account and carries the row's address takes the row's
    fields. *)
Definition fillFromRow (row : string * string * string * list Z * bool)
    (u : appdb_UTXO) : appdb_UTXO :=
  let '(addr, accountID, managerNodeID, addrIndex, isChange) := row in
  if String.eqb (AccountID (UTXO u)) "" && String.eqb (Addr u) addr then
    {| UTXO := {| AccountID := accountID; AssetID := AssetID (UTXO u);
                  Amount := Amount (UTXO u); Outpoint := Outpoint (UTXO u);
                  AddrIndex := copy2 (AddrIndex (UTXO u)) addrIndex;
                  ResvExpires := ResvExpires (UTXO u) |};
       Addr := Addr u; ManagerNodeID := managerNodeID;
       IsChange := isChange |}
  else u.

(** [loadAddrInfoFromDB] updates the records behind the pointers of
    [utxos]; the updated records are returned here. *)
Definition loadAddrInfoFromDB (ctx : context) (utxos : list appdb_UTXO)
  : M (list appdb_UTXO) :=
  let addrs :=
    map Addr (filter (fun u => String.eqb (AccountID (UTXO u)) "") utxos) in
  rows <- wrap "select" (querySelectAddresses ctx addrs) ;;
  ret (fold_left (fun us row => map (fillFromRow row) us) rows utxos).

(** [utxoSet]: the columns of the rows to insert. *)
Record utxoSet : Type := {
  s_txid : string;
  s_index : list Z;
  s_assetID : list string;
  s_amount : list Z;
  s_addr : list string;
  s_accountID : list string;
  s_managerNodeID : list string;
  s_aIndex : list Z
}.

(** The loop of [insertUTXOs] that fills the columns, from position [i]
    on. *)
Fixpoint fillOuts (outs : utxoSet) (i : nat) (insert : list appdb_UTXO)
  : option utxoSet :=
  match insert with
  | [] => Some outs
  | u :: insert' =>
      match toKeyIndex [fst (AddrIndex (UTXO u)); snd (AddrIndex (UTXO u))] with
      | None => None
      | Some k =>
          fillOuts
            {| s_txid := s_txid outs;
               s_index := s_index outs ++ [Int.to_uint32 (Z.of_nat i)];
               s_assetID := s_assetID outs ++ [AssetID (UTXO u)];
               s_amount := s_amount outs ++ [Int.to_int64 (Amount (UTXO u))];
               s_addr := s_addr outs;
               s_accountID := s_accountID outs ++ [AccountID (UTXO u)];
               s_managerNodeID := s_managerNodeID outs ++ [ManagerNodeID u];
               s_aIndex := s_aIndex outs ++ [k] |}
            (S i) insert'
      end
  end.

Definition insertUTXOs (ctx : context) (hash : bc_Hash)
    (txouts : list bc_TxOutput) (recs : list (option utxodb_Receiver))
  : M (list appdb_UTXO) :=
  if negb (Nat.eqb (List.length txouts) (List.length recs)) then
    raise (ErrNew "length mismatch")
  else
    insert <- lift (initAddrInfoFromRecs hash txouts recs) ;;
    insert <- loadAddrInfoFromDB ctx insert ;;
    match fillOuts {| s_txid := Hash_String hash; s_index := [];
                      s_assetID := []; s_amount := []; s_addr := [];
                      s_accountID := []; s_managerNodeID := [];
                      s_aIndex := [] |} 0 insert with
    | None => panic
    | Some outs =>
        wrap "" (execInsertUTXOs ctx (Hash_String hash) (s_index outs)
                   (s_assetID outs) (s_amount outs) (s_accountID outs)
                   (s_managerNodeID outs) (s_aIndex outs)) ;;;
        ret insert
    end.

(** The loop of [deleteUTXOs] over the returned rows. *)
Fixpoint scanDeleted (rows : list (string * string * string * Z))
  : result (list utxodb_UTXO) :=
  match rows with
  | [] => Ok []
  | (accountID, assetID, txid, index) :: rows' =>
      match scan_uint32 index with
      | None => Err (ErrWrap (ErrForeign "sql") "scan")
      | Some ix =>
          match ParseHash txid with
          | None => Err (ErrWrap (ErrForeign "bc") "decode hash")
          | Some h =>
              match scanDeleted rows' with
              | Ok us =>
                  Ok ({| AccountID := accountID; AssetID := assetID;
                         Amount := 0;
                         Outpoint := {| Hash := h; Index := ix |};
                         AddrIndex := (0, 0); ResvExpires := zeroTime |}
                      :: us)
              | Err e => Err e
              | Panic => Panic
              end
          end
      end
  end.

Definition deleteUTXOs (ctx : context) (txins : list bc_TxInput)
  : M (list utxodb_UTXO) :=
  let txid := map (fun i => Hash_String (Hash (Previous i))) txins in
  let index := map (fun i => Index (Previous i)) txins in
  rows <- wrap "delete" (queryDeleteUTXOs ctx txid index) ;;
  lift (scanDeleted rows).

(** [appdb.WriteActivity(ctx, tx, localUTXOs, now)], recorded. *)
Definition writeActivity (ctx : context) (tx : bc_Tx)
    (localUTXOs : list appdb_UTXO) (now : time_Time) : M unit :=
  fun w =>
    let '(err, d) := WriteActivity (db w) tx localUTXOs now in
    let w' := {| db := d;
                 trace := trace w ++ [EvWriteActivity tx localUTXOs now] |} in
    match err with
    | None => (Ok tt, w')
    | Some e => (Err e, w')
    end.

(** [_ = pg.FromContext(ctx).(pg.Tx)]: the type assertion panics unless
    the handle is an open transaction. *)
Definition assertTx (ctx : context) : M unit :=
  match FromContext ctx with
  | pg_Tx => ret tt
  | pg_Pool => panic
  end.

Definition isLocal (u : appdb_UTXO) : bool :=
  negb (String.eqb (ManagerNodeID u) "").

(** [ApplyTx]; [now] is what [time.Now()] returns at the call. *)
Definition ApplyTx (ctx : context) (tx : bc_Tx)
    (outRecs : list (option utxodb_Receiver)) (now : time_Time)
  : M (list utxodb_UTXO * list utxodb_UTXO) :=
  let hash := TxHash tx in
  assertTx ctx ;;;
  insUTXOs <- wrap "insert" (insertUTXOs ctx hash (Outputs tx) outRecs) ;;
  let localUTXOs := filter isLocal insUTXOs in
  wrap "creating activity items" (writeActivity ctx tx localUTXOs now) ;;;
  deleted <- wrap "delete" (deleteUTXOs ctx (Inputs tx)) ;;
  let inserted := map UTXO localUTXOs in
  ret (deleted, inserted).

End Functions.

(** ** Vocabulary of the properties *)

Section Vocabulary.
Context {P : Primitives} {C : Collaborators}.

(** The packed address index of a record, as the insert loop computes
    it. *)
Definition packedIndex (u : appdb_UTXO) : Z :=
  match toKeyIndex [fst (AddrIndex (UTXO u)); snd (AddrIndex (UTXO u))] with
  | Some k => k
  | None => 0
  end.

(** The row that the insert statement makes of the record at position
    [i]. *)
Definition row_of (hash : bc_Hash) (i : nat) (u : appdb_UTXO) : utxo_row :=
  {| txid := Hash_String hash; index := Int.to_uint32 (Z.of_nat i);
     asset_id := AssetID (UTXO u);
     amount := Int.to_int64 (Amount (UTXO u));
     account_id := AccountID (UTXO u);
     manager_node_id := ManagerNodeID u;
     addr_index := packedIndex u;
     reserved_until := None |}.

Fixpoint rows_from (hash : bc_Hash) (i : nat) (insert : list appdb_UTXO)
  : list utxo_row :=
  match insert with
  | [] => []
  | u :: insert' => row_of hash i u :: rows_from hash (S i) insert'
  end.

(** The index column for the records from position [i] on. *)
Fixpoint index_from (i : nat) (insert : list appdb_UTXO) : list Z :=
  match insert with
  | [] => []
  | _ :: insert' => Int.to_uint32 (Z.of_nat i) :: index_from (S i) insert'
  end.

(** The addresses the lookup of [loadAddrInfoFromDB] asks for: those of
    the records without an account. *)
Definition wanted (utxos : list appdb_UTXO) : list string :=
  map Addr (filter (fun u => String.eqb (AccountID (UTXO u)) "") utxos).

(** The records after the lookup against the table [addrs]. *)
Definition lookupTier (addrs : list address_row) (utxos : list appdb_UTXO)
  : list appdb_UTXO :=
  fold_left (fun us row => map (fillFromRow row) us)
    (sql_select_addresses (wanted utxos) addrs) utxos.

(** A row of [addresses] as the lookup returns it. *)
Definition selected (r : address_row)
  : string * string * string * list Z * bool :=
  (address r, a_account_id r, a_manager_node_id r,
   key_index (a_key_index r), a_is_change r).

(** The lookup seen from one record: a record without an account takes
    the fields of the row registered for its address, if there is one. *)
Definition resolveOne (addrs : list address_row) (u : appdb_UTXO)
  : appdb_UTXO :=
  if String.eqb (AccountID (UTXO u)) "" then
    match find (fun r => String.eqb (address r) (Addr u)) addrs with
    | Some r => fillFromRow (selected r) u
    | None => u
    end
  else u.

(** The statement [insertUTXOs] sends for the records [insert]. *)
Definition insertStmt (hash : bc_Hash) (insert : list appdb_UTXO) : Stmt :=
  InsertUTXOs (Hash_String hash) (index_from 0 insert)
    (map (fun u => AssetID (UTXO u)) insert)
    (map (fun u => Int.to_int64 (Amount (UTXO u))) insert)
    (map (fun u => AccountID (UTXO u)) insert)
    (map ManagerNodeID insert) (map packedIndex insert).

(** The statement [deleteUTXOs] sends for the inputs [txins]. *)
Definition deleteStmt (txins : list bc_TxInput) : Stmt :=
  DeleteUTXOs (map (fun i => Hash_String (Hash (Previous i))) txins)
    (map (fun i => Index (Previous i)) txins).

(** The row's key is the outpoint of one of the records [us]. *)
Definition outpoint_among (r : utxo_row) (us : list utxodb_UTXO) : bool :=
  existsb (fun u => String.eqb (txid r) (Hash_String (Hash (Outpoint u)))
                    && Z.eqb (index r) (Index (Outpoint u))) us.

(** [r'] is [r] but for its reservation. *)
Definition same_but_reservation (r r' : utxo_row) : Prop :=
  txid r' = txid r /\ index r' = index r /\ asset_id r' = asset_id r /\
  amount r' = amount r /\ account_id r' = account_id r /\
  manager_node_id r' = manager_node_id r /\ addr_index r' = addr_index r.

(** The outpoints a list of inputs refers to, in their textual form. *)
Definition spent (txins : list bc_TxInput) : list (string * Z) :=
  map (fun i => (Hash_String (Hash (Previous i)), Index (Previous i))) txins.

(** A deleted record reports the row it was made from. *)
Definition reports (r : utxo_row) (u : utxodb_UTXO) : Prop :=
  AccountID u = account_id r /\ AssetID u = asset_id r /\
  ParseHash (txid r) = Some (Hash (Outpoint u)) /\
  Index (Outpoint u) = index r.

(** The steps of [ApplyTx] an event belongs to. *)
Inductive Step : Type := StepInsert | StepActivity | StepDelete | StepOther.

Definition step_of (ev : Event) : Step :=
  match ev with
  | EvStmt (SelectAddresses _) => StepInsert
  | EvStmt (InsertUTXOs _ _ _ _ _ _ _) => StepInsert
  | EvStmt (DeleteUTXOs _ _) => StepDelete
  | EvStmt (UpdateReserved _ _ _) => StepOther
  | EvWriteActivity _ _ _ => StepActivity
  end.

End Vocabulary.

(** ** A small concrete instance

    Hashes, asset ids and scripts are their own text; the empty script has
    no address and the empty text is no hash; the activity writer succeeds
    and touches nothing; the storage layer never fails by itself. *)

Module Demo.
Local Open Scope string_scope.

Definition prims : Primitives :=
  {| bc_Hash := string;
     Hash_String := fun h => h;
     ParseHash := fun s => if String.eqb s "" then None else Some s;
     bc_AssetID := string;
     AssetID_String := fun a => a;
     pk_script := string;
     PkScriptAddr := fun s => if String.eqb s "" then None else Some s;
     Other := unit |}.

Definition collab : @Collaborators prims :=
  {| TxHash := fun tx =>
       String.append "tx:"
         (String.concat "," (map (fun o : @bc_TxOutput prims => Script o)
                                 (@Outputs prims tx)));
     WriteActivity := fun d _ _ _ => (None, d);
     pg_fail := fun _ _ => false |}.

(** The same, with an activity writer that always fails. *)
Definition collab_noactivity : @Collaborators prims :=
  {| TxHash := @TxHash prims collab;
     WriteActivity := fun d _ _ _ => (Some (ErrNew "activity"), d);
     pg_fail := fun _ _ => false |}.

Definition inTx : context := {| FromContext := pg_Tx |}.
Definition noTx : context := {| FromContext := pg_Pool |}.

Definition row (tx : string) (ix : Z) (acc mn : string) : utxo_row :=
  {| txid := tx; index := ix; asset_id := "gold"; amount := 10;
     account_id := acc; manager_node_id := mn; addr_index := 0;
     reserved_until := None |}.

Definition world0 : @World prims :=
  {| db := @Build_DB prims
             [row "t0" 0 "acc1" "mn1"; row "t0" 1 "" ""]
             [ {| address := "addr2"; a_account_id := "acc2";
                  a_manager_node_id := "mn2";
                  a_key_index := 5 * 2 ^ 31 + 7;
                  a_is_change := true |} ]
             tt;
     trace := [] |}.

Definition out (script : string) : @bc_TxOutput prims :=
  @Build_bc_TxOutput prims "gold" 10 script.

Definition spend (tx : string) (ix : Z) : @bc_TxInput prims :=
  @Build_bc_TxInput prims (@Build_bc_Outpoint prims tx ix).

Definition hint (acc mn : string) : option (utxodb_Receiver) :=
  Some (Build_utxodb_Receiver mn acc [1; 2] false).

(** Spends [t0:0] and an outpoint that is not in the table; pays a hinted
    local output, a registered address and an unknown address. *)
Definition tx1 : @bc_Tx prims :=
  @Build_bc_Tx prims [spend "t0" 0; spend "t9" 4]
    [out "addr1"; out "addr2"; out "addr3"].

Definition recs1 : list (option (utxodb_Receiver)) :=
  [hint "acc1" "mn1"; None; None].

(** The hint at position 0 has no account; [addr2] is registered. *)
Definition recs_noacc : list (option utxodb_Receiver) :=
  [Some (Build_utxodb_Receiver "mnX" "" [1; 2] false)].

(** What the functions return on these inputs. *)
Definition run1 :=
  Eval vm_compute in @ApplyTx prims collab inTx tx1 recs1 100 world0.
Definition deleted1 : list (@utxodb_UTXO prims) :=
  Eval vm_compute in match fst run1 with Ok (d, _) => d | _ => [] end.
Definition inserted1 : list (@utxodb_UTXO prims) :=
  Eval vm_compute in match fst run1 with Ok (_, i) => i | _ => [] end.
Definition world1 : @World prims := Eval vm_compute in snd run1.

Definition run2 :=
  Eval vm_compute in
    @ApplyTx prims collab_noactivity inTx tx1 recs1 100 world0.
Definition world2 : @World prims := Eval vm_compute in snd run2.

Definition run3 :=
  Eval vm_compute in
    @insertUTXOs prims collab inTx (@TxHash prims collab tx1)
      (@Outputs prims tx1) recs1 world0.
Definition insert3 : list (@appdb_UTXO prims) :=
  Eval vm_compute in match fst run3 with Ok i => i | _ => [] end.
Definition world3 : @World prims := Eval vm_compute in snd run3.

(** The two transactions of the end-to-end scenarios: the first pays a
    hinted output and a registered address into an empty store, the second
    spends both and pays an unregistered address. *)
Definition empty_world : @World prims :=
  {| db := @Build_DB prims [] (@addresses prims (db world0)) tt;
     trace := [] |}.
Definition txA : @bc_Tx prims :=
  @Build_bc_Tx prims [] [out "addr1"; out "addr2"].
Definition txB : @bc_Tx prims :=
  @Build_bc_Tx prims [spend "tx:addr1,addr2" 0; spend "tx:addr1,addr2" 1]
    [out "addr9"].
Definition worldA : @World prims :=
  Eval vm_compute in
    snd (@ApplyTx prims collab inTx txA [hint "acc1" "mn1"; None] 100
           empty_world).

(** A record with nothing but an outpoint, as [SaveReservations] reads
    it. *)
Definition at_outpoint (tx : string) (ix : Z) : @utxodb_UTXO prims :=
  @Build_utxodb_UTXO prims "" "" 0 (@Build_bc_Outpoint prims tx ix) (0, 0)
    zeroTime.

End Demo.

(** ** Loading the set of an account *)

(** What [LoadUTXOs] needs from outside and the applier does not: the
    storage layer failing on its query, and [rows.Scan] of the
    [reserved_until] column into a [time.Time] ([None] when the scan is an
    error). *)
Class Scanner {P : Primitives} : Type := {
  load_fail : string -> string -> DB -> bool;
  scan_time : option time_Time -> option time_Time
}.

Section Loading.
Context {P : Primitives} {C : Collaborators} {L : Scanner}.

(** [SELECT amount, reserved_until, txid, index FROM utxos
     WHERE account_id=$1 AND asset_id=$2]. *)
Definition sql_select_utxos (accountID assetID : string)
    (rows : list utxo_row) : list (Z * option time_Time * string * Z) :=
  map (fun r => (amount r, reserved_until r, txid r, index r))
      (filter (fun r => String.eqb (account_id r) accountID
                        && String.eqb (asset_id r) assetID) rows).

(** [rows.Scan] into a [uint64]. *)
Definition scan_uint64 (z : Z) : option Z :=
  if (0 <=? z) && (z <? 2 ^ 64) then Some z else None.

(** The loop of [LoadUTXOs] over the rows: one [rows.Scan] of the four
    columns, then [bc.ParseHash].  [ResvExpires.UTC()] changes the location
    of the time, not the instant. *)
Fixpoint scanLoaded (accountID assetID : string)
    (rows : list (Z * option time_Time * string * Z))
  : result (list utxodb_UTXO) :=
  match rows with
  | [] => Ok []
  | (amt, resv, txid, ix) :: rows' =>
      match scan_uint64 amt, scan_time resv, scan_uint32 ix with
      | Some a, Some t, Some i =>
          match ParseHash txid with
          | None => Err (ErrWrap (ErrForeign "bc") "decode hash")
          | Some h =>
              match scanLoaded accountID assetID rows' with
              | Ok us =>
                  Ok ({| AccountID := accountID; AssetID := assetID;
                         Amount := a;
                         Outpoint := {| Hash := h; Index := i |};
                         AddrIndex := (0, 0); ResvExpires := t |}
                      :: us)
              | Err e => Err e
              | Panic => Panic
              end
          end
      | _, _, _ => Err (ErrWrap (ErrForeign "sql") "scan")
      end
  end.

(** [LoadUTXOs].  Its query only reads; it is not one of the recorded
    statements. *)
Definition LoadUTXOs (ctx : context) (accountID assetID : string)
  : M (list utxodb_UTXO) :=
  fun w =>
    if load_fail accountID assetID (db w) then
      (Err (ErrWrap (ErrForeign "pg") "query"), w)
    else
      (scanLoaded accountID assetID
         (sql_select_utxos accountID assetID (utxos (db w))), w).

(** *** Vocabulary *)

(** The keys of the rows of [utxos]. *)
Definition keys (rows : list utxo_row) : list (string * Z) :=
  map (fun r => (txid r, index r)) rows.

(** The row belongs to the account and asset. *)
Definition owned_by (accountID assetID : string) (r : utxo_row) : bool :=
  String.eqb (account_id r) accountID && String.eqb (asset_id r) assetID.

(** A loaded record shows the row it was made from. *)
Definition shows (accountID assetID : string) (r : utxo_row)
    (u : utxodb_UTXO) : Prop :=
  AccountID u = accountID /\ AssetID u = assetID /\
  Amount u = amount r /\
  scan_time (reserved_until r) = Some (ResvExpires u) /\
  ParseHash (txid r) = Some (Hash (Outpoint u)) /\
  Index (Outpoint u) = index r.

(** A row [LoadUTXOs] can read: its columns fit the Go types and its
    [txid] is a hash. *)
Definition readable (r : utxo_row) : Prop :=
  0 <= amount r < 2 ^ 64 /\ 0 <= index r < 2 ^ 32 /\
  scan_time (reserved_until r) <> None /\ ParseHash (txid r) <> None.

(** A row [deleteUTXOs] can report. *)
Definition reportable (r : utxo_row) : Prop :=
  0 <= index r < 2 ^ 32 /\ ParseHash (txid r) <> None.

End Loading.

(** The concrete instance, with rows that have a reservation and a row
    whose [txid] is no hash. *)
Module DemoLoad.
Local Open Scope string_scope.

(** A column without a timestamp does not scan into a [time.Time]. *)
Definition scanner : @Scanner Demo.prims :=
  {| load_fail := fun _ _ _ => false;
     scan_time := fun t => t |}.

Definition reserved_row (tx : string) (ix : Z) (acc : string) (t : Z)
  : utxo_row :=
  {| txid := tx; index := ix; asset_id := "gold"; amount := 10;
     account_id := acc; manager_node_id := "mn1"; addr_index := 0;
     reserved_until := Some t |}.

Definition world_reserved : @World Demo.prims :=
  {| db := @Build_DB Demo.prims
             [reserved_row "t0" 0 "acc1" 50; reserved_row "t0" 1 "acc2" 60;
              reserved_row "t1" 0 "acc1" 70]
             [] tt;
     trace := [] |}.

(** The second row has the empty text for a [txid]. *)
Definition world_badhash : @World Demo.prims :=
  {| db := @Build_DB Demo.prims
             [reserved_row "t0" 0 "acc1" 50; reserved_row "" 3 "acc2" 60]
             [] tt;
     trace := [] |}.

(** A transaction with an output that has no address, and one with an
    output of value [2^63]. *)
Definition tx_bad : @bc_Tx Demo.prims :=
  @Build_bc_Tx Demo.prims [] [Demo.out "addr1"; Demo.out ""].
Definition tx_big : @bc_Tx Demo.prims :=
  @Build_bc_Tx Demo.prims []
    [@Build_bc_TxOutput Demo.prims "gold" (2 ^ 63) "addr1"].

Definition run_big :=
  Eval vm_compute in
    @ApplyTx Demo.prims Demo.collab Demo.inTx tx_big
      [Demo.hint "acc1" "mn1"] 100 Demo.world0.
Definition inserted_big : list (@utxodb_UTXO Demo.prims) :=
  Eval vm_compute in match fst run_big with Ok (_, i) => i | _ => [] end.
Definition world_big : @World Demo.prims := Eval vm_compute in snd run_big.

(** Worlds after a delete, after one and two reservations, and after
    reserving what [Demo.tx1] inserted. *)
Definition run_delete :=
  Eval vm_compute in
    @deleteUTXOs Demo.prims Demo.collab Demo.inTx [Demo.spend "t0" 0]
      Demo.world0.
Definition deleted_once : list (@utxodb_UTXO Demo.prims) :=
  Eval vm_compute in match fst run_delete with Ok d => d | _ => [] end.
Definition world_deleted : @World Demo.prims :=
  Eval vm_compute in snd run_delete.

Definition us_both : list (@utxodb_UTXO Demo.prims) :=
  [Demo.at_outpoint "t0" 0; Demo.at_outpoint "t0" 1].
Definition us_second : list (@utxodb_UTXO Demo.prims) :=
  [Demo.at_outpoint "t0" 1].

Definition world_res1 : @World Demo.prims :=
  Eval vm_compute in
    snd (@SaveReservations Demo.prims Demo.collab Demo.noTx us_both 500
           Demo.world0).
Definition world_res2 : @World Demo.prims :=
  Eval vm_compute in
    snd (@SaveReservations Demo.prims Demo.collab Demo.noTx us_second 900
           world_res1).
Definition world_res_fresh : @World Demo.prims :=
  Eval vm_compute in
    snd (@SaveReservations Demo.prims Demo.collab Demo.noTx Demo.inserted1
           500 Demo.world1).

(** Loads. *)
Definition world_reserved2 : @World Demo.prims :=
  Eval vm_compute in
    snd (@SaveReservations Demo.prims Demo.collab Demo.noTx
           [Demo.at_outpoint "t1" 0] 900 world_reserved).
Definition loaded_acc1 : list (@utxodb_UTXO Demo.prims) :=
  Eval vm_compute in
    match fst (@LoadUTXOs Demo.prims scanner Demo.noTx "acc1" "gold"
                 world_reserved) with
    | Ok us => us | _ => [] end.
Definition loaded_acc1_res : list (@utxodb_UTXO Demo.prims) :=
  Eval vm_compute in
    match fst (@LoadUTXOs Demo.prims scanner Demo.noTx "acc1" "gold"
                 world_reserved2) with
    | Ok us => us | _ => [] end.

End DemoLoad.

(** * Part II: properties *)

(** ** Machine integers and the packer *)

Lemma to_int64_range z : Int.is_int64 (Int.to_int64 z).
Proof.
  unfold Int.is_int64, Int.to_int64.
  pose proof (Z.mod_pos_bound (z + 2 ^ 63) (2 ^ 64) ltac:(lia)). lia.
Qed.

Lemma to_int64_id z : Int.is_int64 z -> Int.to_int64 z = z.
Proof.
  unfold Int.is_int64, Int.to_int64. intros H.
  rewrite Z.mod_small by lia. lia.
Qed.

Lemma to_uint32_id z : Int.is_uint32 z -> Int.to_uint32 z = z.
Proof. unfold Int.is_uint32, Int.to_uint32. intros H. now rewrite Z.mod_small. Qed.

Lemma land_mask31 b : Z.land b 0x7fffffff = b mod 2 ^ 31.
Proof. change 0x7fffffff with (Z.ones 31). now rewrite Z.land_ones. Qed.

Lemma mask31_range b : 0 <= Z.land b 0x7fffffff < 2 ^ 31.
Proof. rewrite land_mask31. apply Z.mod_pos_bound. lia. Qed.

(** The shifted first component and a 31-bit value share no bit, so the
    bitwise or is a sum. *)
Lemma shiftl31_lor a m :
  0 <= m < 2 ^ 31 -> Z.lor (Z.shiftl a 31) m = a * 2 ^ 31 + m.
Proof.
  intros Hm.
  assert (Hdisj : Z.land (Z.shiftl a 31) m = 0).
  { apply Z.bits_inj'. intros n Hn.
    rewrite Z.land_spec, Z.bits_0.
    destruct (Z.ltb_spec n 31) as [Hlt | Hge].
    - rewrite Z.shiftl_spec_low by lia. reflexivity.
    - assert (Z.testbit m n = false) as ->; [|apply andb_false_r].
      destruct (Z.eq_dec m 0) as [-> | Hm0]; [apply Z.bits_0|].
      apply Z.bits_above_log2; [lia|].
      apply Z.lt_le_trans with 31; [|lia].
      apply Z.log2_lt_pow2; lia. }
  rewrite <- Z.lxor_lor by exact Hdisj.
  rewrite <- Z.add_nocarry_lxor by exact Hdisj.
  rewrite Z.shiftl_mul_pow2 by lia. reflexivity.
Qed.

(** On [uint32] components none of the [int64] conversions wraps. *)
Lemma toKeyIndex_bits a b :
  Int.is_uint32 a -> Int.is_uint32 b ->
  toKeyIndex [a; b] = Some (Z.lor (Z.shiftl a 31) (Z.land b 0x7fffffff)).
Proof.
  unfold Int.is_uint32. intros Ha Hb. unfold toKeyIndex.
  pose proof (mask31_range b) as Hm.
  rewrite (to_int64_id a) by (unfold Int.is_int64; lia).
  assert (Hs : Z.shiftl a 31 = a * 2 ^ 31) by (rewrite Z.shiftl_mul_pow2; lia).
  rewrite (to_int64_id (Z.shiftl a 31)) by (unfold Int.is_int64; rewrite Hs; lia).
  rewrite (to_int64_id (Z.land b 0x7fffffff)) by (unfold Int.is_int64; lia).
  reflexivity.
Qed.

Lemma toKeyIndex_arith a b :
  Int.is_uint32 a -> Int.is_uint32 b ->
  toKeyIndex [a; b] = Some (a * 2 ^ 31 + b mod 2 ^ 31).
Proof.
  intros Ha Hb. rewrite toKeyIndex_bits by assumption.
  rewrite (shiftl31_lor a (Z.land b 0x7fffffff) (mask31_range b)).
  now rewrite land_mask31.
Qed.

Lemma key_index_arith a m :
  0 <= m < 2 ^ 31 -> key_index (a * 2 ^ 31 + m) = [a; m].
Proof.
  intros Hm. unfold key_index.
  rewrite Z.shiftr_div_pow2 by lia.
  rewrite land_mask31.
  rewrite Z.add_comm, Z.div_add, Z.mod_add by lia.
  rewrite Z.div_small, Z.mod_small by lia. reflexivity.
Qed.

(** C6: [toKeyIndex] computes [(a << 31) | (b & 0x7FFFFFFF)], the value
    is a signed 64-bit integer, and for [a] and [b] below [2^31] the
    unpacker [key_index] gives the pair back. *)
Theorem toKeyIndex_roundtrip (a b : Z)
    (Ha : Int.is_uint32 a) (Hb : Int.is_uint32 b) :
  exists k,
    toKeyIndex [a; b] = Some k /\
    k = Z.lor (Z.shiftl a 31) (Z.land b 0x7fffffff) /\
    Int.is_int64 k /\
    (a < 2 ^ 31 -> b < 2 ^ 31 -> key_index k = [a; b]).
Proof.
  exists (Z.lor (Z.shiftl a 31) (Z.land b 0x7fffffff)).
  split; [now apply toKeyIndex_bits|]. split; [reflexivity|].
  assert (Hk : Z.lor (Z.shiftl a 31) (Z.land b 0x7fffffff)
               = a * 2 ^ 31 + b mod 2 ^ 31).
  { pose proof (toKeyIndex_bits a b Ha Hb) as Hbits.
    pose proof (toKeyIndex_arith a b Ha Hb) as Har. congruence. }
  rewrite Hk. clear Hk.
  unfold Int.is_uint32 in *.
  pose proof (Z.mod_pos_bound b (2 ^ 31) ltac:(lia)) as Hm.
  split.
  - unfold Int.is_int64. lia.
  - intros Ha' Hb'. rewrite key_index_arith by exact Hm.
    now rewrite Z.mod_small by lia.
Qed.

Lemma toKeyIndex_roundtrip_witness :
  exists k, toKeyIndex [5; 7] = Some k /\
            k = Z.lor (Z.shiftl 5 31) (Z.land 7 0x7fffffff) /\
            Int.is_int64 k /\ key_index k = [5; 7].
Proof.
  destruct (toKeyIndex_roundtrip 5 7) as (k & Hk & Hbits & Hr & Hinv);
    [unfold Int.is_uint32; lia ..|].
  exists k. repeat split; try assumption; try apply Hr. apply Hinv; lia.
Defined.

(** C10: on every pair of [uint32] values [toKeyIndex] is non-negative,
    and it is injective on pairs whose first component is any [uint32] and
    whose second is below [2^31]. *)
Theorem toKeyIndex_nonneg_injective (a b a' b' : Z)
    (Ha : Int.is_uint32 a) (Hb : Int.is_uint32 b)
    (Ha' : Int.is_uint32 a') (Hb' : Int.is_uint32 b') :
  (exists k, toKeyIndex [a; b] = Some k /\ 0 <= k < 2 ^ 63) /\
  (b < 2 ^ 31 -> b' < 2 ^ 31 ->
   toKeyIndex [a; b] = toKeyIndex [a'; b'] -> a = a' /\ b = b').
Proof.
  unfold Int.is_uint32 in *.
  rewrite !toKeyIndex_arith by (unfold Int.is_uint32; lia).
  pose proof (Z.mod_pos_bound b (2 ^ 31) ltac:(lia)) as Hm.
  split.
  - eexists. split; [reflexivity|]. lia.
  - intros Hlt Hlt' Heq. injection Heq as Heq.
    rewrite !Z.mod_small in Heq by lia. lia.
Qed.

Lemma toKeyIndex_nonneg_injective_witness :
  (exists k, toKeyIndex [4294967295; 9] = Some k /\ 0 <= k < 2 ^ 63) /\
  toKeyIndex [4294967295; 9] <> toKeyIndex [2147483647; 9].
Proof.
  destruct (toKeyIndex_nonneg_injective 4294967295 9 2147483647 9)
    as [Hpos Hinj]; [unfold Int.is_uint32; lia ..|].
  split; [exact Hpos|].
  intros Heq. apply Hinj in Heq; lia.
Defined.

(** ** The storage layer and the monad *)

Section StoreFacts.
Context {P : Primitives} {C : Collaborators}.

(** A statement is always recorded; it either succeeds with the effect of
    its meaning or fails and leaves the database as it was. *)
Lemma pg_run_inv {A} ctx s (sem : DB -> option (A * DB)) w r w' :
  pg_run ctx s sem w = (r, w') ->
  trace w' = trace w ++ [EvStmt s] /\
  ((exists a, r = Ok a /\ pg_fail s (db w) = false /\
              sem (db w) = Some (a, db w')) \/
   (exists e, r = Err e /\ db w' = db w)).
Proof.
  unfold pg_run. intros H.
  destruct (pg_fail s (db w)) eqn:Hf.
  - injection H as <- <-. split; [reflexivity|]. right. eauto.
  - destruct (sem (db w)) as [[a d]|] eqn:Hs.
    + injection H as <- <-. split; [reflexivity|]. left. eauto.
    + injection H as <- <-. split; [reflexivity|]. right. eauto.
Qed.

Lemma wrap_inv {A} msg (m : M A) w r w' :
  wrap msg m w = (r, w') ->
  (exists a, r = Ok a /\ m w = (Ok a, w')) \/
  (exists e, r = Err (ErrWrap e msg) /\ m w = (Err e, w')) \/
  (r = Panic /\ m w = (Panic, w')).
Proof.
  unfold wrap. destruct (m w) as [[a|e|] w1]; intros H; injection H as <- <-; eauto.
Qed.

Lemma bind_inv {A B} (m : M A) (k : A -> M B) w r w' :
  bind m k w = (r, w') ->
  (exists a w1, m w = (Ok a, w1) /\ k a w1 = (r, w')) \/
  (exists e, r = Err e /\ m w = (Err e, w')) \/
  (r = Panic /\ m w = (Panic, w')).
Proof.
  unfold bind. destruct (m w) as [[a|e|] w1]; intros H.
  - left. eauto.
  - injection H as <- <-. eauto.
  - injection H as <- <-. eauto.
Qed.

(** *** Insertion *)

Lemma sql_insert_app rows new rows' :
  sql_insert rows new = Some rows' -> rows' = rows ++ new.
Proof.
  revert rows. induction new as [|n new IH]; intros rows H; simpl in H.
  - injection H as <-. now rewrite app_nil_r.
  - destruct (in_outpoints n _); [discriminate|].
    apply IH in H. rewrite H, <- app_assoc. reflexivity.
Qed.

Lemma toKeyIndex_packed (u : appdb_UTXO) :
  toKeyIndex [fst (AddrIndex (UTXO u)); snd (AddrIndex (UTXO u))]
  = Some (packedIndex u).
Proof. unfold packedIndex. reflexivity. Qed.

(** The column loop never panics and appends one entry per record. *)
Lemma fillOuts_columns insert : forall outs i,
  fillOuts outs i insert =
  Some {| s_txid := s_txid outs;
          s_index := s_index outs ++ index_from i insert;
          s_assetID := s_assetID outs ++ map (fun u => AssetID (UTXO u)) insert;
          s_amount := s_amount outs
                      ++ map (fun u => Int.to_int64 (Amount (UTXO u))) insert;
          s_addr := s_addr outs;
          s_accountID := s_accountID outs
                         ++ map (fun u => AccountID (UTXO u)) insert;
          s_managerNodeID := s_managerNodeID outs ++ map ManagerNodeID insert;
          s_aIndex := s_aIndex outs ++ map packedIndex insert |}.
Proof.
  induction insert as [|u insert IH]; intros outs i.
  - simpl. rewrite !app_nil_r. now destruct outs.
  - cbn [fillOuts]. rewrite toKeyIndex_packed. rewrite IH.
    cbn [s_txid s_index s_assetID s_amount s_addr s_accountID
         s_managerNodeID s_aIndex map index_from].
    rewrite <- !app_assoc. reflexivity.
Qed.

Lemma unnest_rows_from hash insert : forall i,
  unnest_utxos (Hash_String hash) (index_from i insert)
    (map (fun u => AssetID (UTXO u)) insert)
    (map (fun u => Int.to_int64 (Amount (UTXO u))) insert)
    (map (fun u => AccountID (UTXO u)) insert)
    (map ManagerNodeID insert) (map packedIndex insert)
  = rows_from hash i insert.
Proof.
  induction insert as [|u insert IH]; intros i; [reflexivity|].
  cbn [index_from map unnest_utxos rows_from]. rewrite IH. reflexivity.
Qed.

(** What a successful [insertUTXOs] has done: the lengths agree, the
    records are those of the hint tier after the lookup, one row per record
    was appended to [utxos], and two statements were sent. *)
Lemma insertUTXOs_Ok ctx hash txouts recs w insert w' :
  insertUTXOs ctx hash txouts recs w = (Ok insert, w') ->
  List.length txouts = List.length recs /\
  exists ins0,
    initAddrInfoFromRecs hash txouts recs = Ok ins0 /\
    insert = lookupTier (addresses (db w)) ins0 /\
    utxos (db w') = utxos (db w) ++ rows_from hash 0 insert /\
    addresses (db w') = addresses (db w) /\
    other (db w') = other (db w) /\
    trace w' = trace w ++ [EvStmt (SelectAddresses (wanted ins0));
                           EvStmt (insertStmt hash insert)].
Proof.
  unfold insertUTXOs. intros H.
  destruct (Nat.eqb (List.length txouts) (List.length recs)) eqn:Hlen;
    [|discriminate].
  apply Nat.eqb_eq in Hlen. split; [exact Hlen|]. cbn [negb] in H.
  apply bind_inv in H as [(ins0 & w1 & Hinit & H)|[(e & He & _)|(He & _)]];
    try discriminate.
  unfold lift in Hinit. injection Hinit as Hinit <-.
  exists ins0. split; [exact Hinit|].
  apply bind_inv in H as [(ins1 & w2 & Hload & H)|[(e & He & _)|(He & _)]];
    try discriminate.
  unfold loadAddrInfoFromDB in Hload.
  apply bind_inv in Hload as [(rows & w3 & Hsel & Hret)|[(e & He & _)|(He & _)]];
    try discriminate.
  unfold ret in Hret. injection Hret as <- <-.
  apply wrap_inv in Hsel as [(a & Ha & Hsel)|[(e & He & _)|(He & _)]];
    try discriminate.
  injection Ha as <-.
  unfold querySelectAddresses in Hsel.
  apply pg_run_inv in Hsel as [Htr1 [(a & Ha & _ & Hsem)|(e & He & _)]];
    try discriminate.
  injection Ha as <-. injection Hsem as Hrows Hdb.
  rewrite fillOuts_columns in H. cbn [s_txid s_index s_assetID s_amount
    s_accountID s_managerNodeID s_aIndex app] in H.
  apply bind_inv in H as [(u & w4 & Hins & Hret)|[(e & He & _)|(He & _)]];
    try discriminate.
  unfold ret in Hret. injection Hret as Hret <-.
  apply wrap_inv in Hins as [(a & Ha & Hins)|[(e & He & _)|(He & _)]];
    try discriminate.
  unfold execInsertUTXOs in Hins.
  apply pg_run_inv in Hins as [Htr2 [(a' & Ha' & _ & Hsem)|(e & He & _)]];
    try discriminate.
  rewrite unnest_rows_from in Hsem.
  destruct (sql_insert _ _) as [rows'|] eqn:Hsql; [|discriminate].
  apply sql_insert_app in Hsql. injection Hsem as _ Hdb'.
  assert (Hins1 : insert = lookupTier (addresses (db w)) ins0).
  { rewrite <- Hret. unfold lookupTier, wanted. rewrite Hrows. reflexivity. }
  split; [exact Hins1|].
  rewrite <- Hdb'. cbn [set_utxos utxos addresses other].
  rewrite Hsql, Hret, <- Hdb.
  repeat split; try reflexivity.
  rewrite Htr2, Htr1, <- app_assoc. unfold insertStmt, wanted.
  rewrite Hret. reflexivity.
Qed.

Lemma initAddrInfoLoop_no_panic hash recs txouts : forall i,
  (i + List.length txouts <= List.length recs)%nat ->
  initAddrInfoLoop hash i txouts recs <> Panic.
Proof.
  induction txouts as [|txo txouts IH]; intros i Hlen; cbn [initAddrInfoLoop].
  - discriminate.
  - cbn [List.length] in Hlen.
    destruct (PkScriptAddr (Script txo)); [|discriminate].
    destruct (nth_error recs i) eqn:Hnth.
    + specialize (IH (S i) ltac:(lia)).
      destruct (initAddrInfoLoop hash (S i) txouts recs);
        [discriminate|discriminate|congruence].
    + apply nth_error_None in Hnth. lia.
Qed.

(** Whatever [insertUTXOs] returns, it does not panic, it sends only
    statements of the insertion step, and unless it succeeds it leaves the
    database as it was. *)
Lemma insertUTXOs_steps ctx hash txouts recs w r w' :
  insertUTXOs ctx hash txouts recs w = (r, w') ->
  r <> Panic /\
  exists evs, trace w' = trace w ++ evs /\
              Forall (fun ev => step_of ev = StepInsert) evs /\
              ((exists a, r = Ok a) \/ db w' = db w).
Proof.
  destruct r as [insert|e|].
  - intros H. apply insertUTXOs_Ok in H as (_ & ins0 & _ & _ & _ & _ & _ & Htr).
    split; [discriminate|]. eexists. split; [exact Htr|].
    split; [|left; eauto]. repeat constructor.
  - unfold insertUTXOs. intros H. split; [discriminate|].
    destruct (Nat.eqb (List.length txouts) (List.length recs)) eqn:Hlen;
      cbn [negb] in H.
    2:{ unfold raise in H. injection H as _ <-. exists [].
        rewrite app_nil_r. auto. }
    apply bind_inv in H as [(ins0 & w1 & Hinit & H)|[(e' & _ & Hinit)|(? & _)]];
      try discriminate.
    2:{ unfold lift in Hinit. injection Hinit as _ <-. exists [].
        rewrite app_nil_r. auto. }
    unfold lift in Hinit. injection Hinit as Hinit <-.
    apply bind_inv in H as [(ins1 & w2 & Hload & H)|[(e' & _ & Hload)|(? & _)]];
      try discriminate.
    2:{ unfold loadAddrInfoFromDB in Hload.
        apply bind_inv in Hload
          as [(rows & w3 & _ & Hret)|[(e1 & _ & Hsel)|(? & _)]];
          try discriminate.
        apply wrap_inv in Hsel as [(a & ? & _)|[(e2 & _ & Hsel)|(? & _)]];
          try discriminate.
        unfold querySelectAddresses in Hsel;
          apply pg_run_inv in Hsel as [Htr [(a & ? & _)|(e3 & _ & Hdb)]];
          try discriminate.
        eexists. split; [exact Htr|]. split; [repeat constructor|now right]. }
    unfold loadAddrInfoFromDB in Hload.
    apply bind_inv in Hload as [(rows & w3 & Hsel & Hret)|[(e1 & ? & _)|(? & _)]];
      try discriminate.
    unfold ret in Hret. injection Hret as _ <-.
    apply wrap_inv in Hsel as [(a & ? & Hsel)|[(e2 & ? & _)|(? & _)]];
      try discriminate.
    unfold querySelectAddresses in Hsel;
          apply pg_run_inv in Hsel as [Htr1 [(a' & _ & _ & Hsem)|(e3 & ? & _)]];
      try discriminate.
    injection Hsem as _ Hdb.
    rewrite fillOuts_columns in H.
    apply bind_inv in H as [(u & w4 & _ & Hret)|[(e1 & _ & Hins)|(? & _)]];
      try discriminate.
    apply wrap_inv in Hins as [(a'' & ? & _)|[(e2 & _ & Hins)|(? & _)]];
      try discriminate.
    unfold execInsertUTXOs in Hins;
          apply pg_run_inv in Hins as [Htr2 [(a'' & ? & _)|(e3 & _ & Hdb')]];
      try discriminate.
    eexists. split; [rewrite Htr2, Htr1, <- app_assoc; reflexivity|].
    split; [repeat constructor|right; congruence].
  - unfold insertUTXOs. intros H. exfalso.
    destruct (Nat.eqb (List.length txouts) (List.length recs)) eqn:Hlen;
      cbn [negb] in H; [|discriminate].
    apply Nat.eqb_eq in Hlen.
    apply bind_inv in H as [(ins0 & w1 & _ & H)|[(e' & ? & _)|(_ & Hinit)]];
      try discriminate.
    2:{ unfold lift in Hinit. injection Hinit as Hinit _.
        revert Hinit. apply initAddrInfoLoop_no_panic. lia. }
    apply bind_inv in H as [(ins1 & w2 & _ & H)|[(e' & ? & _)|(_ & Hload)]];
      try discriminate.
    2:{ unfold loadAddrInfoFromDB in Hload.
        apply bind_inv in Hload
          as [(rows & w3 & _ & Hret)|[(e1 & ? & _)|(_ & Hsel)]];
          try discriminate.
        apply wrap_inv in Hsel as [(a & ? & _)|[(e2 & ? & _)|(_ & Hsel)]];
          try discriminate.
        unfold querySelectAddresses in Hsel;
          apply pg_run_inv in Hsel as [_ [(a & ? & _)|(e3 & ? & _)]];
          discriminate. }
    rewrite fillOuts_columns in H.
    apply bind_inv in H as [(u & w4 & _ & Hret)|[(e1 & ? & _)|(_ & Hins)]];
      try discriminate.
    apply wrap_inv in Hins as [(a'' & ? & _)|[(e2 & ? & _)|(_ & Hins)]];
      try discriminate.
    unfold execInsertUTXOs in Hins;
          apply pg_run_inv in Hins as [_ [(a & ? & _)|(e3 & ? & _)]];
      discriminate.
Qed.

(** *** Deletion *)

Lemma unnest2_spent txins :
  unnest2 (map (fun i => Hash_String (Hash (Previous i))) txins)
          (map (fun i => Index (Previous i)) txins)
  = spent txins.
Proof.
  unfold unnest2, spent. induction txins as [|i txins IH]; [reflexivity|].
  cbn [map combine]. now rewrite IH.
Qed.

Lemma scan_uint32_Some z ix : scan_uint32 z = Some ix -> ix = z.
Proof. unfold scan_uint32. destruct (_ && _); congruence. Qed.

Lemma scanDeleted_reports rows : forall deleted,
  scanDeleted (map (fun r => (account_id r, asset_id r, txid r, index r)) rows)
  = Ok deleted ->
  Forall2 reports rows deleted.
Proof.
  induction rows as [|r rows IH]; intros deleted H; cbn [map scanDeleted] in H.
  - injection H as <-. constructor.
  - destruct (scan_uint32 (index r)) as [ix|] eqn:Hix; [|discriminate].
    destruct (ParseHash (txid r)) as [h|] eqn:Hh; [|discriminate].
    destruct (scanDeleted _) as [us| |] eqn:Hus; try discriminate.
    injection H as <-. constructor; [|now apply IH].
    apply scan_uint32_Some in Hix. unfold reports. cbn. auto.
Qed.

Lemma scanDeleted_no_panic rows : scanDeleted rows <> Panic.
Proof.
  induction rows as [|[[[a b] c] d] rows IH]; cbn [scanDeleted]; [discriminate|].
  destruct (scan_uint32 d); [|discriminate].
  destruct (ParseHash c); [|discriminate].
  destruct (scanDeleted rows); congruence.
Qed.

(** [deleteUTXOs] sends one statement and does not panic; when it
    succeeds, the rows whose key is among the inputs' outpoints are gone,
    the others are kept, and the returned records report the removed rows
    one for one. *)
Lemma deleteUTXOs_inv ctx txins w r w' :
  deleteUTXOs ctx txins w = (r, w') ->
  trace w' = trace w ++ [EvStmt (deleteStmt txins)] /\
  r <> Panic /\
  forall deleted, r = Ok deleted ->
    utxos (db w')
    = filter (fun r => negb (in_outpoints r (spent txins))) (utxos (db w)) /\
    Forall2 reports
      (filter (fun r => in_outpoints r (spent txins)) (utxos (db w))) deleted /\
    addresses (db w') = addresses (db w) /\ other (db w') = other (db w).
Proof.
  unfold deleteUTXOs. intros H.
  apply bind_inv in H as [(rows & w1 & Hq & H)|[(e & -> & Hq)|(-> & Hq)]].
  - unfold lift in H. injection H as Hscan <-.
    apply wrap_inv in Hq as [(a & Ha & Hq)|[(e & ? & _)|(? & _)]];
      try discriminate.
    injection Ha as <-. unfold queryDeleteUTXOs in Hq.
    apply pg_run_inv in Hq as [Htr [(a' & Ha' & _ & Hsem)|(e & ? & _)]];
      try discriminate.
    injection Ha' as <-.
    split; [exact Htr|].
    split; [rewrite <- Hscan; apply scanDeleted_no_panic|].
    intros deleted ->. unfold sql_delete in Hsem.
    rewrite unnest2_spent in Hsem. injection Hsem as Hrows Hdb.
    rewrite <- Hdb. cbn [set_utxos utxos addresses other].
    repeat split; try reflexivity.
    apply scanDeleted_reports. now rewrite Hrows.
  - apply wrap_inv in Hq as [(a & ? & _)|[(e' & _ & Hq)|(? & _)]];
      try discriminate.
    unfold queryDeleteUTXOs in Hq.
    apply pg_run_inv in Hq as [Htr _].
    split; [exact Htr|]. split; discriminate.
  - exfalso.
    apply wrap_inv in Hq as [(a & ? & _)|[(e' & ? & _)|(_ & Hq)]];
      try discriminate.
    unfold queryDeleteUTXOs in Hq.
    apply pg_run_inv in Hq as [_ [(a & ? & _)|(e & ? & _)]]; discriminate.
Qed.

(** *** The applier *)

Lemma writeActivity_inv ctx tx localUTXOs now w r w' :
  writeActivity ctx tx localUTXOs now w = (r, w') ->
  trace w' = trace w ++ [EvWriteActivity tx localUTXOs now] /\
  db w' = snd (WriteActivity (db w) tx localUTXOs now) /\
  match fst (WriteActivity (db w) tx localUTXOs now) with
  | None => r = Ok tt
  | Some e => r = Err e
  end.
Proof.
  unfold writeActivity.
  destruct (WriteActivity (db w) tx localUTXOs now) as [[e|] d];
    intros H; injection H as <- <-; cbn; auto.
Qed.

(** A successful [ApplyTx] is a successful insertion, then a successful
    activity record over the local records, then a successful deletion. *)
Lemma ApplyTx_Ok ctx tx outRecs now w deleted inserted w' :
  ApplyTx ctx tx outRecs now w = (Ok (deleted, inserted), w') ->
  FromContext ctx = pg_Tx /\
  exists insert w1 w2,
    insertUTXOs ctx (TxHash tx) (Outputs tx) outRecs w = (Ok insert, w1) /\
    writeActivity ctx tx (filter isLocal insert) now w1 = (Ok tt, w2) /\
    deleteUTXOs ctx (Inputs tx) w2 = (Ok deleted, w') /\
    inserted = map UTXO (filter isLocal insert).
Proof.
  unfold ApplyTx, assertTx. intros H.
  destruct (FromContext ctx); [discriminate|]. split; [reflexivity|].
  apply bind_inv in H as [(u & w0 & Hret & H)|[(e & ? & _)|(? & _)]];
    try discriminate.
  unfold ret in Hret. injection Hret as _ <-.
  apply bind_inv in H as [(insert & w1 & Hins & H)|[(e & ? & _)|(? & _)]];
    try discriminate.
  apply wrap_inv in Hins as [(a & Ha & Hins)|[(e & ? & _)|(? & _)]];
    try discriminate.
  injection Ha as <-.
  apply bind_inv in H as [([] & w2 & Hact & H)|[(e & ? & _)|(? & _)]];
    try discriminate.
  apply wrap_inv in Hact as [(a & Ha & Hact)|[(e & ? & _)|(? & _)]];
    try discriminate.
  destruct a.
  apply bind_inv in H as [(del & w3 & Hdel & H)|[(e & ? & _)|(? & _)]];
    try discriminate.
  apply wrap_inv in Hdel as [(a & Ha' & Hdel)|[(e & ? & _)|(? & _)]];
    try discriminate.
  injection Ha' as <-.
  unfold ret in H. injection H as <- <- <-.
  exists insert, w1, w2. auto.
Qed.

(** Rows made for a transaction carry its hash, so inputs that refer to
    other transactions never select them. *)
Lemma own_row_not_spent hash txins (r : utxo_row) :
  Forall (fun t => Hash_String (Hash (Previous t)) <> Hash_String hash) txins ->
  txid r = Hash_String hash ->
  in_outpoints r (spent txins) = false.
Proof.
  intros Hself Hr. unfold in_outpoints, spent.
  induction Hself as [|t txins Ht _ IHt]; [reflexivity|].
  cbn [map existsb fst snd]. rewrite IHt, orb_false_r.
  apply andb_false_intro1. apply String.eqb_neq. congruence.
Qed.

Lemma rows_from_not_spent hash txins insert : forall i,
  Forall (fun t => Hash_String (Hash (Previous t)) <> Hash_String hash) txins ->
  Forall (fun r => in_outpoints r (spent txins) = false)
         (rows_from hash i insert).
Proof.
  intros i Hself. revert i.
  induction insert as [|u insert IH]; intros i; cbn [rows_from]; constructor.
  - now apply (own_row_not_spent hash).
  - apply IH.
Qed.

Lemma Forall2_In_right {A B} (R : A -> B -> Prop) l l' y :
  Forall2 R l l' -> In y l' -> exists x, In x l /\ R x y.
Proof.
  induction 1 as [|x y' l l' Hxy _ IH]; intros Hin; [destruct Hin|].
  destruct Hin as [<-|Hin].
  - exists x. split; [now left|exact Hxy].
  - destruct (IH Hin) as (x' & Hx' & Hr). exists x'. split; [now right|exact Hr].
Qed.

Lemma filter_none {A} (f : A -> bool) l :
  Forall (fun x => f x = false) l ->
  filter f l = [] /\ filter (fun x => negb (f x)) l = l.
Proof.
  induction 1 as [|x l Hx _ [IH1 IH2]]; [split; reflexivity|].
  cbn [filter]. rewrite Hx. cbn [negb]. rewrite IH2. auto.
Qed.

(** C2: when [ApplyTx] succeeds, no input refers to the transaction
    itself and the activity writer leaves [utxos] alone, then [deleted]
    reports, one for one and with their account, asset and outpoint, the
    rows of the set before the call whose key is among the inputs'
    outpoints; those rows are gone afterwards and every other row is kept;
    an outpoint with no row yields no record. *)
Theorem ApplyTx_deleted_exact ctx tx outRecs now w deleted inserted w'
    (Hact : forall d t l n, utxos (snd (WriteActivity d t l n)) = utxos d)
    (Hself : Forall (fun t => Hash_String (Hash (Previous t))
                              <> Hash_String (TxHash tx)) (Inputs tx))
    (Happly : ApplyTx ctx tx outRecs now w = (Ok (deleted, inserted), w')) :
  let removed :=
    filter (fun r => in_outpoints r (spent (Inputs tx))) (utxos (db w)) in
  Forall2 reports removed deleted /\
  (exists insert,
     utxos (db w')
     = filter (fun r => negb (in_outpoints r (spent (Inputs tx))))
              (utxos (db w))
       ++ rows_from (TxHash tx) 0 insert) /\
  (forall r, In r removed -> ~ In r (utxos (db w'))) /\
  (forall u, In u deleted ->
     exists r, In r (utxos (db w)) /\ reports r u /\
               In (txid r, index r) (spent (Inputs tx))).
Proof.
  intros removed. subst removed.
  apply ApplyTx_Ok in Happly
    as (_ & insert & w1 & w2 & Hins & Hwa & Hdel & _).
  apply insertUTXOs_Ok in Hins as (_ & ins0 & _ & _ & Hrows & _ & _ & _).
  apply writeActivity_inv in Hwa as (_ & Hdb2 & _).
  apply deleteUTXOs_inv in Hdel as (_ & _ & Hdel).
  destruct (Hdel deleted eq_refl) as (Hkept & Hrep & _ & _). clear Hdel.
  rewrite Hdb2, Hact, Hrows in Hkept, Hrep.
  rewrite filter_app in Hkept, Hrep.
  pose proof (rows_from_not_spent (TxHash tx) (Inputs tx) insert 0%nat Hself)
    as Hnew.
  apply filter_none in Hnew as [Hnew1 Hnew2].
  rewrite Hnew1, app_nil_r in Hrep. rewrite Hnew2 in Hkept.
  split; [exact Hrep|]. split; [eauto|]. split.
  - intros r Hr Hin. apply filter_In in Hr as [_ Hhit].
    rewrite Hkept in Hin. apply in_app_or in Hin as [Hin|Hin].
    + apply filter_In in Hin as [_ Hn]. rewrite Hhit in Hn. discriminate.
    + pose proof (rows_from_not_spent (TxHash tx) (Inputs tx) insert 0%nat Hself)
        as Hall.
      rewrite Forall_forall in Hall. rewrite (Hall r Hin) in Hhit. discriminate.
  - intros u Hu.
    destruct (Forall2_In_right _ _ _ _ Hrep Hu) as (r & Hr & Hru).
    apply filter_In in Hr as [Hr Hhit]. exists r. repeat split; try apply Hru; auto.
    unfold in_outpoints in Hhit. apply existsb_exists in Hhit as ([t i] & Hin & Heq).
    cbn [fst snd] in Heq. apply andb_true_iff in Heq as [Ht Hi].
    apply String.eqb_eq in Ht. apply Z.eqb_eq in Hi. now rewrite Ht, Hi.
Qed.

(** C5: when the outputs and the receiver hints differ in length,
    [ApplyTx] changes nothing and sends nothing, whatever the context; and
    inside a database transaction it returns the length-mismatch error. *)
Theorem ApplyTx_length_mismatch ctx tx outRecs now w
    (Hlen : List.length (Outputs tx) <> List.length outRecs) :
  snd (ApplyTx ctx tx outRecs now w) = w /\
  (forall v, fst (ApplyTx ctx tx outRecs now w) <> Ok v) /\
  (FromContext ctx = pg_Tx ->
   ApplyTx ctx tx outRecs now w
   = (Err (ErrWrap (ErrNew "length mismatch") "insert"), w)).
Proof.
  apply Nat.eqb_neq in Hlen.
  unfold ApplyTx, assertTx, bind, wrap, insertUTXOs, raise, ret, panic.
  destruct (FromContext ctx); rewrite ?Hlen; cbn [negb fst snd].
  - repeat split; [discriminate|discriminate].
  - repeat split; discriminate.
Qed.

(** C7: outside a database transaction [ApplyTx] panics; it returns
    neither a value nor an error, and it has sent nothing and changed
    nothing. *)
Theorem ApplyTx_outside_tx_panics tx outRecs now w :
  ApplyTx {| FromContext := pg_Pool |} tx outRecs now w = (Panic, w).
Proof. reflexivity. Qed.

(** *** Reservation *)

Lemma in_outpoints_among (r : utxo_row) (us : list utxodb_UTXO) :
  in_outpoints r
    (unnest2 (map (fun u => Hash_String (Hash (Outpoint u))) us)
             (map (fun u => Index (Outpoint u)) us))
  = outpoint_among r us.
Proof.
  unfold in_outpoints, unnest2, outpoint_among.
  induction us as [|u us IH]; [reflexivity|].
  cbn [map combine existsb fst snd]. now rewrite IH.
Qed.

(** C8: unless the storage layer fails, [SaveReservations] succeeds and
    leaves the table with the same rows in the same order, where a row
    whose key is the outpoint of one of the given records has
    [reserved_until] equal to the expiry, every other row has the
    reservation it had, and no other column or table has changed; an
    outpoint with no row changes nothing and is no error. *)
Theorem SaveReservations_exact ctx (us : list utxodb_UTXO) exp w
    (Hpg : pg_fail
             (UpdateReserved (map (fun u => Hash_String (Hash (Outpoint u))) us)
                             (map (fun u => Index (Outpoint u)) us) exp)
             (db w) = false) :
  exists w',
    SaveReservations ctx us exp w = (Ok tt, w') /\
    Forall2 (fun r r' =>
               same_but_reservation r r' /\
               reserved_until r'
               = if outpoint_among r us then Some exp else reserved_until r)
            (utxos (db w)) (utxos (db w')) /\
    addresses (db w') = addresses (db w) /\
    other (db w') = other (db w).
Proof.
  unfold SaveReservations, wrap, execUpdateReserved, pg_run. rewrite Hpg.
  eexists. split; [reflexivity|]. cbn [db set_utxos utxos addresses other].
  split; [|split; reflexivity].
  unfold sql_update_reserved.
  induction (utxos (db w)) as [|r rows IH]; cbn [map]; constructor; [|exact IH].
  rewrite in_outpoints_among.
  destruct (outpoint_among r us); unfold same_but_reservation; cbn; auto 10.
Qed.

(** *** Fresh rows *)

Lemma initAddrInfoLoop_length hash recs txouts : forall i us,
  initAddrInfoLoop hash i txouts recs = Ok us ->
  List.length us = List.length txouts.
Proof.
  induction txouts as [|txo txouts IH]; intros i us H; cbn [initAddrInfoLoop] in H.
  - injection H as <-. reflexivity.
  - destruct (PkScriptAddr (Script txo)); [|discriminate].
    destruct (nth_error recs i); [|discriminate].
    destruct (initAddrInfoLoop hash (S i) txouts recs) eqn:Hrest;
      try discriminate.
    injection H as <-. cbn [List.length]. f_equal. eauto.
Qed.

Lemma lookupTier_length addrs us :
  List.length (lookupTier addrs us) = List.length us.
Proof.
  unfold lookupTier. generalize (sql_select_addresses (wanted us) addrs).
  intros rows. revert us.
  induction rows as [|row rows IH]; intros us; cbn [fold_left]; [reflexivity|].
  now rewrite IH, length_map.
Qed.

Lemma rows_from_length hash insert : forall i,
  List.length (rows_from hash i insert) = List.length insert.
Proof.
  induction insert as [|u insert IH]; intros i; cbn [rows_from List.length];
    [reflexivity|now rewrite IH].
Qed.

Lemma rows_from_nth hash insert : forall i n row,
  nth_error (rows_from hash i insert) n = Some row ->
  exists u, nth_error insert n = Some u /\ row = row_of hash (i + n) u.
Proof.
  induction insert as [|u insert IH]; intros i n row H; cbn [rows_from] in H.
  - destruct n; discriminate.
  - destruct n as [|n]; cbn [nth_error] in *.
    + injection H as <-. exists u. now rewrite Nat.add_0_r.
    + apply IH in H as (u' & Hu' & ->). exists u'. split; [exact Hu'|].
      now rewrite Nat.add_succ_r.
Qed.

(** C9: the insert statement of a successful [ApplyTx] names seven
    columns and no reservation; the rows it creates, one per output, are
    created without a reservation; the row at position [i] has the
    transaction's hash, index [i] (for a transaction of at most [2^32]
    outputs) and the asset, amount, account, manager node and packed
    address index of the record resolved for output [i]. *)
Theorem ApplyTx_rows_unreserved ctx tx outRecs now w res w'
    (Hsize : Z.of_nat (List.length (Outputs tx)) <= 2 ^ 32)
    (Happly : ApplyTx ctx tx outRecs now w = (Ok res, w')) :
  exists insert w1 rows,
    insertUTXOs ctx (TxHash tx) (Outputs tx) outRecs w = (Ok insert, w1) /\
    utxos (db w1) = utxos (db w) ++ rows /\
    (exists sel,
       trace w1 = trace w ++ [EvStmt (SelectAddresses sel);
                              EvStmt (insertStmt (TxHash tx) insert)]) /\
    List.length rows = List.length (Outputs tx) /\
    forall i row, nth_error rows i = Some row ->
      reserved_until row = None /\
      index row = Z.of_nat i /\
      txid row = Hash_String (TxHash tx) /\
      exists u, nth_error insert i = Some u /\
        asset_id row = AssetID (UTXO u) /\
        amount row = Int.to_int64 (Amount (UTXO u)) /\
        account_id row = AccountID (UTXO u) /\
        manager_node_id row = ManagerNodeID u /\
        toKeyIndex [fst (AddrIndex (UTXO u)); snd (AddrIndex (UTXO u))]
        = Some (addr_index row).
Proof.
  destruct res as [deleted inserted].
  apply ApplyTx_Ok in Happly as (_ & insert & w1 & w2 & Hins & _).
  pose proof (insertUTXOs_Ok _ _ _ _ _ _ _ Hins)
    as (_ & ins0 & Hinit & Hlook & Hrows & _ & _ & Htr).
  assert (Hlen : List.length insert = List.length (Outputs tx)).
  { rewrite Hlook, lookupTier_length.
    now apply initAddrInfoLoop_length in Hinit. }
  exists insert, w1, (rows_from (TxHash tx) 0 insert).
  split; [exact Hins|]. split; [exact Hrows|].
  split; [exists (wanted ins0); exact Htr|].
  split; [now rewrite rows_from_length|].
  intros i row Hrow.
  assert (Hi : (i < List.length insert)%nat).
  { rewrite <- (rows_from_length (TxHash tx) insert 0%nat).
    apply nth_error_Some. congruence. }
  apply rows_from_nth in Hrow as (u & Hu & ->). cbn [Nat.add row_of].
  cbn [reserved_until index txid asset_id amount account_id manager_node_id
       addr_index].
  split; [reflexivity|]. split.
  - apply to_uint32_id. unfold Int.is_uint32. lia.
  - split; [reflexivity|]. exists u. split; [exact Hu|].
    repeat (split; [reflexivity|]). apply toKeyIndex_packed.
Qed.

(** *** Receiver resolution *)

Lemma fold_left_map_pointwise {A B} (f : B -> A -> A) rows : forall us,
  fold_left (fun us row => map (f row) us) rows us
  = map (fun u => fold_left (fun u row => f row u) rows u) us.
Proof.
  induction rows as [|row rows IH]; intros us; cbn [fold_left].
  - now rewrite map_id.
  - now rewrite IH, map_map.
Qed.

Lemma fillFromRow_Addr row u : Addr (fillFromRow row u) = Addr u.
Proof.
  destruct row as [[[[addr acc] mn] ix] ch]. unfold fillFromRow.
  destruct (_ && _); reflexivity.
Qed.

Lemma fillFromRow_other_addr (r : address_row) u :
  address r <> Addr u -> fillFromRow (selected r) u = u.
Proof.
  intros Hne. unfold fillFromRow, selected.
  assert (String.eqb (Addr u) (address r) = false) as ->
    by (apply String.eqb_neq; congruence).
  now rewrite andb_false_r.
Qed.

Lemma fillFromRow_has_account row u :
  AccountID (UTXO u) <> ""%string -> fillFromRow row u = u.
Proof.
  intros Hne. destruct row as [[[[addr acc] mn] ix] ch]. unfold fillFromRow.
  apply String.eqb_neq in Hne. now rewrite Hne.
Qed.

Lemma fold_fill_has_account rows : forall u,
  AccountID (UTXO u) <> ""%string ->
  fold_left (fun u row => fillFromRow row u) rows u = u.
Proof.
  induction rows as [|row rows IH]; intros u Hne; cbn [fold_left]; [reflexivity|].
  rewrite fillFromRow_has_account by exact Hne. now apply IH.
Qed.

Lemma fold_fill_no_match (keep : address_row -> bool) addrs : forall u,
  ~ In (Addr u) (map address addrs) ->
  fold_left (fun u row => fillFromRow row u)
            (map selected (filter keep addrs)) u = u.
Proof.
  induction addrs as [|r addrs IH]; intros u Hnot; [reflexivity|].
  cbn [map In] in Hnot. cbn [filter].
  assert (Hr : fillFromRow (selected r) u = u)
    by (apply fillFromRow_other_addr; tauto).
  destruct (keep r); cbn [map fold_left]; rewrite ?Hr; apply IH; tauto.
Qed.

Lemma fold_fill_resolveOne wanted0 addrs : forall u,
  NoDup (map address addrs) ->
  (AccountID (UTXO u) = ""%string -> In (Addr u) wanted0) ->
  fold_left (fun u row => fillFromRow row u)
    (map selected
       (filter (fun r => existsb (String.eqb (address r)) wanted0) addrs)) u
  = resolveOne addrs u.
Proof.
  intros u Hnd Hw. unfold resolveOne.
  destruct (String.eqb (AccountID (UTXO u)) "") eqn:Hacc.
  2:{ apply fold_fill_has_account. now apply String.eqb_neq. }
  apply String.eqb_eq in Hacc. specialize (Hw Hacc). clear Hacc.
  induction addrs as [|r addrs IH]; [reflexivity|].
  cbn [map] in Hnd. inversion Hnd as [|? ? Hnotin Hnd']; subst.
  cbn [filter find].
  destruct (String.eqb (address r) (Addr u)) eqn:Hr.
  - apply String.eqb_eq in Hr.
    assert (existsb (String.eqb (address r)) wanted0 = true) as ->.
    { apply existsb_exists. exists (Addr u). split; [exact Hw|].
      now apply String.eqb_eq. }
    cbn [map fold_left]. apply fold_fill_no_match.
    rewrite fillFromRow_Addr, <- Hr. exact Hnotin.
  - apply String.eqb_neq in Hr.
    destruct (existsb _ wanted0); cbn [map fold_left];
      rewrite ?(fillFromRow_other_addr r u Hr); now apply IH.
Qed.

(** With [address] a key of the table, the lookup resolves every record on
    its own. *)
Lemma lookupTier_pointwise addrs us :
  NoDup (map address addrs) ->
  lookupTier addrs us = map (resolveOne addrs) us.
Proof.
  intros Hnd. unfold lookupTier, sql_select_addresses.
  rewrite fold_left_map_pointwise. apply map_ext_in. intros u Hu.
  apply fold_fill_resolveOne; [exact Hnd|].
  intros Hacc. unfold wanted. apply in_map. apply filter_In.
  split; [exact Hu|]. now apply String.eqb_eq.
Qed.

Lemma initAddrInfoLoop_nth hash recs txouts : forall i us n txo,
  initAddrInfoLoop hash i txouts recs = Ok us ->
  nth_error txouts n = Some txo ->
  exists addr rec,
    PkScriptAddr (Script txo) = Some addr /\
    nth_error recs (i + n) = Some rec /\
    nth_error us n = Some (newUTXO hash (i + n) txo addr rec).
Proof.
  induction txouts as [|txo0 txouts IH]; intros i us n txo H Hn;
    [destruct n; discriminate|].
  cbn [initAddrInfoLoop] in H.
  destruct (PkScriptAddr (Script txo0)) as [addr0|] eqn:Haddr; [|discriminate].
  destruct (nth_error recs i) as [rec0|] eqn:Hrec; [|discriminate].
  destruct (initAddrInfoLoop hash (S i) txouts recs) as [us'| |] eqn:Hrest;
    try discriminate.
  injection H as <-. destruct n as [|n]; cbn [nth_error] in *.
  - injection Hn as <-. exists addr0, rec0. rewrite Nat.add_0_r. auto.
  - destruct (IH _ _ _ _ Hrest Hn) as (addr & rec & Ha & Hr & Hu).
    exists addr, rec. rewrite Nat.add_succ_r. auto.
Qed.

Lemma find_key (addrs : list address_row) a row :
  NoDup (map address addrs) -> In row addrs -> address row = a ->
  find (fun r => String.eqb (address r) a) addrs = Some row.
Proof.
  induction addrs as [|r addrs IH]; intros Hnd Hin Ha; [destruct Hin|].
  cbn [map] in Hnd. inversion Hnd as [|? ? Hnotin Hnd']; subst.
  cbn [find]. destruct Hin as [->|Hin].
  - now rewrite String.eqb_refl.
  - destruct (String.eqb (address r) (address row)) eqn:Hr; [|now apply IH].
    apply String.eqb_eq in Hr. exfalso. apply Hnotin. rewrite Hr.
    now apply in_map.
Qed.

Lemma find_no_key (addrs : list address_row) a :
  (forall row, In row addrs -> address row <> a) ->
  find (fun r => String.eqb (address r) a) addrs = None.
Proof.
  induction addrs as [|r addrs IH]; intros Hno; [reflexivity|].
  cbn [find]. assert (String.eqb (address r) a = false) as ->.
  { apply String.eqb_neq. apply Hno. now left. }
  apply IH. intros row Hrow. apply Hno. now right.
Qed.

(** C4, as the code has it: the address of every output is derived from
    its script, hinted or not.  A hint whose account ID is not empty is
    used as it is (its address index copied into the pair).  One lookup is
    sent, for the addresses of the records whose account ID is empty after
    the hint tier; such a record takes the account, manager node, address
    index and is-change of the row registered for its address, and an
    unhinted record with no such row keeps empty owner fields. *)
Theorem resolution_tiers ctx hash txouts recs w insert w'
    (Hkey : NoDup (map address (addresses (db w))))
    (Hins : insertUTXOs ctx hash txouts recs w = (Ok insert, w')) :
  List.length insert = List.length txouts /\
  (exists ins0,
     initAddrInfoFromRecs hash txouts recs = Ok ins0 /\
     trace w' = trace w ++ [EvStmt (SelectAddresses (wanted ins0));
                            EvStmt (insertStmt hash insert)] /\
     forall a, In a (wanted ins0) <->
               exists u, In u ins0 /\ AccountID (UTXO u) = ""%string /\
                         Addr u = a) /\
  forall i txo rec,
    nth_error txouts i = Some txo -> nth_error recs i = Some rec ->
    exists addr u,
      PkScriptAddr (Script txo) = Some addr /\
      nth_error insert i = Some u /\ Addr u = addr /\
      (forall r, rec = Some r -> R_AccountID r <> ""%string ->
         AccountID (UTXO u) = R_AccountID r /\
         ManagerNodeID u = R_ManagerNodeID r /\
         AddrIndex (UTXO u) = copy2 (0, 0) (R_AddrIndex r) /\
         IsChange u = R_IsChange r) /\
      (forall row,
         (rec = None \/ exists r, rec = Some r /\ R_AccountID r = ""%string) ->
         In row (addresses (db w)) -> address row = addr ->
         AccountID (UTXO u) = a_account_id row /\
         ManagerNodeID u = a_manager_node_id row /\
         AddrIndex (UTXO u)
         = (Z.shiftr (a_key_index row) 31, Z.land (a_key_index row) 0x7fffffff) /\
         IsChange u = a_is_change row) /\
      (rec = None ->
       (forall row, In row (addresses (db w)) -> address row <> addr) ->
       AccountID (UTXO u) = ""%string /\ ManagerNodeID u = ""%string /\
       AddrIndex (UTXO u) = (0, 0) /\ IsChange u = false).
Proof.
  pose proof (insertUTXOs_Ok _ _ _ _ _ _ _ Hins)
    as (Hlen & ins0 & Hinit & Hlook & _ & _ & _ & Htr).
  rewrite lookupTier_pointwise in Hlook by exact Hkey.
  split.
  { rewrite Hlook, length_map. now apply initAddrInfoLoop_length in Hinit. }
  split.
  { exists ins0. split; [exact Hinit|]. split; [exact Htr|].
    intros a. unfold wanted. rewrite in_map_iff. split.
    - intros (u & Hu & Hin). apply filter_In in Hin as [Hin Hacc].
      apply String.eqb_eq in Hacc. eauto.
    - intros (u & Hin & Hacc & Hu). exists u. split; [exact Hu|].
      apply filter_In. split; [exact Hin|]. now apply String.eqb_eq. }
  intros i txo rec Htxo Hrec.
  destruct (initAddrInfoLoop_nth _ _ _ _ _ _ _ Hinit Htxo)
    as (addr & rec' & Haddr & Hrec' & Hu0).
  cbn [Nat.add] in Hrec', Hu0. rewrite Hrec in Hrec'. injection Hrec' as <-.
  set (u0 := newUTXO hash i txo addr rec) in *.
  exists addr, (resolveOne (addresses (db w)) u0).
  split; [exact Haddr|]. split.
  { rewrite Hlook. now apply map_nth_error. }
  assert (Haddr0 : Addr u0 = addr) by (subst u0; destruct rec; reflexivity).
  split.
  { unfold resolveOne. destruct (String.eqb _ ""); [|exact Haddr0].
    destruct (find _ _); [|exact Haddr0]. now rewrite fillFromRow_Addr. }
  split; [|split].
  - intros r -> Hacc. unfold resolveOne.
    assert (String.eqb (AccountID (UTXO u0)) "" = false) as ->
      by (apply String.eqb_neq; exact Hacc).
    subst u0. cbn. auto.
  - intros row Hempty Hrow Hrowaddr. unfold resolveOne.
    assert (String.eqb (AccountID (UTXO u0)) "" = true) as Hacc.
    { apply String.eqb_eq. subst u0.
      destruct Hempty as [->|(r & -> & Hr)]; [reflexivity|exact Hr]. }
    rewrite Hacc, Haddr0.
    rewrite (find_key _ _ row Hkey Hrow Hrowaddr).
    unfold fillFromRow, selected. rewrite Hacc, Haddr0, Hrowaddr.
    rewrite String.eqb_refl. cbn. auto.
  - intros -> Hno. unfold resolveOne. rewrite Haddr0.
    rewrite (find_no_key _ _ Hno). subst u0. cbn. auto.
Qed.

End StoreFacts.

(** ** The properties on the concrete instance *)

Section Instances.
#[local] Existing Instance Demo.prims.
#[local] Existing Instance Demo.collab.

Lemma ApplyTx_deleted_exact_witness :
  let ctx := Demo.inTx in
  let tx := Demo.tx1 in
  let outRecs := Demo.recs1 in
  let now := 100 in
  let w := Demo.world0 in
  let deleted := Demo.deleted1 in
  let w' := Demo.world1 in
  (forall d t l n, utxos (snd (WriteActivity d t l n)) = utxos d) /\
  Forall (fun t => Hash_String (Hash (Previous t))
                   <> Hash_String (TxHash tx)) (Inputs tx) /\
  ApplyTx ctx tx outRecs now w = (Ok (deleted, Demo.inserted1), w') /\
  (
  let removed :=
    filter (fun r => in_outpoints r (spent (Inputs tx))) (utxos (db w)) in
  Forall2 reports removed deleted /\
  (exists insert,
     utxos (db w')
     = filter (fun r => negb (in_outpoints r (spent (Inputs tx))))
              (utxos (db w))
       ++ rows_from (TxHash tx) 0 insert) /\
  (forall r, In r removed -> ~ In r (utxos (db w'))) /\
  (forall u, In u deleted ->
     exists r, In r (utxos (db w)) /\ reports r u /\
               In (txid r, index r) (spent (Inputs tx)))).
Proof.
  intros ctx tx outRecs now w deleted w'.
  assert (Hact : forall d t l n,
             utxos (snd (WriteActivity d t l n)) = utxos d)
    by (intros; reflexivity).
  assert (Hself : Forall (fun t => Hash_String (Hash (Previous t))
                                   <> Hash_String (TxHash tx)) (Inputs tx))
    by (repeat constructor; vm_compute; discriminate).
  assert (Happly : ApplyTx ctx tx outRecs now w
                   = (Ok (deleted, Demo.inserted1), w'))
    by (vm_compute; reflexivity).
  repeat (split; [assumption|]).
  exact (ApplyTx_deleted_exact ctx tx outRecs now w deleted _ w'
           Hact Hself Happly).
Defined.

Lemma ApplyTx_length_mismatch_witness :
  let ctx := Demo.inTx in
  let tx := Demo.tx1 in
  let outRecs := [Demo.hint "acc1" "mn1"] in
  let now := 100 in
  let w := Demo.world0 in
  List.length (Outputs tx) <> List.length outRecs /\
  (
  snd (ApplyTx ctx tx outRecs now w) = w /\
  (forall v, fst (ApplyTx ctx tx outRecs now w) <> Ok v) /\
  (FromContext ctx = pg_Tx ->
   ApplyTx ctx tx outRecs now w
   = (Err (ErrWrap (ErrNew "length mismatch") "insert"), w))).
Proof.
  intros ctx tx outRecs now w.
  assert (Hlen : List.length (Outputs tx) <> List.length outRecs)
    by (vm_compute; discriminate).
  split; [exact Hlen|].
  exact (ApplyTx_length_mismatch ctx tx outRecs now w Hlen).
Defined.

Lemma SaveReservations_exact_witness :
  let ctx := Demo.noTx in
  let us := [Demo.at_outpoint "t0" 1; Demo.at_outpoint "t7" 0] in
  let exp := 500 in
  let w := Demo.world0 in
  pg_fail
    (UpdateReserved (map (fun u => Hash_String (Hash (Outpoint u))) us)
                    (map (fun u => Index (Outpoint u)) us) exp)
    (db w) = false /\
  (
  exists w',
    SaveReservations ctx us exp w = (Ok tt, w') /\
    Forall2 (fun r r' =>
               same_but_reservation r r' /\
               reserved_until r'
               = if outpoint_among r us then Some exp else reserved_until r)
            (utxos (db w)) (utxos (db w')) /\
    addresses (db w') = addresses (db w) /\
    other (db w') = other (db w)).
Proof.
  intros ctx us exp w.
  assert (Hpg : pg_fail
             (UpdateReserved (map (fun u => Hash_String (Hash (Outpoint u))) us)
                             (map (fun u => Index (Outpoint u)) us) exp)
             (db w) = false)
    by reflexivity.
  split; [exact Hpg|].
  exact (SaveReservations_exact ctx us exp w Hpg).
Defined.

Lemma ApplyTx_rows_unreserved_witness :
  let ctx := Demo.inTx in
  let tx := Demo.tx1 in
  let outRecs := Demo.recs1 in
  let now := 100 in
  let w := Demo.world0 in
  let res := (Demo.deleted1, Demo.inserted1) in
  let w' := Demo.world1 in
  Z.of_nat (List.length (Outputs tx)) <= 2 ^ 32 /\
  ApplyTx ctx tx outRecs now w = (Ok res, w') /\
  (
  exists insert w1 rows,
    insertUTXOs ctx (TxHash tx) (Outputs tx) outRecs w = (Ok insert, w1) /\
    utxos (db w1) = utxos (db w) ++ rows /\
    (exists sel,
       trace w1 = trace w ++ [EvStmt (SelectAddresses sel);
                              EvStmt (insertStmt (TxHash tx) insert)]) /\
    List.length rows = List.length (Outputs tx) /\
    forall i row, nth_error rows i = Some row ->
      reserved_until row = None /\
      index row = Z.of_nat i /\
      txid row = Hash_String (TxHash tx) /\
      exists u, nth_error insert i = Some u /\
        asset_id row = AssetID (UTXO u) /\
        amount row = Int.to_int64 (Amount (UTXO u)) /\
        account_id row = AccountID (UTXO u) /\
        manager_node_id row = ManagerNodeID u /\
        toKeyIndex [fst (AddrIndex (UTXO u)); snd (AddrIndex (UTXO u))]
        = Some (addr_index row)).
Proof.
  intros ctx tx outRecs now w res w'.
  assert (Hsize : Z.of_nat (List.length (Outputs tx)) <= 2 ^ 32)
    by (vm_compute; discriminate).
  assert (Happly : ApplyTx ctx tx outRecs now w = (Ok res, w'))
    by (vm_compute; reflexivity).
  repeat (split; [assumption|]).
  exact (ApplyTx_rows_unreserved ctx tx outRecs now w res w' Hsize Happly).
Defined.

Lemma resolution_tiers_witness :
  let ctx := Demo.inTx in
  let hash := TxHash Demo.tx1 in
  let txouts := Outputs Demo.tx1 in
  let recs := Demo.recs1 in
  let w := Demo.world0 in
  let insert := Demo.insert3 in
  let w' := Demo.world3 in
  NoDup (map address (addresses (db w))) /\
  insertUTXOs ctx hash txouts recs w = (Ok insert, w') /\
  (
  List.length insert = List.length txouts /\
  (exists ins0,
     initAddrInfoFromRecs hash txouts recs = Ok ins0 /\
     trace w' = trace w ++ [EvStmt (SelectAddresses (wanted ins0));
                            EvStmt (insertStmt hash insert)] /\
     forall a, In a (wanted ins0) <->
               exists u, In u ins0 /\ AccountID (UTXO u) = ""%string /\
                         Addr u = a) /\
  forall i txo rec,
    nth_error txouts i = Some txo -> nth_error recs i = Some rec ->
    exists addr u,
      PkScriptAddr (Script txo) = Some addr /\
      nth_error insert i = Some u /\ Addr u = addr /\
      (forall r, rec = Some r -> R_AccountID r <> ""%string ->
         AccountID (UTXO u) = R_AccountID r /\
         ManagerNodeID u = R_ManagerNodeID r /\
         AddrIndex (UTXO u) = copy2 (0, 0) (R_AddrIndex r) /\
         IsChange u = R_IsChange r) /\
      (forall row,
         (rec = None \/ exists r, rec = Some r /\ R_AccountID r = ""%string) ->
         In row (addresses (db w)) -> address row = addr ->
         AccountID (UTXO u) = a_account_id row /\
         ManagerNodeID u = a_manager_node_id row /\
         AddrIndex (UTXO u)
         = (Z.shiftr (a_key_index row) 31, Z.land (a_key_index row) 0x7fffffff) /\
         IsChange u = a_is_change row) /\
      (rec = None ->
       (forall row, In row (addresses (db w)) -> address row <> addr) ->
       AccountID (UTXO u) = ""%string /\ ManagerNodeID u = ""%string /\
       AddrIndex (UTXO u) = (0, 0) /\ IsChange u = false)).
Proof.
  intros ctx hash txouts recs w insert w'.
  assert (Hkey : NoDup (map address (addresses (db w))))
    by (repeat constructor; simpl; tauto).
  assert (Hins : insertUTXOs ctx hash txouts recs w = (Ok insert, w'))
    by (vm_compute; reflexivity).
  repeat (split; [assumption|]).
  exact (resolution_tiers ctx hash txouts recs w insert w' Hkey Hins).
Defined.

(** Scenario A of the spec: both outputs are local, nothing is deleted. *)
Example scenario_A :
  exists deleted inserted,
    fst (ApplyTx Demo.inTx Demo.txA [Demo.hint "acc1" "mn1"; None] 100
           Demo.empty_world) = Ok (deleted, inserted) /\
    deleted = [] /\
    map AccountID inserted = ["acc1"; "acc2"]%string /\
    map (fun u => Index (Outpoint u)) inserted = [0; 1].
Proof. eexists. eexists. split; [vm_compute; reflexivity|]. auto. Qed.

(** Scenario B of the spec: the second transaction deletes both rows and
    reports their accounts and asset; its own output is external, so
    nothing is reported as inserted and the set holds that one row. *)
Example scenario_B :
  exists deleted w',
    ApplyTx Demo.inTx Demo.txB [None] 200 Demo.worldA
    = (Ok (deleted, []), w') /\
    map (fun u => (AccountID u, AssetID u, Hash (Outpoint u), Index (Outpoint u)))
        deleted
    = [("acc1", "gold", "tx:addr1,addr2", 0);
       ("acc2", "gold", "tx:addr1,addr2", 1)]%string /\
    map (fun r => (txid r, index r, account_id r, manager_node_id r))
        (utxos (db w'))
    = [("tx:addr9", 0, "", "")]%string.
Proof. eexists. eexists. split; [vm_compute; reflexivity|]. auto. Qed.

(** With an activity writer that fails, the rows are inserted, the
    error is returned and no delete statement is sent: the spent row
    [t0:0] is still there. *)
Example ApplyTx_activity_failure :
  @ApplyTx Demo.prims Demo.collab_noactivity Demo.inTx Demo.tx1 Demo.recs1
    100 Demo.world0
  = (Err (ErrWrap (ErrNew "activity") "creating activity items"), Demo.world2)
  /\ In (Demo.row "t0" 0 "acc1" "mn1") (utxos (db Demo.world2))
  /\ Forall (fun ev => step_of ev <> StepDelete) (trace Demo.world2).
Proof.
  split; [vm_compute; reflexivity|]. split; [now left|].
  repeat constructor; discriminate.
Qed.

(** C4 as stated fails on the code in two ways.  A hint that is not nil but
    names no account is overwritten by the row registered for the output's
    address, so its manager node is not used as given.  And the address is
    derived from the script of a hinted output too: a hinted output with an
    unrecognised script makes the whole resolution fail. *)
Lemma resolution_hint_counterexample :
  (exists r u,
     nth_error Demo.recs_noacc 0 = Some (Some r) /\
     fst (insertUTXOs Demo.inTx (TxHash Demo.tx1) [Demo.out "addr2"]
            Demo.recs_noacc Demo.world0) = Ok [u] /\
     ManagerNodeID u <> R_ManagerNodeID r /\
     AccountID (UTXO u) <> R_AccountID r) /\
  fst (insertUTXOs Demo.inTx (TxHash Demo.tx1) [Demo.out ""]
         [Demo.hint "acc1" "mn1"] Demo.world0)
  = Err (ErrWrap (ErrForeign "txscript") "bad pk script").
Proof.
  split.
  - eexists. eexists. split; [reflexivity|]. split; [vm_compute; reflexivity|].
    split; vm_compute; discriminate.
  - vm_compute. reflexivity.
Qed.

End Instances.

(** * Part III: more of the store *)

(** ** The packer beyond 31 bits *)

(** X1: The top bit of the second component is lost: a pair and the pair with
    [2^31] added to its second component are packed alike. *)
Theorem toKeyIndex_drops_top_bit (a b : Z)
    (Ha : Int.is_uint32 a) (Hb : 0 <= b < 2 ^ 31) :
  Int.is_uint32 (b + 2 ^ 31) /\
  toKeyIndex [a; b + 2 ^ 31] = toKeyIndex [a; b].
Proof.
  assert (Hb' : Int.is_uint32 (b + 2 ^ 31)) by (unfold Int.is_uint32; lia).
  split; [exact Hb'|].
  rewrite !toKeyIndex_arith by (unfold Int.is_uint32 in *; lia || assumption).
  replace (b + 2 ^ 31) with (b + 1 * 2 ^ 31) by lia.
  now rewrite Z.mod_add by lia.
Qed.

Lemma toKeyIndex_drops_top_bit_witness :
  Int.is_uint32 (7 + 2 ^ 31) /\
  toKeyIndex [5; 7 + 2 ^ 31] = toKeyIndex [5; 7].
Proof.
  apply (toKeyIndex_drops_top_bit 5 7); unfold Int.is_uint32; lia.
Defined.

(** X2: On pairs with a second component below [2^31] the packed values are
    ordered as the pairs are, first component first. *)
Theorem toKeyIndex_ordered (a b a' b' : Z)
    (Ha : Int.is_uint32 a) (Hb : 0 <= b < 2 ^ 31)
    (Ha' : Int.is_uint32 a') (Hb' : 0 <= b' < 2 ^ 31) :
  exists k k',
    toKeyIndex [a; b] = Some k /\ toKeyIndex [a'; b'] = Some k' /\
    (k < k' <-> a < a' \/ (a = a' /\ b < b')).
Proof.
  exists (a * 2 ^ 31 + b mod 2 ^ 31), (a' * 2 ^ 31 + b' mod 2 ^ 31).
  split; [apply toKeyIndex_arith; unfold Int.is_uint32 in *; lia|].
  split; [apply toKeyIndex_arith; unfold Int.is_uint32 in *; lia|].
  rewrite !Z.mod_small by lia. unfold Int.is_uint32 in *. lia.
Qed.

Lemma toKeyIndex_ordered_witness :
  exists k k',
    toKeyIndex [1; 2147483647] = Some k /\ toKeyIndex [2; 0] = Some k' /\
    k < k'.
Proof.
  destruct (toKeyIndex_ordered 1 2147483647 2 0)
    as (k & k' & Hk & Hk' & Hlt); [unfold Int.is_uint32; lia ..|].
  exists k, k'. repeat split; try assumption. apply Hlt. lia.
Defined.

(** ** The functions as equations *)

Section MoreFacts.
Context {P : Primitives} {C : Collaborators}.

Lemma in_outpoints_In (r : utxo_row) ops :
  in_outpoints r ops = true <-> In (txid r, index r) ops.
Proof.
  unfold in_outpoints. rewrite existsb_exists. split.
  - intros ([t i] & Hin & Heq). cbn [fst snd] in Heq.
    apply andb_true_iff in Heq as [Ht Hi].
    apply String.eqb_eq in Ht. apply Z.eqb_eq in Hi. now rewrite Ht, Hi.
  - intros Hin. exists (txid r, index r). split; [exact Hin|].
    cbn [fst snd]. now rewrite String.eqb_refl, Z.eqb_refl.
Qed.

(** [insertUTXOs], step by step. *)
Lemma insertUTXOs_eq ctx hash txouts recs w :
  insertUTXOs ctx hash txouts recs w =
  if negb (Nat.eqb (List.length txouts) (List.length recs)) then
    (Err (ErrNew "length mismatch"), w)
  else
    match initAddrInfoFromRecs hash txouts recs with
    | Ok ins0 =>
        let sel := SelectAddresses (wanted ins0) in
        let insert := lookupTier (addresses (db w)) ins0 in
        let ins := insertStmt hash insert in
        if pg_fail sel (db w) then
          (Err (ErrWrap (ErrForeign "pg") "select"), log (EvStmt sel) w)
        else if pg_fail ins (db w) then
          (Err (ErrWrap (ErrForeign "pg") ""),
           log (EvStmt ins) (log (EvStmt sel) w))
        else
          match sql_insert (utxos (db w)) (rows_from hash 0 insert) with
          | Some rows =>
              (Ok insert,
               {| db := set_utxos (db w) rows;
                  trace := trace (log (EvStmt ins) (log (EvStmt sel) w)) |})
          | None =>
              (Err (ErrWrap (ErrForeign "pg") ""),
               log (EvStmt ins) (log (EvStmt sel) w))
          end
    | Err e => (Err e, w)
    | Panic => (Panic, w)
    end.
Proof.
  unfold insertUTXOs.
  destruct (negb (Nat.eqb (List.length txouts) (List.length recs)));
    [reflexivity|].
  unfold bind at 1. unfold lift.
  destruct (initAddrInfoFromRecs hash txouts recs) as [ins0| |];
    [|reflexivity|reflexivity].
  unfold bind at 1. unfold loadAddrInfoFromDB, bind at 1, wrap at 1.
  unfold querySelectAddresses, pg_run. fold (wanted ins0).
  cbv zeta.
  destruct (pg_fail (SelectAddresses (wanted ins0)) (db w)) eqn:Hsel;
    [reflexivity|].
  unfold ret at 1. fold (lookupTier (addresses (db w)) ins0).
  rewrite fillOuts_columns.
  cbn [s_txid s_index s_assetID s_amount s_accountID s_managerNodeID
       s_aIndex app].
  unfold bind, wrap, execInsertUTXOs, pg_run, ret.
  cbn [db trace log]. fold (insertStmt hash (lookupTier (addresses (db w)) ins0)).
  destruct (pg_fail (insertStmt hash (lookupTier (addresses (db w)) ins0))
              (db w)); [reflexivity|].
  rewrite unnest_rows_from.
  destruct (sql_insert _ _); reflexivity.
Qed.

(** [deleteUTXOs], step by step. *)
Lemma deleteUTXOs_eq ctx txins w :
  deleteUTXOs ctx txins w =
  let w1 := log (EvStmt (deleteStmt txins)) w in
  if pg_fail (deleteStmt txins) (db w) then
    (Err (ErrWrap (ErrForeign "pg") "delete"), w1)
  else
    (scanDeleted
       (map (fun r => (account_id r, asset_id r, txid r, index r))
            (filter (fun r => in_outpoints r (spent txins)) (utxos (db w)))),
     {| db := set_utxos (db w)
                (filter (fun r => negb (in_outpoints r (spent txins)))
                        (utxos (db w)));
        trace := trace w1 |}).
Proof.
  unfold deleteUTXOs, bind, wrap, queryDeleteUTXOs, pg_run, lift.
  fold (deleteStmt txins). cbv zeta.
  destruct (pg_fail (deleteStmt txins) (db w)); [reflexivity|].
  unfold sql_delete. rewrite unnest2_spent. reflexivity.
Qed.

(** [ApplyTx] inside a transaction, as the three steps in a row. *)
Lemma ApplyTx_eq tx outRecs now w :
  let ctx := {| FromContext := pg_Tx |} in
  ApplyTx ctx tx outRecs now w =
  match insertUTXOs ctx (TxHash tx) (Outputs tx) outRecs w with
  | (Ok insert, w1) =>
      match writeActivity ctx tx (filter isLocal insert) now w1 with
      | (Ok _, w2) =>
          match deleteUTXOs ctx (Inputs tx) w2 with
          | (Ok deleted, w3) =>
              (Ok (deleted, map UTXO (filter isLocal insert)), w3)
          | (Err e, w3) => (Err (ErrWrap e "delete"), w3)
          | (Panic, w3) => (Panic, w3)
          end
      | (Err e, w2) => (Err (ErrWrap e "creating activity items"), w2)
      | (Panic, w2) => (Panic, w2)
      end
  | (Err e, w1) => (Err (ErrWrap e "insert"), w1)
  | (Panic, w1) => (Panic, w1)
  end.
Proof.
  intros ctx. subst ctx. unfold ApplyTx, assertTx. cbn [FromContext].
  unfold bind, wrap, ret.
  destruct (insertUTXOs _ _ _ _ w) as [[insert|e|] w1]; try reflexivity.
  destruct (writeActivity _ _ _ _ w1) as [[u|e|] w2]; try reflexivity.
  destruct (deleteUTXOs _ _ w2) as [[deleted|e|] w3]; reflexivity.
Qed.

(** ** What the calls may do to the database *)

(** What [insertUTXOs] may do to the database, whatever it returns. *)
Lemma insertUTXOs_db ctx hash txouts recs w r w' :
  insertUTXOs ctx hash txouts recs w = (r, w') ->
  addresses (db w') = addresses (db w) /\ other (db w') = other (db w) /\
  (utxos (db w') = utxos (db w) \/
   exists insert, r = Ok insert /\
     sql_insert (utxos (db w)) (rows_from hash 0 insert)
     = Some (utxos (db w'))).
Proof.
  rewrite insertUTXOs_eq.
  destruct (negb _); [intros H; injection H as <- <-; auto|].
  destruct (initAddrInfoFromRecs hash txouts recs) as [ins0|e|];
    [|intros H; injection H as <- <-; auto ..].
  cbv zeta. destruct (pg_fail _ _); [intros H; injection H as <- <-; auto|].
  destruct (pg_fail _ _); [intros H; injection H as <- <-; auto|].
  destruct (sql_insert _ _) as [rows|] eqn:Hsql;
    intros H; injection H as <- <-; cbn [db log set_utxos utxos addresses other];
    auto.
  repeat split. right. eauto.
Qed.

(** What [deleteUTXOs] may do to the database, whatever it returns. *)
Lemma deleteUTXOs_db ctx txins w r w' :
  deleteUTXOs ctx txins w = (r, w') ->
  addresses (db w') = addresses (db w) /\ other (db w') = other (db w) /\
  (utxos (db w') = utxos (db w) \/
   utxos (db w')
   = filter (fun r => negb (in_outpoints r (spent txins))) (utxos (db w))).
Proof.
  rewrite deleteUTXOs_eq. cbv zeta.
  destruct (pg_fail _ _); intros H; injection H as <- <-;
    cbn [db log set_utxos utxos addresses other]; auto.
Qed.

(** X4: [SaveReservations] adds no row, removes none and changes no key, and
    it leaves the other tables alone, whatever it returns. *)
Theorem SaveReservations_keeps_keys ctx (us : list utxodb_UTXO) exp w :
  let w' := snd (SaveReservations ctx us exp w) in
  keys (utxos (db w')) = keys (utxos (db w)) /\
  addresses (db w') = addresses (db w) /\ other (db w') = other (db w).
Proof.
  unfold SaveReservations, wrap, execUpdateReserved, pg_run. cbv zeta.
  destruct (pg_fail _ _); cbn [snd db log set_utxos utxos addresses other];
    [auto|].
  split; [|auto]. unfold keys, sql_update_reserved. rewrite map_map.
  apply map_ext. intros r. now destruct (in_outpoints r _).
Qed.

(** ** Deletion at the edges *)

Lemma set_utxos_same (d : DB) : set_utxos d (utxos d) = d.
Proof. now destruct d. Qed.

Lemma filter_filter_negb {A} (f : A -> bool) l :
  filter f (filter (fun x => negb (f x)) l) = [] /\
  filter (fun x => negb (f x)) (filter (fun x => negb (f x)) l)
  = filter (fun x => negb (f x)) l.
Proof.
  apply filter_none. apply Forall_forall. intros x Hx.
  apply filter_In in Hx as [_ Hx]. now apply negb_true_iff.
Qed.

Lemma deleteUTXOs_none ctx txins w :
  Forall (fun r => in_outpoints r (spent txins) = false) (utxos (db w)) ->
  pg_fail (deleteStmt txins) (db w) = false ->
  deleteUTXOs ctx txins w
  = (Ok [], {| db := db w;
               trace := trace w ++ [EvStmt (deleteStmt txins)] |}).
Proof.
  intros Hnone Hpg. rewrite deleteUTXOs_eq. cbv zeta. rewrite Hpg.
  apply filter_none in Hnone as [-> ->]. now rewrite set_utxos_same.
Qed.

(** X5: When no row has the outpoint of an input (in particular when there
    is no input), [deleteUTXOs] returns an empty list, not an error, and
    leaves the database as it was. *)
Theorem deleteUTXOs_nothing_to_delete ctx txins w
    (Hnone : forall r, In r (utxos (db w)) ->
                       ~ In (txid r, index r) (spent txins))
    (Hpg : pg_fail (deleteStmt txins) (db w) = false) :
  exists w', deleteUTXOs ctx txins w = (Ok [], w') /\ db w' = db w.
Proof.
  exists {| db := db w; trace := trace w ++ [EvStmt (deleteStmt txins)] |}.
  split; [|reflexivity].
  apply deleteUTXOs_none; [|exact Hpg].
  apply Forall_forall. intros r Hr.
  destruct (in_outpoints r (spent txins)) eqn:Hhit; [|reflexivity].
  apply in_outpoints_In in Hhit. now apply Hnone in Hr.
Qed.

(** X6: A row is deleted at most once: after a successful [deleteUTXOs], the
    same call again reports nothing and changes nothing. *)
Theorem deleteUTXOs_twice ctx txins w deleted w1
    (Hfirst : deleteUTXOs ctx txins w = (Ok deleted, w1))
    (Hpg : pg_fail (deleteStmt txins) (db w1) = false) :
  exists w2, deleteUTXOs ctx txins w1 = (Ok [], w2) /\ db w2 = db w1.
Proof.
  exists {| db := db w1; trace := trace w1 ++ [EvStmt (deleteStmt txins)] |}.
  split; [|reflexivity].
  apply deleteUTXOs_none; [|exact Hpg].
  apply deleteUTXOs_inv in Hfirst as (_ & _ & Hfirst).
  destruct (Hfirst deleted eq_refl) as (-> & _).
  apply Forall_forall. intros r Hr. apply filter_In in Hr as [_ Hr].
  now apply negb_true_iff.
Qed.

Lemma scanDeleted_bare rows : forall deleted,
  scanDeleted rows = Ok deleted ->
  Forall (fun u => Amount u = 0 /\ ResvExpires u = zeroTime) deleted.
Proof.
  induction rows as [|[[[a b] c] d] rows IH]; intros deleted H;
    cbn [scanDeleted] in H.
  - injection H as <-. constructor.
  - destruct (scan_uint32 d); [|discriminate].
    destruct (ParseHash c); [|discriminate].
    destruct (scanDeleted rows); try discriminate.
    injection H as <-. constructor; [cbn; auto|now apply IH].
Qed.

(** X9: The records [ApplyTx] returns as deleted carry the account, the asset
    and the outpoint only: their amount is always zero, whatever the
    amount of the row was, and their reservation is the zero time,
    whatever the reservation of the row was. *)
Theorem ApplyTx_deleted_bare ctx tx outRecs now w deleted inserted w'
    (Happly : ApplyTx ctx tx outRecs now w = (Ok (deleted, inserted), w')) :
  Forall (fun u => Amount u = 0 /\ ResvExpires u = zeroTime) deleted.
Proof.
  apply ApplyTx_Ok in Happly as (_ & insert & w1 & w2 & _ & _ & Hdel & _).
  rewrite deleteUTXOs_eq in Hdel. cbv zeta in Hdel.
  destruct (pg_fail _ _); [discriminate|].
  injection Hdel as Hdel _. now apply scanDeleted_bare in Hdel.
Qed.

(** ** Reservations, one after another and before a delete *)

(** [SaveReservations], step by step. *)
Lemma SaveReservations_eq ctx (us : list utxodb_UTXO) exp w :
  SaveReservations ctx us exp w =
  let s := UpdateReserved (map (fun u => Hash_String (Hash (Outpoint u))) us)
                          (map (fun u => Index (Outpoint u)) us) exp in
  if pg_fail s (db w) then
    (Err (ErrWrap (ErrForeign "pg") "update utxo reserve expiration"),
     log (EvStmt s) w)
  else
    (Ok tt,
     {| db := set_utxos (db w)
                (map (fun r => if outpoint_among r us
                               then set_reserved_until r (Some exp) else r)
                     (utxos (db w)));
        trace := trace w ++ [EvStmt s] |}).
Proof.
  unfold SaveReservations, wrap, execUpdateReserved, pg_run. cbv zeta.
  destruct (pg_fail _ _); [reflexivity|].
  unfold sql_update_reserved. do 3 f_equal.
  apply map_ext. intros r. now rewrite in_outpoints_among.
Qed.

Lemma outpoint_among_set_reserved r t us :
  outpoint_among (set_reserved_until r t) us = outpoint_among r us.
Proof. reflexivity. Qed.

(** X11: Two reservations in a row: a row named by the second has the second
    expiry, also when the first named it too; a row named only by the first
    keeps the first expiry; the others are as they were. *)
Theorem SaveReservations_then_again ctx ctx' (us1 us2 : list utxodb_UTXO)
    e1 e2 w w1 w2
    (Hfirst : SaveReservations ctx us1 e1 w = (Ok tt, w1))
    (Hsecond : SaveReservations ctx' us2 e2 w1 = (Ok tt, w2)) :
  Forall2 (fun r r' =>
             same_but_reservation r r' /\
             reserved_until r'
             = if outpoint_among r us2 then Some e2
               else if outpoint_among r us1 then Some e1
               else reserved_until r)
          (utxos (db w)) (utxos (db w2)).
Proof.
  rewrite SaveReservations_eq in Hfirst, Hsecond. cbv zeta in *.
  destruct (pg_fail _ (db w)); [discriminate|]. injection Hfirst as <-.
  destruct (pg_fail _ _); [discriminate|]. injection Hsecond as <-.
  cbn [db set_utxos utxos].
  induction (utxos (db w)) as [|r rows IH]; cbn [map]; constructor;
    [|exact IH].
  destruct (outpoint_among r us1) eqn:H1;
    rewrite ?outpoint_among_set_reserved;
    destruct (outpoint_among r us2) eqn:H2;
    unfold same_but_reservation; cbn; auto 10.
Qed.

Lemma filter_map_commute {A} (p : A -> bool) (g : A -> A) l :
  (forall x, p (g x) = p x) ->
  filter p (map g l) = map g (filter p l).
Proof.
  intros Hp. induction l as [|x l IH]; [reflexivity|].
  cbn [map filter]. rewrite Hp, IH. now destruct (p x).
Qed.

(** X12: A reservation is no lock: after [SaveReservations], [deleteUTXOs]
    returns what it would have returned without the reservation, and
    removes the rows with the same keys. *)
Theorem reservation_does_not_protect ctx ctx' (us : list utxodb_UTXO) exp
    txins w w1
    (Hres : SaveReservations ctx us exp w = (Ok tt, w1))
    (Hpg : pg_fail (deleteStmt txins) (db w1)
           = pg_fail (deleteStmt txins) (db w)) :
  fst (deleteUTXOs ctx' txins w1) = fst (deleteUTXOs ctx' txins w) /\
  keys (utxos (db (snd (deleteUTXOs ctx' txins w1))))
  = keys (utxos (db (snd (deleteUTXOs ctx' txins w)))).
Proof.
  rewrite !deleteUTXOs_eq. cbv zeta. rewrite Hpg.
  rewrite SaveReservations_eq in Hres. cbv zeta in Hres.
  destruct (pg_fail _ (db w)) eqn:Hpg1 in Hres; [discriminate|].
  injection Hres as <-. cbn [db set_utxos utxos log].
  set (g := fun r => if outpoint_among r us
                     then set_reserved_until r (Some exp) else r).
  assert (Hkey : forall r, in_outpoints (g r) (spent txins)
                           = in_outpoints r (spent txins))
    by (intros r; unfold g; now destruct (outpoint_among r us)).
  destruct (pg_fail (deleteStmt txins) (db w)); unfold log;
    cbn [fst snd db utxos set_utxos].
  - split; [reflexivity|]. unfold keys. rewrite map_map. apply map_ext.
    intros r. unfold g. now destruct (outpoint_among r us).
  - rewrite !filter_map_commute
      by (intros r; now rewrite ?Hkey).
    split.
    + f_equal. rewrite map_map. apply map_ext. intros r. unfold g.
      now destruct (outpoint_among r us).
    + unfold keys. rewrite map_map. apply map_ext. intros r. unfold g.
      now destruct (outpoint_among r us).
Qed.

(** ** Errors of the applier *)

Lemma initAddrInfoLoop_bad_script hash recs txouts : forall i,
  (i + List.length txouts <= List.length recs)%nat ->
  Exists (fun o => PkScriptAddr (Script o) = None) txouts ->
  initAddrInfoLoop hash i txouts recs
  = Err (ErrWrap (ErrForeign "txscript") "bad pk script").
Proof.
  induction txouts as [|txo txouts IH]; intros i Hlen Hbad;
    [inversion Hbad|].
  cbn [initAddrInfoLoop]. cbn [List.length] in Hlen.
  destruct (PkScriptAddr (Script txo)) eqn:Haddr; [|reflexivity].
  destruct (nth_error recs i) eqn:Hnth.
  - rewrite IH; [reflexivity|lia|].
    inversion Hbad as [? ? Hhd|? ? Htl]; subst; [congruence|exact Htl].
  - apply nth_error_None in Hnth. lia.
Qed.

(** X13: An output whose script has no address fails the whole call, hinted or
    not and wherever it stands: inside a transaction [ApplyTx] returns the
    script error, has sent nothing and has changed nothing. *)
Theorem ApplyTx_bad_script tx outRecs now w
    (Hlen : List.length (Outputs tx) = List.length outRecs)
    (Hbad : Exists (fun o => PkScriptAddr (Script o) = None) (Outputs tx)) :
  ApplyTx {| FromContext := pg_Tx |} tx outRecs now w
  = (Err (ErrWrap (ErrWrap (ErrForeign "txscript") "bad pk script") "insert"),
     w).
Proof.
  rewrite ApplyTx_eq, insertUTXOs_eq.
  rewrite Hlen, Nat.eqb_refl. cbn [negb].
  unfold initAddrInfoFromRecs.
  rewrite initAddrInfoLoop_bad_script; [reflexivity|cbn; lia|exact Hbad].
Qed.

(** ** What a successful call leaves in the table *)

(** The table after a successful [ApplyTx]: the rows not spent, then one
    row per output. *)
Lemma ApplyTx_Ok_table ctx tx outRecs now w deleted inserted w' :
  (forall d t l n, utxos (snd (WriteActivity d t l n)) = utxos d) ->
  Forall (fun t => Hash_String (Hash (Previous t))
                   <> Hash_String (TxHash tx)) (Inputs tx) ->
  ApplyTx ctx tx outRecs now w = (Ok (deleted, inserted), w') ->
  FromContext ctx = pg_Tx /\
  exists insert w1,
    insertUTXOs ctx (TxHash tx) (Outputs tx) outRecs w = (Ok insert, w1) /\
    List.length insert = List.length (Outputs tx) /\
    inserted = map UTXO (filter isLocal insert) /\
    utxos (db w')
    = filter (fun r => negb (in_outpoints r (spent (Inputs tx))))
             (utxos (db w))
      ++ rows_from (TxHash tx) 0 insert.
Proof.
  intros Hact Hself Happly.
  apply ApplyTx_Ok in Happly
    as (Hctx & insert & w1 & w2 & Hins & Hwa & Hdel & Hinserted).
  split; [exact Hctx|]. exists insert, w1. split; [exact Hins|].
  pose proof (insertUTXOs_Ok _ _ _ _ _ _ _ Hins)
    as (_ & ins0 & Hinit & Hlook & Hrows & _).
  split.
  { rewrite Hlook, lookupTier_length.
    now apply initAddrInfoLoop_length in Hinit. }
  split; [exact Hinserted|].
  apply writeActivity_inv in Hwa as (_ & Hdb2 & _).
  apply deleteUTXOs_inv in Hdel as (_ & _ & Hdel).
  destruct (Hdel deleted eq_refl) as (-> & _).
  rewrite Hdb2, Hact, Hrows, filter_app.
  pose proof (rows_from_not_spent (TxHash tx) (Inputs tx) insert 0%nat Hself)
    as Hnew.
  apply filter_none in Hnew as [_ ->]. reflexivity.
Qed.

(** ** What the records and rows of an output hold *)

(** The lookup changes the owner of a record, never what it is a record
    of. *)
Lemma fillFromRow_keeps row u :
  let u' := fillFromRow row u in
  AssetID (UTXO u') = AssetID (UTXO u) /\
  Amount (UTXO u') = Amount (UTXO u) /\
  Outpoint (UTXO u') = Outpoint (UTXO u) /\
  ResvExpires (UTXO u') = ResvExpires (UTXO u).
Proof.
  destruct row as [[[[addr acc] mn] ix] ch]. unfold fillFromRow.
  destruct (_ && _); cbn; auto.
Qed.

Lemma fold_fill_keeps rows : forall u,
  let u' := fold_left (fun u row => fillFromRow row u) rows u in
  AssetID (UTXO u') = AssetID (UTXO u) /\
  Amount (UTXO u') = Amount (UTXO u) /\
  Outpoint (UTXO u') = Outpoint (UTXO u) /\
  ResvExpires (UTXO u') = ResvExpires (UTXO u).
Proof.
  induction rows as [|row rows IH]; intros u; cbn [fold_left]; [auto|].
  cbv zeta. destruct (IH (fillFromRow row u)) as (H1 & H2 & H3 & H4).
  destruct (fillFromRow_keeps row u) as (K1 & K2 & K3 & K4).
  rewrite H1, H2, H3, H4. auto.
Qed.

(** The record of a successful [insertUTXOs] at position [i] is a record
    of output [i]. *)
Lemma insertUTXOs_record ctx hash txouts recs w insert w' i txo :
  insertUTXOs ctx hash txouts recs w = (Ok insert, w') ->
  nth_error txouts i = Some txo ->
  exists u,
    nth_error insert i = Some u /\
    AssetID (UTXO u) = AssetID_String (O_AssetID txo) /\
    Amount (UTXO u) = Int.to_uint64 (Value txo) /\
    Outpoint (UTXO u) = {| Hash := hash; Index := Int.to_uint32 (Z.of_nat i) |} /\
    ResvExpires (UTXO u) = zeroTime.
Proof.
  intros Hins Htxo.
  apply insertUTXOs_Ok in Hins as (_ & ins0 & Hinit & -> & _).
  destruct (initAddrInfoLoop_nth _ _ _ _ _ _ _ Hinit Htxo)
    as (addr & rec & _ & _ & Hu0). cbn [Nat.add] in Hu0.
  unfold lookupTier. rewrite fold_left_map_pointwise.
  eexists. split; [apply map_nth_error; exact Hu0|].
  destruct (fold_fill_keeps (sql_select_addresses (wanted ins0)
                               (addresses (db w)))
              (newUTXO hash i txo addr rec)) as (H1 & H2 & H3 & H4).
  rewrite H1, H2, H3, H4. destruct rec; cbn; auto.
Qed.

Lemma to_int64_to_uint64 v :
  Int.to_int64 (Int.to_uint64 v)
  = (v + 2 ^ 63) mod 2 ^ 64 - 2 ^ 63.
Proof.
  unfold Int.to_int64, Int.to_uint64.
  now rewrite Zplus_mod_idemp_l.
Qed.

(** X14: The amount column of the row of an output: the output's value when
    that is a signed 64-bit number, and the value less [2^64], a negative
    number, when the value is [2^63] or more. *)
Theorem insertUTXOs_amount_column ctx hash txouts recs w insert w' i txo
    (Hins : insertUTXOs ctx hash txouts recs w = (Ok insert, w'))
    (Htxo : nth_error txouts i = Some txo) :
  exists row,
    nth_error (utxos (db w')) (List.length (utxos (db w)) + i) = Some row /\
    asset_id row = AssetID_String (O_AssetID txo) /\
    (Int.is_int64 (Value txo) -> amount row = Value txo) /\
    (2 ^ 63 <= Value txo < 2 ^ 64 ->
     amount row = Value txo - 2 ^ 64 /\ amount row < 0).
Proof.
  destruct (insertUTXOs_record _ _ _ _ _ _ _ _ _ Hins Htxo)
    as (u & Hu & Hasset & Hamount & _).
  apply insertUTXOs_Ok in Hins as (_ & ins0 & _ & _ & -> & _).
  exists (row_of hash i u). split.
  { rewrite nth_error_app2 by lia.
    replace (List.length (utxos (db w)) + i - List.length (utxos (db w)))%nat
      with i by lia.
    clear - Hu. change i with (0 + i)%nat at 2.
    generalize 0%nat as j. revert i Hu.
    induction insert as [|u0 insert IH]; intros i Hu j;
      [destruct i; discriminate|].
    destruct i as [|i]; cbn [nth_error rows_from] in *.
    - injection Hu as ->. now rewrite Nat.add_0_r.
    - rewrite (IH _ Hu (S j)). f_equal. f_equal. lia. }
  cbn [row_of asset_id amount]. split; [exact Hasset|].
  rewrite Hamount, to_int64_to_uint64. unfold Int.is_int64. split.
  - intros Hv. rewrite Z.mod_small by lia. lia.
  - intros Hv.
    replace (Value txo + 2 ^ 63) with (Value txo - 2 ^ 63 + 1 * 2 ^ 64) by lia.
    rewrite Z.mod_add, Z.mod_small by lia. lia.
Qed.

(** X15: Every record [ApplyTx] returns as inserted is a record of one of the
    transaction's outputs: it has the transaction's hash, the output's
    position, asset and amount, and no reservation; and there are no more
    of them than outputs. *)
Theorem ApplyTx_inserted_shape ctx tx outRecs now w deleted inserted w'
    (Happly : ApplyTx ctx tx outRecs now w = (Ok (deleted, inserted), w')) :
  (List.length inserted <= List.length (Outputs tx))%nat /\
  Forall (fun v =>
            ResvExpires v = zeroTime /\
            exists i txo,
              nth_error (Outputs tx) i = Some txo /\
              Outpoint v = {| Hash := TxHash tx;
                              Index := Int.to_uint32 (Z.of_nat i) |} /\
              AssetID v = AssetID_String (O_AssetID txo) /\
              Amount v = Int.to_uint64 (Value txo))
         inserted.
Proof.
  apply ApplyTx_Ok in Happly as (_ & insert & w1 & w2 & Hins & _ & _ & ->).
  pose proof (insertUTXOs_Ok _ _ _ _ _ _ _ Hins)
    as (_ & ins0 & Hinit & Hlook & _).
  assert (Hlen : List.length insert = List.length (Outputs tx)).
  { rewrite Hlook, lookupTier_length.
    now apply initAddrInfoLoop_length in Hinit. }
  split.
  { rewrite length_map, <- Hlen. apply filter_length_le. }
  apply Forall_forall. intros v Hv.
  apply in_map_iff in Hv as (u & <- & Hu). apply filter_In in Hu as [Hu _].
  apply In_nth_error in Hu as (i & Hi).
  assert (Hlt : (i < List.length (Outputs tx))%nat).
  { rewrite <- Hlen. apply nth_error_Some. congruence. }
  destruct (nth_error (Outputs tx) i) as [txo|] eqn:Htxo;
    [|apply nth_error_None in Htxo; lia].
  destruct (insertUTXOs_record _ _ _ _ _ _ _ _ _ Hins Htxo)
    as (u' & Hu' & Hasset & Hamount & Hout & Hresv).
  rewrite Hi in Hu'. injection Hu' as <-.
  split; [exact Hresv|]. exists i, txo. auto.
Qed.

(** ** The address table is only read *)

(** X16: [ApplyTx] never writes the [addresses] table, whatever it returns:
    a registered address it has resolved stays registered, as long as the
    activity writer leaves the table alone. *)
Theorem ApplyTx_keeps_addresses ctx tx outRecs now w r w'
    (Haddr : forall d t l n,
        addresses (snd (WriteActivity d t l n)) = addresses d)
    (Happly : ApplyTx ctx tx outRecs now w = (r, w')) :
  addresses (db w') = addresses (db w).
Proof.
  destruct ctx as [[|]].
  { cbv in Happly. now injection Happly as _ <-. }
  rewrite ApplyTx_eq in Happly.
  destruct (insertUTXOs _ _ _ _ w) as [r1 w1] eqn:Hins.
  apply insertUTXOs_db in Hins as (Ha1 & _).
  destruct r1 as [insert|e|]; try (injection Happly as _ <-; exact Ha1).
  destruct (writeActivity _ tx _ now w1) as [r2 w2] eqn:Hwa.
  apply writeActivity_inv in Hwa as (_ & Hdb2 & _).
  assert (Ha2 : addresses (db w2) = addresses (db w))
    by (rewrite Hdb2, Haddr; exact Ha1).
  destruct r2 as [u|e|]; try (injection Happly as _ <-; exact Ha2).
  destruct (deleteUTXOs _ _ w2) as [r3 w3] eqn:Hdel.
  apply deleteUTXOs_db in Hdel as (Ha3 & _).
  destruct r3; injection Happly as _ <-; congruence.
Qed.

(** ** When the applier succeeds *)

Lemma initAddrInfoLoop_Ok hash recs txouts : forall i,
  (i + List.length txouts <= List.length recs)%nat ->
  Forall (fun o => PkScriptAddr (Script o) <> None) txouts ->
  exists us, initAddrInfoLoop hash i txouts recs = Ok us.
Proof.
  induction txouts as [|txo txouts IH]; intros i Hlen Hgood;
    cbn [initAddrInfoLoop]; [eauto|].
  cbn [List.length] in Hlen. inversion Hgood as [|? ? Hhd Htl]; subst.
  destruct (PkScriptAddr (Script txo)); [|congruence].
  destruct (nth_error recs i) eqn:Hnth;
    [|apply nth_error_None in Hnth; lia].
  destruct (IH (S i) ltac:(lia) Htl) as (us & ->). eauto.
Qed.

Lemma keys_rows_from hash insert : forall j k,
  In k (keys (rows_from hash j insert)) ->
  exists m, (j <= m < j + List.length insert)%nat /\
            k = (Hash_String hash, Int.to_uint32 (Z.of_nat m)).
Proof.
  induction insert as [|u insert IH]; intros j k Hk; [destruct Hk|].
  cbn [rows_from keys map List.length] in *. destruct Hk as [<-|Hk].
  - exists j. split; [lia|reflexivity].
  - apply IH in Hk as (m & Hm & ->). exists m. split; [lia|reflexivity].
Qed.

Lemma keys_rows_from_NoDup hash insert : forall j,
  Z.of_nat (j + List.length insert) <= 2 ^ 32 ->
  NoDup (keys (rows_from hash j insert)).
Proof.
  induction insert as [|u insert IH]; intros j Hsize; [constructor|].
  cbn [rows_from keys map List.length] in *. constructor.
  - intros Hin. apply keys_rows_from in Hin as (m & Hm & Heq).
    cbn [row_of txid index] in Heq. injection Heq as Heq.
    rewrite !to_uint32_id in Heq by (unfold Int.is_uint32; lia). lia.
  - apply IH. lia.
Qed.

Lemma sql_insert_Some new : forall rows,
  NoDup (keys new) ->
  (forall n, In n new -> ~ In (txid n, index n) (keys rows)) ->
  sql_insert rows new = Some (rows ++ new).
Proof.
  induction new as [|n new IH]; intros rows Hnd Hfresh; cbn [sql_insert].
  - now rewrite app_nil_r.
  - cbn [keys map] in Hnd. inversion Hnd as [|? ? Hn Hnd']; subst.
    destruct (in_outpoints n _) eqn:Hin.
    + apply in_outpoints_In in Hin. exfalso. apply (Hfresh n); [now left|].
      exact Hin.
    + rewrite IH; [now rewrite <- app_assoc| exact Hnd'|].
      intros n' Hn' Hk. unfold keys in Hk. rewrite map_app in Hk.
      apply in_app_or in Hk as [Hk|[Hk|[]]].
      * apply (Hfresh n'); [now right|exact Hk].
      * apply Hn. cbn [map] in Hk. rewrite Hk. unfold keys.
        apply in_map_iff. eauto.
Qed.

Lemma scanDeleted_Ok (rows : list utxo_row) :
  Forall reportable rows ->
  exists us,
    scanDeleted (map (fun r => (account_id r, asset_id r, txid r, index r)) rows)
    = Ok us.
Proof.
  induction 1 as [|r rows [Hix Hh] _ (us & IH)]; cbn [map scanDeleted];
    [eauto|].
  unfold scan_uint32.
  assert ((0 <=? index r) && (index r <? 2 ^ 32) = true) as ->.
  { apply andb_true_iff. split; [apply Z.leb_le|apply Z.ltb_lt]; lia. }
  destruct (ParseHash (txid r)); [|congruence]. rewrite IH. eauto.
Qed.

(** X17: [ApplyTx] succeeds when called inside a transaction with as many hints
    as outputs, every script has an address, the table holds no row of
    this transaction yet, the rows the inputs spend can be reported, and
    neither the storage layer nor the activity writer fails. *)
Theorem ApplyTx_succeeds tx outRecs now w
    (Hlen : List.length (Outputs tx) = List.length outRecs)
    (Hsize : Z.of_nat (List.length (Outputs tx)) <= 2 ^ 32)
    (Hscripts : Forall (fun o => PkScriptAddr (Script o) <> None) (Outputs tx))
    (Hpg : forall s d, pg_fail s d = false)
    (Hwa : forall d l, fst (WriteActivity d tx l now) = None)
    (Hact : forall d t l n, utxos (snd (WriteActivity d t l n)) = utxos d)
    (Hself : Forall (fun t => Hash_String (Hash (Previous t))
                              <> Hash_String (TxHash tx)) (Inputs tx))
    (Hfresh : forall r, In r (utxos (db w)) ->
                        txid r <> Hash_String (TxHash tx))
    (Hrep : forall r, In r (utxos (db w)) ->
                      In (txid r, index r) (spent (Inputs tx)) ->
                      reportable r) :
  exists deleted inserted w',
    ApplyTx {| FromContext := pg_Tx |} tx outRecs now w
    = (Ok (deleted, inserted), w').
Proof.
  rewrite ApplyTx_eq, insertUTXOs_eq.
  rewrite Hlen, Nat.eqb_refl. cbn [negb].
  destruct (initAddrInfoLoop_Ok (TxHash tx) outRecs (Outputs tx) 0%nat
              ltac:(cbn; lia) Hscripts) as (ins0 & Hinit).
  unfold initAddrInfoFromRecs. rewrite Hinit. cbv zeta. rewrite !Hpg.
  set (insert := lookupTier (addresses (db w)) ins0).
  assert (Hleni : List.length insert = List.length (Outputs tx)).
  { unfold insert. rewrite lookupTier_length.
    now apply initAddrInfoLoop_length in Hinit. }
  rewrite sql_insert_Some.
  2:{ apply keys_rows_from_NoDup. cbn [Nat.add]. lia. }
  2:{ intros n Hn Hk. apply in_map_iff in Hk as (r & Hr & Hin).
      assert (Hk : In (txid n, index n) (keys (rows_from (TxHash tx) 0 insert)))
        by (unfold keys; apply in_map_iff; eauto).
      apply keys_rows_from in Hk as (m & _ & Hk).
      apply (Hfresh r Hin). congruence. }
  unfold writeActivity. cbn [db trace].
  destruct (WriteActivity _ tx (filter isLocal insert) now) as [err d] eqn:Hw.
  pose proof (Hwa (set_utxos (db w)
                     (utxos (db w) ++ rows_from (TxHash tx) 0 insert))
                  (filter isLocal insert)) as Hnone.
  pose proof (Hact (set_utxos (db w)
                     (utxos (db w) ++ rows_from (TxHash tx) 0 insert))
                   tx (filter isLocal insert) now) as Hsame.
  rewrite Hw in Hnone, Hsame. cbn [fst snd] in Hnone, Hsame. subst err.
  rewrite deleteUTXOs_eq. cbv zeta. rewrite Hpg. cbn [db].
  rewrite Hsame. cbn [set_utxos utxos]. rewrite filter_app.
  pose proof (rows_from_not_spent (TxHash tx) (Inputs tx) insert 0%nat Hself)
    as Hnew.
  apply filter_none in Hnew as [-> _]. rewrite app_nil_r.
  destruct (scanDeleted_Ok
              (filter (fun r => in_outpoints r (spent (Inputs tx)))
                      (utxos (db w)))) as (us & ->).
  { apply Forall_forall. intros r Hr. apply filter_In in Hr as [Hr Hhit].
    apply Hrep; [exact Hr|]. now apply in_outpoints_In. }
  eauto.
Qed.

End MoreFacts.

(** ** Loading *)

Section LoadFacts.
Context {P : Primitives} {C : Collaborators} {L : Scanner}.

Lemma sql_select_utxos_owned accountID assetID rows :
  sql_select_utxos accountID assetID rows
  = map (fun r => (amount r, reserved_until r, txid r, index r))
        (filter (owned_by accountID assetID) rows).
Proof. reflexivity. Qed.

Lemma scan_uint64_Some z a : scan_uint64 z = Some a -> a = z.
Proof. unfold scan_uint64. destruct (_ && _); congruence. Qed.

Lemma scanLoaded_shows accountID assetID (rows : list utxo_row) :
  forall us,
    scanLoaded accountID assetID
      (map (fun r => (amount r, reserved_until r, txid r, index r)) rows)
    = Ok us ->
    Forall2 (shows accountID assetID) rows us.
Proof.
  induction rows as [|r rows IH]; intros us H; cbn [map scanLoaded] in H.
  - injection H as <-. constructor.
  - destruct (scan_uint64 (amount r)) as [a|] eqn:Ha; [|discriminate].
    destruct (scan_time (reserved_until r)) as [t|] eqn:Ht; [|discriminate].
    destruct (scan_uint32 (index r)) as [i|] eqn:Hi; [|discriminate].
    destruct (ParseHash (txid r)) as [h|] eqn:Hh; [|discriminate].
    destruct (scanLoaded _ _ _) as [us'| |]; try discriminate.
    injection H as <-. constructor; [|now apply IH].
    apply scan_uint64_Some in Ha. apply scan_uint32_Some in Hi.
    unfold shows. cbn. subst. auto 10.
Qed.

Lemma LoadUTXOs_shows_aux ctx accountID assetID w us w' :
  LoadUTXOs ctx accountID assetID w = (Ok us, w') ->
  Forall2 (shows accountID assetID)
          (filter (owned_by accountID assetID) (utxos (db w))) us.
Proof.
  unfold LoadUTXOs.
  destruct (load_fail accountID assetID (db w)); [discriminate|].
  intros H. injection H as Hscan _. now apply scanLoaded_shows.
Qed.

(** X19: When [LoadUTXOs] succeeds it has changed nothing, and its records
    show, one for one and in the order of the table, the rows of the
    account and asset asked for: their amount, reservation, hash and
    index, under the account and asset of the call. *)
Theorem LoadUTXOs_shows ctx accountID assetID w us w'
    (Hload : LoadUTXOs ctx accountID assetID w = (Ok us, w')) :
  db w' = db w /\
  Forall2 (shows accountID assetID)
          (filter (owned_by accountID assetID) (utxos (db w))) us.
Proof.
  unfold LoadUTXOs in Hload.
  destruct (load_fail accountID assetID (db w)); [discriminate|].
  injection Hload as Hscan <-. split; [reflexivity|].
  now apply scanLoaded_shows.
Qed.

Lemma scanLoaded_Ok accountID assetID (rows : list utxo_row) :
  Forall readable rows ->
  exists us,
    scanLoaded accountID assetID
      (map (fun r => (amount r, reserved_until r, txid r, index r)) rows)
    = Ok us.
Proof.
  induction 1 as [|r rows (Ha & Hi & Ht & Hh) _ (us & IH)];
    cbn [map scanLoaded]; [eauto|].
  unfold scan_uint64, scan_uint32.
  assert ((0 <=? amount r) && (amount r <? 2 ^ 64) = true) as ->.
  { apply andb_true_iff. split; [apply Z.leb_le|apply Z.ltb_lt]; lia. }
  assert ((0 <=? index r) && (index r <? 2 ^ 32) = true) as ->.
  { apply andb_true_iff. split; [apply Z.leb_le|apply Z.ltb_lt]; lia. }
  destruct (scan_time (reserved_until r)); [|congruence].
  destruct (ParseHash (txid r)); [|congruence]. rewrite IH. eauto.
Qed.

Lemma scanLoaded_Err accountID assetID (r : utxo_row) rows :
  In r rows -> ~ readable r ->
  exists e,
    scanLoaded accountID assetID
      (map (fun r => (amount r, reserved_until r, txid r, index r)) rows)
    = Err e.
Proof.
  intros Hin Hbad. induction rows as [|r0 rows IH]; [destruct Hin|].
  cbn [map scanLoaded].
  destruct (scan_uint64 (amount r0)) as [a|] eqn:Ha; [|eauto].
  destruct (scan_time (reserved_until r0)) as [t|] eqn:Ht; [|eauto].
  destruct (scan_uint32 (index r0)) as [i|] eqn:Hi; [|eauto].
  destruct (ParseHash (txid r0)) as [h|] eqn:Hh; [|eauto].
  destruct Hin as [->|Hin].
  - exfalso. apply Hbad. unfold readable.
    unfold scan_uint64 in Ha. unfold scan_uint32 in Hi.
    destruct (_ && _) eqn:Ea in Ha; [|discriminate].
    destruct (_ && _) eqn:Ei in Hi; [|discriminate].
    apply andb_true_iff in Ea as [Ea1 Ea2]. apply andb_true_iff in Ei as [Ei1 Ei2].
    apply Z.leb_le in Ea1, Ei1. apply Z.ltb_lt in Ea2, Ei2.
    repeat split; try lia; congruence.
  - destruct (IH Hin) as (e & ->). eauto.
Qed.

(** X20: [LoadUTXOs] succeeds exactly on the accounts all of whose rows can be
    read: rows of other accounts or assets, readable or not, do not
    matter, and one unreadable row of the account fails the whole load. *)
Theorem LoadUTXOs_all_or_nothing ctx accountID assetID w
    (Hpg : load_fail accountID assetID (db w) = false) :
  ((forall r, In r (utxos (db w)) -> owned_by accountID assetID r = true ->
              readable r) ->
   exists us, fst (LoadUTXOs ctx accountID assetID w) = Ok us) /\
  (forall r, In r (utxos (db w)) -> owned_by accountID assetID r = true ->
             ~ readable r ->
   exists e, fst (LoadUTXOs ctx accountID assetID w) = Err e).
Proof.
  unfold LoadUTXOs. rewrite Hpg, sql_select_utxos_owned. cbn [fst]. split.
  - intros Hall.
    destruct (scanLoaded_Ok accountID assetID
                (filter (owned_by accountID assetID) (utxos (db w))))
      as (us & ->); [|eauto].
    apply Forall_forall. intros r Hr. apply filter_In in Hr as [Hr Ho]. auto.
  - intros r Hr Ho Hbad.
    destruct (scanLoaded_Err accountID assetID r
                (filter (owned_by accountID assetID) (utxos (db w))))
      as (e & ->); [now apply filter_In|exact Hbad|eauto].
Qed.

(** X21: Load after reserve: the record loaded for a row that
    [SaveReservations] named carries the scanned expiry of that call; the
    record of any other row carries the reservation the row had. *)
Theorem LoadUTXOs_after_reserve ctx ctx' (us : list utxodb_UTXO) exp
    accountID assetID w w1 loaded w2
    (Hres : SaveReservations ctx us exp w = (Ok tt, w1))
    (Hload : LoadUTXOs ctx' accountID assetID w1 = (Ok loaded, w2)) :
  Forall2 (fun r u =>
             ParseHash (txid r) = Some (Hash (Outpoint u)) /\
             Index (Outpoint u) = index r /\
             scan_time (if outpoint_among r us then Some exp
                        else reserved_until r)
             = Some (ResvExpires u))
          (filter (owned_by accountID assetID) (utxos (db w))) loaded.
Proof.
  apply LoadUTXOs_shows_aux in Hload.
  rewrite SaveReservations_eq in Hres. cbv zeta in Hres.
  destruct (pg_fail _ _); [discriminate|]. injection Hres as <-.
  cbn [db set_utxos utxos] in Hload.
  rewrite filter_map_commute in Hload
    by (intros r; now destruct (outpoint_among r us)).
  remember (filter (owned_by accountID assetID) (utxos (db w))) as rows.
  clear Heqrows. revert loaded Hload.
  induction rows as [|r rows IH]; intros loaded Hload; cbn [map] in Hload;
    inversion Hload as [|? u ? loaded' Hru Hrest]; subst; constructor;
    [|now apply IH].
  destruct Hru as (_ & _ & _ & Ht & Hh & Hi).
  destruct (outpoint_among r us); cbn in *; auto.
Qed.

Lemma rows_from_In hash insert : forall i j u,
  nth_error insert i = Some u ->
  In (row_of hash (j + i) u) (rows_from hash j insert).
Proof.
  induction insert as [|u0 insert IH]; intros i j u Hu;
    [destruct i; discriminate|].
  destruct i as [|i]; cbn [nth_error rows_from] in *.
  - injection Hu as ->. rewrite Nat.add_0_r. now left.
  - right. replace (j + S i)%nat with (S j + i)%nat by lia. now apply IH.
Qed.

(** X23: An output whose value is [2^63] or more is stored with a negative
    amount, and from then on the account and asset it was resolved to
    cannot be loaded: [LoadUTXOs] fails on the row. *)
Theorem large_amount_blocks_load ctx ctx' tx outRecs now w deleted inserted
    w' i txo
    (Hact : forall d t l n, utxos (snd (WriteActivity d t l n)) = utxos d)
    (Hself : Forall (fun t => Hash_String (Hash (Previous t))
                              <> Hash_String (TxHash tx)) (Inputs tx))
    (Happly : ApplyTx ctx tx outRecs now w = (Ok (deleted, inserted), w'))
    (Htxo : nth_error (Outputs tx) i = Some txo)
    (Hbig : 2 ^ 63 <= Value txo < 2 ^ 64) :
  exists row,
    In row (utxos (db w')) /\
    txid row = Hash_String (TxHash tx) /\
    index row = Int.to_uint32 (Z.of_nat i) /\
    asset_id row = AssetID_String (O_AssetID txo) /\
    amount row = Value txo - 2 ^ 64 /\
    (load_fail (account_id row) (asset_id row) (db w') = false ->
     exists e,
       fst (LoadUTXOs ctx' (account_id row) (asset_id row) w') = Err e).
Proof.
  destruct (ApplyTx_Ok_table _ _ _ _ _ _ _ _ Hact Hself Happly)
    as (_ & insert & w1 & Hins & _ & _ & Htable).
  destruct (insertUTXOs_record _ _ _ _ _ _ _ _ _ Hins Htxo)
    as (u & Hu & Hasset & Hamount & _).
  assert (Hamt : amount (row_of (TxHash tx) i u) = Value txo - 2 ^ 64).
  { cbn [row_of amount]. rewrite Hamount, to_int64_to_uint64.
    replace (Value txo + 2 ^ 63) with (Value txo - 2 ^ 63 + 1 * 2 ^ 64) by lia.
    rewrite Z.mod_add, Z.mod_small by lia. lia. }
  assert (Hin : In (row_of (TxHash tx) i u) (utxos (db w'))).
  { rewrite Htable. apply in_or_app. right.
    apply (rows_from_In (TxHash tx) insert i 0%nat u Hu). }
  exists (row_of (TxHash tx) i u).
  split; [exact Hin|]. split; [reflexivity|]. split; [reflexivity|].
  split; [exact Hasset|]. split; [exact Hamt|].
  intros Hpg. unfold LoadUTXOs. rewrite Hpg, sql_select_utxos_owned. cbn [fst].
  apply (scanLoaded_Err _ _ (row_of (TxHash tx) i u)).
  - apply filter_In. split; [exact Hin|]. unfold owned_by.
    now rewrite !String.eqb_refl.
  - intros (Ha & _). rewrite Hamt in Ha. lia.
Qed.

End LoadFacts.

(** ** Reserving what was just inserted *)

Section ReserveFresh.
Context {P : Primitives} {C : Collaborators}.

Lemma insertUTXOs_outpoint ctx hash txouts recs w insert w' j u :
  insertUTXOs ctx hash txouts recs w = (Ok insert, w') ->
  nth_error insert j = Some u ->
  (j < List.length txouts)%nat /\
  Outpoint (UTXO u) = {| Hash := hash; Index := Int.to_uint32 (Z.of_nat j) |}.
Proof.
  intros Hins Hu.
  pose proof (insertUTXOs_Ok _ _ _ _ _ _ _ Hins)
    as (_ & ins0 & Hinit & Hlook & _).
  assert (Hlen : List.length insert = List.length txouts).
  { rewrite Hlook, lookupTier_length.
    now apply initAddrInfoLoop_length in Hinit. }
  assert (Hj : (j < List.length txouts)%nat).
  { rewrite <- Hlen. apply nth_error_Some. congruence. }
  split; [exact Hj|].
  destruct (nth_error txouts j) as [txo|] eqn:Htxo;
    [|apply nth_error_None in Htxo; lia].
  destruct (insertUTXOs_record _ _ _ _ _ _ _ _ _ Hins Htxo)
    as (u' & Hu' & _ & _ & Hout & _).
  congruence.
Qed.

(** X18: The records [ApplyTx] returns as inserted can be handed to
    [SaveReservations] as they are: the rows of the local outputs then
    carry the expiry, and the rows of the external outputs of the same
    transaction still carry no reservation. *)
Theorem reserve_inserted ctx ctx' tx outRecs now w deleted inserted w' exp w2
    (Hact : forall d t l n, utxos (snd (WriteActivity d t l n)) = utxos d)
    (Hself : Forall (fun t => Hash_String (Hash (Previous t))
                              <> Hash_String (TxHash tx)) (Inputs tx))
    (Hsize : Z.of_nat (List.length (Outputs tx)) <= 2 ^ 32)
    (Happly : ApplyTx ctx tx outRecs now w = (Ok (deleted, inserted), w'))
    (Hres : SaveReservations ctx' inserted exp w' = (Ok tt, w2)) :
  exists insert w1,
    insertUTXOs ctx (TxHash tx) (Outputs tx) outRecs w = (Ok insert, w1) /\
    forall i u, nth_error insert i = Some u ->
      exists row,
        In row (utxos (db w2)) /\
        txid row = Hash_String (TxHash tx) /\ index row = Z.of_nat i /\
        reserved_until row
        = if negb (String.eqb (ManagerNodeID u) "") then Some exp else None.
Proof.
  destruct (ApplyTx_Ok_table _ _ _ _ _ _ _ _ Hact Hself Happly)
    as (_ & insert & w1 & Hins & Hlen & Hinserted & Htable).
  exists insert, w1. split; [exact Hins|]. intros i u Hu.
  destruct (insertUTXOs_outpoint _ _ _ _ _ _ _ _ _ Hins Hu) as (Hi & Hout).
  rewrite SaveReservations_eq in Hres. cbv zeta in Hres.
  destruct (pg_fail _ _); [discriminate|]. injection Hres as <-.
  cbn [db set_utxos utxos].
  set (r0 := row_of (TxHash tx) i u).
  assert (Hin : In r0 (utxos (db w'))).
  { rewrite Htable. apply in_or_app. right.
    apply (rows_from_In (TxHash tx) insert i 0%nat u Hu). }
  assert (Hamong : outpoint_among r0 inserted
                   = negb (String.eqb (ManagerNodeID u) "")).
  { fold (isLocal u). destruct (isLocal u) eqn:Hloc.
    - apply existsb_exists. exists (UTXO u). split.
      + rewrite Hinserted. apply in_map. apply filter_In. split; [|exact Hloc].
        eapply nth_error_In; exact Hu.
      + rewrite Hout. cbn. now rewrite String.eqb_refl, Z.eqb_refl.
    - destruct (outpoint_among r0 inserted) eqn:Ham; [|reflexivity].
      exfalso. apply existsb_exists in Ham as (v & Hv & Hmatch).
      rewrite Hinserted in Hv. apply in_map_iff in Hv as (u' & <- & Hu').
      apply filter_In in Hu' as [Hu' Hloc'].
      apply In_nth_error in Hu' as (j & Hj).
      destruct (insertUTXOs_outpoint _ _ _ _ _ _ _ _ _ Hins Hj) as (Hjlt & Hout').
      rewrite Hout' in Hmatch. cbn in Hmatch.
      apply andb_true_iff in Hmatch as [_ Hix]. apply Z.eqb_eq in Hix.
      rewrite !to_uint32_id in Hix by (unfold Int.is_uint32; lia).
      assert (i = j) by lia. subst j. congruence. }
  exists (if outpoint_among r0 inserted
          then set_reserved_until r0 (Some exp) else r0).
  split.
  { apply in_map_iff. exists r0. split; [reflexivity|exact Hin]. }
  rewrite Hamong. unfold r0.
  destruct (negb _); cbn; (split; [reflexivity|]);
    (split; [apply to_uint32_id; unfold Int.is_uint32; lia|reflexivity]).
Qed.

End ReserveFresh.

(** ** Counting rows, and inputs as a set *)

Section Counting.
Context {P : Primitives} {C : Collaborators}.

Lemma filter_partition_length {A} (f : A -> bool) l :
  (List.length (filter f l) + List.length (filter (fun x => negb (f x)) l)
   = List.length l)%nat.
Proof.
  induction l as [|x l IH]; [reflexivity|].
  cbn [filter]. destruct (f x); cbn [negb List.length]; lia.
Qed.

(** X10: Row count of a successful [ApplyTx]: the table gains one row per
    output and loses one row per returned deleted record. *)
Theorem ApplyTx_row_count ctx tx outRecs now w deleted inserted w'
    (Hact : forall d t l n, utxos (snd (WriteActivity d t l n)) = utxos d)
    (Hself : Forall (fun t => Hash_String (Hash (Previous t))
                              <> Hash_String (TxHash tx)) (Inputs tx))
    (Happly : ApplyTx ctx tx outRecs now w = (Ok (deleted, inserted), w')) :
  (List.length (utxos (db w')) + List.length deleted
   = List.length (utxos (db w)) + List.length (Outputs tx))%nat.
Proof.
  destruct (ApplyTx_Ok_table _ _ _ _ _ _ _ _ Hact Hself Happly)
    as (_ & insert & w1 & Hins & Hlen & _ & Htable).
  apply ApplyTx_Ok in Happly as (_ & insert' & w1' & w2 & Hins' & Hwa & Hdel & _).
  apply insertUTXOs_Ok in Hins' as (_ & _ & _ & _ & Hrows & _).
  apply writeActivity_inv in Hwa as (_ & Hdb2 & _).
  apply deleteUTXOs_inv in Hdel as (_ & _ & Hdel).
  destruct (Hdel deleted eq_refl) as (_ & Hrep & _).
  apply Forall2_length in Hrep.
  rewrite Hdb2, Hact, Hrows, filter_app in Hrep.
  pose proof (rows_from_not_spent (TxHash tx) (Inputs tx) insert' 0%nat Hself)
    as Hnew.
  apply filter_none in Hnew as [Hnew _]. rewrite Hnew, app_nil_r in Hrep.
  rewrite Htable, length_app, rows_from_length, Hlen, <- Hrep.
  pose proof (filter_partition_length
                (fun r => in_outpoints r (spent (Inputs tx))) (utxos (db w))).
  lia.
Qed.

Lemma in_outpoints_ext (r : utxo_row) ops ops' :
  (forall o, In o ops <-> In o ops') ->
  in_outpoints r ops = in_outpoints r ops'.
Proof.
  intros Hsame.
  destruct (in_outpoints r ops) eqn:H1, (in_outpoints r ops') eqn:H2;
    try reflexivity.
  - apply in_outpoints_In, Hsame, in_outpoints_In in H1. congruence.
  - apply in_outpoints_In, Hsame, in_outpoints_In in H2. congruence.
Qed.

(** X8: [deleteUTXOs] takes its inputs as a set: two lists of inputs that
    name the same outpoints, in whatever order and however often, give the
    same result and the same table. *)
Theorem deleteUTXOs_inputs_as_set ctx txins txins' w
    (Hsame : forall o, In o (spent txins) <-> In o (spent txins'))
    (Hpg : pg_fail (deleteStmt txins) (db w)
           = pg_fail (deleteStmt txins') (db w)) :
  fst (deleteUTXOs ctx txins w) = fst (deleteUTXOs ctx txins' w) /\
  db (snd (deleteUTXOs ctx txins w)) = db (snd (deleteUTXOs ctx txins' w)).
Proof.
  rewrite !deleteUTXOs_eq. cbv zeta. rewrite Hpg. clear Hpg.
  destruct (pg_fail (deleteStmt txins') (db w)); [split; reflexivity|].
  cbn [fst snd db].
  rewrite (filter_ext (fun r => in_outpoints r (spent txins))
                      (fun r => in_outpoints r (spent txins')))
    by (intros r; now apply in_outpoints_ext).
  rewrite (filter_ext (fun r => negb (in_outpoints r (spent txins)))
                      (fun r => negb (in_outpoints r (spent txins'))))
    by (intros r; f_equal; now apply in_outpoints_ext).
  split; reflexivity.
Qed.

End Counting.

(** ** The applier, output by output and step by step *)

Section Applier.
Context {P : Primitives} {C : Collaborators}.

Lemma rows_from_nth_error hash insert : forall i j u,
  nth_error insert i = Some u ->
  nth_error (rows_from hash j insert) i = Some (row_of hash (j + i) u).
Proof.
  induction insert as [|u0 insert IH]; intros i j u Hu;
    [destruct i; discriminate|].
  destruct i as [|i]; cbn [nth_error rows_from] in *.
  - injection Hu as ->. now rewrite Nat.add_0_r.
  - rewrite (IH _ (S j) _ Hu). do 2 f_equal. lia.
Qed.

(** C1: when [ApplyTx] succeeds there is one resolved record per output
    of the transaction, in order, each with the transaction's hash, the
    output's position, asset and amount; a row is inserted for every one
    of them, local or external (and is still there at the end when no
    input refers to the transaction itself and the activity writer leaves
    [utxos] alone); [inserted] is exactly the records whose manager-node
    ID is not empty, in order, so that no external record is among them;
    and that same list is what [appdb.WriteActivity] was called with,
    once. *)
Theorem ApplyTx_inserted_local ctx tx outRecs now w deleted inserted w'
    (Happly : ApplyTx ctx tx outRecs now w = (Ok (deleted, inserted), w')) :
  exists ins0 insert w1,
    initAddrInfoFromRecs (TxHash tx) (Outputs tx) outRecs = Ok ins0 /\
    insert = lookupTier (addresses (db w)) ins0 /\
    insertUTXOs ctx (TxHash tx) (Outputs tx) outRecs w = (Ok insert, w1) /\
    List.length insert = List.length (Outputs tx) /\
    (forall i txo, nth_error (Outputs tx) i = Some txo ->
       exists u row,
         nth_error insert i = Some u /\
         Outpoint (UTXO u)
         = {| Hash := TxHash tx; Index := Int.to_uint32 (Z.of_nat i) |} /\
         AssetID (UTXO u) = AssetID_String (O_AssetID txo) /\
         Amount (UTXO u) = Int.to_uint64 (Value txo) /\
         nth_error (utxos (db w1)) (List.length (utxos (db w)) + i)
         = Some row /\
         txid row = Hash_String (TxHash tx) /\
         index row = Int.to_uint32 (Z.of_nat i) /\
         account_id row = AccountID (UTXO u) /\
         manager_node_id row = ManagerNodeID u /\
         ((forall d t l n, utxos (snd (WriteActivity d t l n)) = utxos d) ->
          Forall (fun t => Hash_String (Hash (Previous t))
                           <> Hash_String (TxHash tx)) (Inputs tx) ->
          In row (utxos (db w')))) /\
    utxos (db w1) = utxos (db w) ++ rows_from (TxHash tx) 0 insert /\
    inserted
    = map UTXO
        (filter (fun u => negb (String.eqb (ManagerNodeID u) "")) insert) /\
    (forall v, In v inserted <->
               exists u, In u insert /\ ManagerNodeID u <> ""%string /\
                         UTXO u = v) /\
    (Z.of_nat (List.length (Outputs tx)) <= 2 ^ 32 ->
     forall u, In u insert -> ManagerNodeID u = ""%string ->
               ~ In (UTXO u) inserted) /\
    trace w'
    = trace w ++
      [EvStmt (SelectAddresses (wanted ins0));
       EvStmt (insertStmt (TxHash tx) insert);
       EvWriteActivity tx
         (filter (fun u => negb (String.eqb (ManagerNodeID u) "")) insert) now;
       EvStmt (deleteStmt (Inputs tx))].
Proof.
  pose proof Happly as Hfull.
  apply ApplyTx_Ok in Happly
    as (_ & insert & w1 & w2 & Hins & Hact & Hdel & Hinserted).
  pose proof (insertUTXOs_Ok _ _ _ _ _ _ _ Hins)
    as (_ & ins0 & Hinit & Hlook & Hrows & _ & _ & Htr1).
  apply writeActivity_inv in Hact as (Htr2 & _ & _).
  apply deleteUTXOs_inv in Hdel as (Htr3 & _ & _).
  assert (Hlen : List.length insert = List.length (Outputs tx)).
  { rewrite Hlook, lookupTier_length.
    now apply initAddrInfoLoop_length in Hinit. }
  exists ins0, insert, w1.
  split; [exact Hinit|]. split; [exact Hlook|]. split; [exact Hins|].
  split; [exact Hlen|]. split.
  { intros i txo Htxo.
    destruct (insertUTXOs_record _ _ _ _ _ _ _ _ _ Hins Htxo)
      as (u & Hu & Hasset & Hamount & Hout & _).
    exists u, (row_of (TxHash tx) i u).
    split; [exact Hu|]. split; [exact Hout|]. split; [exact Hasset|].
    split; [exact Hamount|]. split.
    { rewrite Hrows, nth_error_app2 by lia.
      replace (List.length (utxos (db w)) + i - List.length (utxos (db w)))%nat
        with i by lia.
      apply (rows_from_nth_error (TxHash tx) insert i 0%nat u Hu). }
    repeat (split; [reflexivity|]).
    intros Hwa Hself.
    destruct (ApplyTx_Ok_table _ _ _ _ _ _ _ _ Hwa Hself Hfull)
      as (_ & insert' & w1' & Hins' & _ & _ & ->).
    rewrite Hins in Hins'. injection Hins' as <- _.
    apply in_or_app. right.
    apply (rows_from_In (TxHash tx) insert i 0%nat u Hu). }
  split; [exact Hrows|]. split; [exact Hinserted|]. split.
  { intros v. split.
    - intros Hv. rewrite Hinserted in Hv.
      apply in_map_iff in Hv as (u & Hu & Hin).
      apply filter_In in Hin as [Hin Hloc]. exists u. repeat split; auto.
      unfold isLocal in Hloc.
      apply negb_true_iff, String.eqb_neq in Hloc. exact Hloc.
    - intros (u & Hin & Hmn & Hu). rewrite Hinserted. apply in_map_iff.
      exists u. split; [exact Hu|]. apply filter_In. split; [exact Hin|].
      unfold isLocal. apply negb_true_iff, String.eqb_neq. exact Hmn. }
  split.
  { intros Hsize u Hu Hext Hin. rewrite Hinserted in Hin.
    apply in_map_iff in Hin as (u' & Heq & Hu').
    apply filter_In in Hu' as [Hu' Hloc].
    apply In_nth_error in Hu as (i & Hi).
    apply In_nth_error in Hu' as (j & Hj).
    destruct (insertUTXOs_outpoint _ _ _ _ _ _ _ _ _ Hins Hi) as (Hilt & Houti).
    destruct (insertUTXOs_outpoint _ _ _ _ _ _ _ _ _ Hins Hj) as (Hjlt & Houtj).
    rewrite <- Heq, Houtj in Houti. injection Houti as Hix.
    rewrite !to_uint32_id in Hix by (unfold Int.is_uint32; lia).
    assert (i = j) by lia. subst j.
    rewrite Hi in Hj. injection Hj as <-.
    unfold isLocal in Hloc. rewrite Hext in Hloc. discriminate. }
  rewrite Htr3, Htr2, Htr1, <- !app_assoc. reflexivity.
Qed.

(** A failed [insertUTXOs] has changed nothing and has sent nothing, or
    the lookup, or the lookup and then the insert. *)
Lemma insertUTXOs_failed ctx hash txouts recs w e w' :
  insertUTXOs ctx hash txouts recs w = (Err e, w') ->
  db w' = db w /\
  exists evs, trace w' = trace w ++ evs /\
    (evs = [] \/
     (exists sel, evs = [EvStmt (SelectAddresses sel)]) \/
     (exists sel insert,
        evs = [EvStmt (SelectAddresses sel); EvStmt (insertStmt hash insert)])).
Proof.
  rewrite insertUTXOs_eq.
  destruct (negb _).
  { intros H. injection H as _ <-. split; [reflexivity|].
    exists []. rewrite app_nil_r. auto. }
  destruct (initAddrInfoFromRecs hash txouts recs) as [ins0|e0|];
    [|intros H; injection H as _ <-; split; [reflexivity|];
      exists []; rewrite app_nil_r; auto|discriminate].
  cbv zeta.
  destruct (pg_fail (SelectAddresses (wanted ins0)) (db w)).
  { intros H. injection H as _ <-. split; [reflexivity|].
    eexists. split; [reflexivity|]. right. left. eauto. }
  destruct (pg_fail _ (db w)).
  { intros H. injection H as _ <-. split; [reflexivity|].
    eexists. split; [cbn [log trace]; rewrite <- app_assoc; reflexivity|].
    right. right. eexists. eexists. reflexivity. }
  destruct (sql_insert _ _); [discriminate|].
  intros H. injection H as _ <-. split; [reflexivity|].
  eexists. split; [cbn [log trace]; rewrite <- app_assoc; reflexivity|].
  right. right. eexists. eexists. reflexivity.
Qed.

(** C3: inside a database transaction [ApplyTx] never panics, and what
    it sends out is, in this order: the lookup and the insert statement of
    the insertion step (one row per output), then one activity record over
    the local inserted records, taken on the database the insert has left,
    then one delete statement, run on the database the activity writer has
    left.  It stops at the first step that fails and returns that step's
    error: a failed insertion has sent at most its own two statements,
    nothing else is sent and the database is as before; after a failed
    activity record no delete is sent; deletion is reached only when the
    insert and the activity record succeeded. *)
Theorem ApplyTx_steps_in_order tx outRecs now w r w'
    (Happly : ApplyTx {| FromContext := pg_Tx |} tx outRecs now w = (r, w')) :
  let ctx := {| FromContext := pg_Tx |} in
  r <> Panic /\
  exists evs, trace w' = trace w ++ evs /\
    (((evs = [] \/
       (exists sel, evs = [EvStmt (SelectAddresses sel)]) \/
       (exists sel insert,
          evs = [EvStmt (SelectAddresses sel);
                 EvStmt (insertStmt (TxHash tx) insert)])) /\
      (exists e, r = Err (ErrWrap e "insert")
                 /\ fst (insertUTXOs ctx (TxHash tx) (Outputs tx) outRecs w)
                    = Err e) /\
      db w' = db w)
     \/
     (exists sel insert w1,
        insertUTXOs ctx (TxHash tx) (Outputs tx) outRecs w = (Ok insert, w1) /\
        List.length insert = List.length (Outputs tx) /\
        utxos (db w1) = utxos (db w) ++ rows_from (TxHash tx) 0 insert /\
        let ins := [EvStmt (SelectAddresses sel);
                    EvStmt (insertStmt (TxHash tx) insert)] in
        let local := filter isLocal insert in
        trace w1 = trace w ++ ins /\
        match fst (WriteActivity (db w1) tx local now) with
        | Some e =>
            evs = ins ++ [EvWriteActivity tx local now] /\
            r = Err (ErrWrap e "creating activity items") /\
            db w' = snd (WriteActivity (db w1) tx local now)
        | None =>
            evs = ins ++ [EvWriteActivity tx local now;
                          EvStmt (deleteStmt (Inputs tx))] /\
            ((exists deleted,
                r = Ok (deleted, map UTXO local) /\
                utxos (db w')
                = filter (fun r => negb (in_outpoints r (spent (Inputs tx))))
                         (utxos (snd (WriteActivity (db w1) tx local now)))) \/
             (exists e, r = Err (ErrWrap e "delete")))
        end)).
Proof.
  intros ctx. rewrite ApplyTx_eq in Happly. fold ctx in Happly.
  destruct (insertUTXOs ctx (TxHash tx) (Outputs tx) outRecs w)
    as [[insert|e|] w1] eqn:Hins.
  - pose proof (insertUTXOs_Ok _ _ _ _ _ _ _ Hins)
      as (_ & ins0 & Hinit & Hlook & Hrows & _ & _ & Htr1).
    assert (Hlen : List.length insert = List.length (Outputs tx)).
    { rewrite Hlook, lookupTier_length.
      now apply initAddrInfoLoop_length in Hinit. }
    destruct (writeActivity ctx tx (filter isLocal insert) now w1)
      as [r2 w2] eqn:Hwa.
    apply writeActivity_inv in Hwa as (Htr2 & Hdb2 & Hres).
    destruct (fst (WriteActivity (db w1) tx (filter isLocal insert) now))
      as [ea|] eqn:Hfst.
    + subst r2. injection Happly as <- <-. split; [discriminate|].
      eexists. split; [rewrite Htr2, Htr1, <- app_assoc; reflexivity|].
      right. exists (wanted ins0), insert, w1.
      split; [reflexivity|]. split; [exact Hlen|]. split; [exact Hrows|].
      cbv zeta. split; [exact Htr1|]. rewrite Hfst. auto.
    + subst r2.
      destruct (deleteUTXOs ctx (Inputs tx) w2) as [r3 w3] eqn:Hdel.
      apply deleteUTXOs_inv in Hdel as (Htr3 & Hnp & Hok).
      assert (Hevs : trace w3
                     = trace w ++
                       [EvStmt (SelectAddresses (wanted ins0));
                        EvStmt (insertStmt (TxHash tx) insert)]
                       ++ [EvWriteActivity tx (filter isLocal insert) now;
                           EvStmt (deleteStmt (Inputs tx))])
        by (rewrite Htr3, Htr2, Htr1, <- !app_assoc; reflexivity).
      destruct r3 as [deleted|e|]; [| |now destruct Hnp];
        injection Happly as <- <-; (split; [discriminate|]);
        (eexists; split; [exact Hevs|]);
        right; exists (wanted ins0), insert, w1;
        (split; [reflexivity|]); (split; [exact Hlen|]);
        (split; [exact Hrows|]); cbv zeta; (split; [exact Htr1|]);
        rewrite Hfst; (split; [reflexivity|]).
      * left. exists deleted. split; [reflexivity|].
        destruct (Hok deleted eq_refl) as (-> & _). now rewrite Hdb2.
      * right. eauto.
  - injection Happly as <- <-. split; [discriminate|].
    apply insertUTXOs_failed in Hins as (Hdb & evs & Htr & Hshape).
    exists evs. split; [exact Htr|]. left. split; [exact Hshape|].
    split; [eauto|exact Hdb].
  - exfalso. apply insertUTXOs_steps in Hins as (Hnp & _). now apply Hnp.
Qed.

(** X7: when the textual form of every input's hash parses back to that
    hash and every input's index is a [uint32], [deleteUTXOs] succeeds
    whenever the delete statement does: the scan and the hash decoding of
    the returned rows cannot fail, and the outpoint of every returned
    record is the outpoint of one of the inputs. *)
Theorem deleteUTXOs_reports_inputs ctx txins w
    (Hpg : pg_fail (deleteStmt txins) (db w) = false)
    (Hcodec : Forall (fun t => ParseHash (Hash_String (Hash (Previous t)))
                               = Some (Hash (Previous t))) txins)
    (Hix : Forall (fun t => 0 <= Index (Previous t) < 2 ^ 32) txins) :
  exists deleted w',
    deleteUTXOs ctx txins w = (Ok deleted, w') /\
    Forall (fun u => In (Outpoint u) (map Previous txins)) deleted.
Proof.
  assert (Hin : forall r : utxo_row,
             in_outpoints r (spent txins) = true ->
             exists t, In t txins /\
                       txid r = Hash_String (Hash (Previous t)) /\
                       index r = Index (Previous t)).
  { intros r Hr. apply in_outpoints_In in Hr. unfold spent in Hr.
    apply in_map_iff in Hr as (t & Heq & Ht). injection Heq as Ht1 Ht2.
    exists t. auto. }
  rewrite Forall_forall in Hcodec, Hix.
  rewrite deleteUTXOs_eq. cbv zeta. rewrite Hpg.
  set (rows := filter (fun r => in_outpoints r (spent txins)) (utxos (db w))).
  destruct (scanDeleted_Ok rows) as (deleted & Hscan).
  { apply Forall_forall. intros r Hr. apply filter_In in Hr as [_ Hr].
    destruct (Hin r Hr) as (t & Ht & Htx & Hi). unfold reportable.
    rewrite Htx, Hi, (Hcodec t Ht). split; [now apply Hix|discriminate]. }
  rewrite Hscan. eexists. eexists. split; [reflexivity|].
  apply scanDeleted_reports in Hscan.
  apply Forall_forall. intros u Hu.
  destruct (Forall2_In_right _ _ _ _ Hscan Hu) as (r & Hr & _ & _ & Hh & Hi).
  apply filter_In in Hr as [_ Hr].
  destruct (Hin r Hr) as (t & Ht & Htx & Hti).
  rewrite Htx, (Hcodec t Ht) in Hh. injection Hh as Hh.
  apply in_map_iff. exists t. split; [|exact Ht].
  destruct (Previous t) as [h i], (Outpoint u) as [h' i']. cbn in *. congruence.
Qed.

End Applier.

(** ** The further properties on the concrete instance *)

Section MoreInstances.
#[local] Existing Instance Demo.prims.
#[local] Existing Instance Demo.collab.

Lemma ApplyTx_inserted_local_witness :
  let ctx := Demo.inTx in
  let tx := Demo.tx1 in
  let outRecs := Demo.recs1 in
  let now := 100 in
  let w := Demo.world0 in
  let deleted := Demo.deleted1 in
  let inserted := Demo.inserted1 in
  let w' := Demo.world1 in
  ApplyTx ctx tx outRecs now w = (Ok (deleted, inserted), w') /\
  (
  exists ins0 insert w1,
    initAddrInfoFromRecs (TxHash tx) (Outputs tx) outRecs = Ok ins0 /\
    insert = lookupTier (addresses (db w)) ins0 /\
    insertUTXOs ctx (TxHash tx) (Outputs tx) outRecs w = (Ok insert, w1) /\
    List.length insert = List.length (Outputs tx) /\
    (forall i txo, nth_error (Outputs tx) i = Some txo ->
       exists u row,
         nth_error insert i = Some u /\
         Outpoint (UTXO u)
         = {| Hash := TxHash tx; Index := Int.to_uint32 (Z.of_nat i) |} /\
         AssetID (UTXO u) = AssetID_String (O_AssetID txo) /\
         Amount (UTXO u) = Int.to_uint64 (Value txo) /\
         nth_error (utxos (db w1)) (List.length (utxos (db w)) + i)
         = Some row /\
         txid row = Hash_String (TxHash tx) /\
         index row = Int.to_uint32 (Z.of_nat i) /\
         account_id row = AccountID (UTXO u) /\
         manager_node_id row = ManagerNodeID u /\
         ((forall d t l n, utxos (snd (WriteActivity d t l n)) = utxos d) ->
          Forall (fun t => Hash_String (Hash (Previous t))
                           <> Hash_String (TxHash tx)) (Inputs tx) ->
          In row (utxos (db w')))) /\
    utxos (db w1) = utxos (db w) ++ rows_from (TxHash tx) 0 insert /\
    inserted
    = map UTXO
        (filter (fun u => negb (String.eqb (ManagerNodeID u) "")) insert) /\
    (forall v, In v inserted <->
               exists u, In u insert /\ ManagerNodeID u <> ""%string /\
                         UTXO u = v) /\
    (Z.of_nat (List.length (Outputs tx)) <= 2 ^ 32 ->
     forall u, In u insert -> ManagerNodeID u = ""%string ->
               ~ In (UTXO u) inserted) /\
    trace w'
    = trace w ++
      [EvStmt (SelectAddresses (wanted ins0));
       EvStmt (insertStmt (TxHash tx) insert);
       EvWriteActivity tx
         (filter (fun u => negb (String.eqb (ManagerNodeID u) "")) insert) now;
       EvStmt (deleteStmt (Inputs tx))]).
Proof.
  intros ctx tx outRecs now w deleted inserted w'.
  assert (Happly : ApplyTx ctx tx outRecs now w = (Ok (deleted, inserted), w'))
    by (vm_compute; reflexivity).
  repeat (split; [assumption|]).
  exact (ApplyTx_inserted_local ctx tx outRecs now w deleted inserted w' Happly).
Defined.

Lemma ApplyTx_steps_in_order_witness :
  let tx := Demo.tx1 in
  let outRecs := Demo.recs1 in
  let now := 100 in
  let w := Demo.world0 in
  let r := Ok (Demo.deleted1, Demo.inserted1) in
  let w' := Demo.world1 in
  ApplyTx {| FromContext := pg_Tx |} tx outRecs now w = (r, w') /\
  (
  let ctx := {| FromContext := pg_Tx |} in
  r <> Panic /\
  exists evs, trace w' = trace w ++ evs /\
    (((evs = [] \/
       (exists sel, evs = [EvStmt (SelectAddresses sel)]) \/
       (exists sel insert,
          evs = [EvStmt (SelectAddresses sel);
                 EvStmt (insertStmt (TxHash tx) insert)])) /\
      (exists e, r = Err (ErrWrap e "insert")
                 /\ fst (insertUTXOs ctx (TxHash tx) (Outputs tx) outRecs w)
                    = Err e) /\
      db w' = db w)
     \/
     (exists sel insert w1,
        insertUTXOs ctx (TxHash tx) (Outputs tx) outRecs w = (Ok insert, w1) /\
        List.length insert = List.length (Outputs tx) /\
        utxos (db w1) = utxos (db w) ++ rows_from (TxHash tx) 0 insert /\
        let ins := [EvStmt (SelectAddresses sel);
                    EvStmt (insertStmt (TxHash tx) insert)] in
        let local := filter isLocal insert in
        trace w1 = trace w ++ ins /\
        match fst (WriteActivity (db w1) tx local now) with
        | Some e =>
            evs = ins ++ [EvWriteActivity tx local now] /\
            r = Err (ErrWrap e "creating activity items") /\
            db w' = snd (WriteActivity (db w1) tx local now)
        | None =>
            evs = ins ++ [EvWriteActivity tx local now;
                          EvStmt (deleteStmt (Inputs tx))] /\
            ((exists deleted,
                r = Ok (deleted, map UTXO local) /\
                utxos (db w')
                = filter (fun r => negb (in_outpoints r (spent (Inputs tx))))
                         (utxos (snd (WriteActivity (db w1) tx local now)))) \/
             (exists e, r = Err (ErrWrap e "delete")))
        end))).
Proof.
  intros tx outRecs now w r w'.
  assert (Happly : ApplyTx {| FromContext := pg_Tx |} tx outRecs now w = (r, w'))
    by (vm_compute; reflexivity).
  repeat (split; [assumption|]).
  exact (ApplyTx_steps_in_order tx outRecs now w r w' Happly).
Defined.

Lemma deleteUTXOs_reports_inputs_witness :
  let ctx := Demo.inTx in
  let txins := [Demo.spend "t0" 0; Demo.spend "t9" 4] in
  let w := Demo.world0 in
  pg_fail (deleteStmt txins) (db w) = false /\
  Forall (fun t => ParseHash (Hash_String (Hash (Previous t)))
                   = Some (Hash (Previous t))) txins /\
  Forall (fun t => 0 <= Index (Previous t) < 2 ^ 32) txins /\
  (
  exists deleted w',
    deleteUTXOs ctx txins w = (Ok deleted, w') /\
    Forall (fun u => In (Outpoint u) (map Previous txins)) deleted).
Proof.
  intros ctx txins w.
  assert (Hpg : pg_fail (deleteStmt txins) (db w) = false)
    by (reflexivity).
  assert (Hcodec : Forall (fun t => ParseHash (Hash_String (Hash (Previous t)))
                   = Some (Hash (Previous t))) txins)
    by (repeat constructor).
  assert (Hix : Forall (fun t => 0 <= Index (Previous t) < 2 ^ 32) txins)
    by (repeat constructor; cbn; lia).
  repeat (split; [assumption|]).
  exact (deleteUTXOs_reports_inputs ctx txins w Hpg Hcodec Hix).
Defined.

Lemma deleteUTXOs_nothing_to_delete_witness :
  let ctx := Demo.inTx in
  let txins := [Demo.spend "t9" 4] in
  let w := Demo.world0 in
  (forall r, In r (utxos (db w)) ->
              ~ In (txid r, index r) (spent txins)) /\
  pg_fail (deleteStmt txins) (db w) = false /\
  (
  exists w', deleteUTXOs ctx txins w = (Ok [], w') /\ db w' = db w).
Proof.
  intros ctx txins w.
  assert (Hnone : (forall r, In r (utxos (db w)) ->
              ~ In (txid r, index r) (spent txins)))
    by (intros r [<-|[<-|[]]] [H|[]]; discriminate).
  assert (Hpg : pg_fail (deleteStmt txins) (db w) = false)
    by (reflexivity).
  repeat (split; [assumption|]).
  exact (deleteUTXOs_nothing_to_delete ctx txins w Hnone Hpg).
Defined.

Lemma deleteUTXOs_twice_witness :
  let ctx := Demo.inTx in
  let txins := [Demo.spend "t0" 0] in
  let w := Demo.world0 in
  let deleted := DemoLoad.deleted_once in
  let w1 := DemoLoad.world_deleted in
  deleteUTXOs ctx txins w = (Ok deleted, w1) /\
  pg_fail (deleteStmt txins) (db w1) = false /\
  (
  exists w2, deleteUTXOs ctx txins w1 = (Ok [], w2) /\ db w2 = db w1).
Proof.
  intros ctx txins w deleted w1.
  assert (Hfirst : deleteUTXOs ctx txins w = (Ok deleted, w1))
    by (vm_compute; reflexivity).
  assert (Hpg : pg_fail (deleteStmt txins) (db w1) = false)
    by (reflexivity).
  repeat (split; [assumption|]).
  exact (deleteUTXOs_twice ctx txins w deleted w1 Hfirst Hpg).
Defined.

Lemma deleteUTXOs_inputs_as_set_witness :
  let ctx := Demo.inTx in
  let txins := [Demo.spend "t0" 0; Demo.spend "t0" 1] in
  let txins' := [Demo.spend "t0" 1; Demo.spend "t0" 0; Demo.spend "t0" 1] in
  let w := Demo.world0 in
  (forall o, In o (spent txins) <-> In o (spent txins')) /\
  pg_fail (deleteStmt txins) (db w)
    = pg_fail (deleteStmt txins') (db w) /\
  (
  fst (deleteUTXOs ctx txins w) = fst (deleteUTXOs ctx txins' w) /\
  db (snd (deleteUTXOs ctx txins w)) = db (snd (deleteUTXOs ctx txins' w))).
Proof.
  intros ctx txins txins' w.
  assert (Hsame : (forall o, In o (spent txins) <-> In o (spent txins')))
    by (intros o; simpl; tauto).
  assert (Hpg : pg_fail (deleteStmt txins) (db w)
    = pg_fail (deleteStmt txins') (db w))
    by (reflexivity).
  repeat (split; [assumption|]).
  exact (deleteUTXOs_inputs_as_set ctx txins txins' w Hsame Hpg).
Defined.

Lemma ApplyTx_deleted_bare_witness :
  let ctx := Demo.inTx in
  let tx := Demo.tx1 in
  let outRecs := Demo.recs1 in
  let now := 100 in
  let w := Demo.world0 in
  let deleted := Demo.deleted1 in
  let inserted := Demo.inserted1 in
  let w' := Demo.world1 in
  ApplyTx ctx tx outRecs now w = (Ok (deleted, inserted), w') /\
  (
  Forall (fun u => Amount u = 0 /\ ResvExpires u = zeroTime) deleted).
Proof.
  intros ctx tx outRecs now w deleted inserted w'.
  assert (Happly : ApplyTx ctx tx outRecs now w = (Ok (deleted, inserted), w'))
    by (vm_compute; reflexivity).
  repeat (split; [assumption|]).
  exact (ApplyTx_deleted_bare ctx tx outRecs now w deleted inserted w' Happly).
Defined.

Lemma ApplyTx_row_count_witness :
  let ctx := Demo.inTx in
  let tx := Demo.tx1 in
  let outRecs := Demo.recs1 in
  let now := 100 in
  let w := Demo.world0 in
  let deleted := Demo.deleted1 in
  let inserted := Demo.inserted1 in
  let w' := Demo.world1 in
  (forall d t l n, utxos (snd (WriteActivity d t l n)) = utxos d) /\
  Forall (fun t => Hash_String (Hash (Previous t))
                   <> Hash_String (TxHash tx)) (Inputs tx) /\
  ApplyTx ctx tx outRecs now w = (Ok (deleted, inserted), w') /\
  (
  (List.length (utxos (db w')) + List.length deleted
   = List.length (utxos (db w)) + List.length (Outputs tx))%nat).
Proof.
  intros ctx tx outRecs now w deleted inserted w'.
  assert (Hact : (forall d t l n, utxos (snd (WriteActivity d t l n)) = utxos d))
    by (intros; reflexivity).
  assert (Hself : Forall (fun t => Hash_String (Hash (Previous t))
                   <> Hash_String (TxHash tx)) (Inputs tx))
    by (repeat constructor; vm_compute; discriminate).
  assert (Happly : ApplyTx ctx tx outRecs now w = (Ok (deleted, inserted), w'))
    by (vm_compute; reflexivity).
  repeat (split; [assumption|]).
  exact (ApplyTx_row_count ctx tx outRecs now w deleted inserted w' Hact Hself Happly).
Defined.

Lemma SaveReservations_then_again_witness :
  let ctx := Demo.noTx in
  let ctx' := Demo.inTx in
  let us1 := DemoLoad.us_both in
  let us2 := DemoLoad.us_second in
  let e1 := 500 in
  let e2 := 900 in
  let w := Demo.world0 in
  let w1 := DemoLoad.world_res1 in
  let w2 := DemoLoad.world_res2 in
  SaveReservations ctx us1 e1 w = (Ok tt, w1) /\
  SaveReservations ctx' us2 e2 w1 = (Ok tt, w2) /\
  (
  Forall2 (fun r r' =>
             same_but_reservation r r' /\
             reserved_until r'
             = if outpoint_among r us2 then Some e2
               else if outpoint_among r us1 then Some e1
               else reserved_until r)
          (utxos (db w)) (utxos (db w2))).
Proof.
  intros ctx ctx' us1 us2 e1 e2 w w1 w2.
  assert (Hfirst : SaveReservations ctx us1 e1 w = (Ok tt, w1))
    by (vm_compute; reflexivity).
  assert (Hsecond : SaveReservations ctx' us2 e2 w1 = (Ok tt, w2))
    by (vm_compute; reflexivity).
  repeat (split; [assumption|]).
  exact (SaveReservations_then_again ctx ctx' us1 us2 e1 e2 w w1 w2 Hfirst Hsecond).
Defined.

Lemma reservation_does_not_protect_witness :
  let ctx := Demo.noTx in
  let ctx' := Demo.inTx in
  let us := DemoLoad.us_both in
  let exp := 500 in
  let txins := [Demo.spend "t0" 0] in
  let w := Demo.world0 in
  let w1 := DemoLoad.world_res1 in
  SaveReservations ctx us exp w = (Ok tt, w1) /\
  pg_fail (deleteStmt txins) (db w1)
    = pg_fail (deleteStmt txins) (db w) /\
  (
  fst (deleteUTXOs ctx' txins w1) = fst (deleteUTXOs ctx' txins w) /\
  keys (utxos (db (snd (deleteUTXOs ctx' txins w1))))
  = keys (utxos (db (snd (deleteUTXOs ctx' txins w))))).
Proof.
  intros ctx ctx' us exp txins w w1.
  assert (Hres : SaveReservations ctx us exp w = (Ok tt, w1))
    by (vm_compute; reflexivity).
  assert (Hpg : pg_fail (deleteStmt txins) (db w1)
    = pg_fail (deleteStmt txins) (db w))
    by (reflexivity).
  repeat (split; [assumption|]).
  exact (reservation_does_not_protect ctx ctx' us exp txins w w1 Hres Hpg).
Defined.

Lemma ApplyTx_bad_script_witness :
  let tx := DemoLoad.tx_bad in
  let outRecs := [Demo.hint "acc1" "mn1"; Demo.hint "acc2" "mn2"] in
  let now := 100 in
  let w := Demo.world0 in
  List.length (Outputs tx) = List.length outRecs /\
  Exists (fun o => PkScriptAddr (Script o) = None) (Outputs tx) /\
  (
  ApplyTx {| FromContext := pg_Tx |} tx outRecs now w
  = (Err (ErrWrap (ErrWrap (ErrForeign "txscript") "bad pk script") "insert"),
     w)).
Proof.
  intros tx outRecs now w.
  assert (Hlen : List.length (Outputs tx) = List.length outRecs)
    by (reflexivity).
  assert (Hbad : Exists (fun o => PkScriptAddr (Script o) = None) (Outputs tx))
    by (right; left; reflexivity).
  repeat (split; [assumption|]).
  exact (ApplyTx_bad_script tx outRecs now w Hlen Hbad).
Defined.

Lemma insertUTXOs_amount_column_witness :
  let ctx := Demo.inTx in
  let hash := TxHash Demo.tx1 in
  let txouts := Outputs Demo.tx1 in
  let recs := Demo.recs1 in
  let w := Demo.world0 in
  let insert := Demo.insert3 in
  let w' := Demo.world3 in
  let i := 1%nat in
  let txo := Demo.out "addr2" in
  insertUTXOs ctx hash txouts recs w = (Ok insert, w') /\
  nth_error txouts i = Some txo /\
  (
  exists row,
    nth_error (utxos (db w')) (List.length (utxos (db w)) + i) = Some row /\
    asset_id row = AssetID_String (O_AssetID txo) /\
    (Int.is_int64 (Value txo) -> amount row = Value txo) /\
    (2 ^ 63 <= Value txo < 2 ^ 64 ->
     amount row = Value txo - 2 ^ 64 /\ amount row < 0)).
Proof.
  intros ctx hash txouts recs w insert w' i txo.
  assert (Hins : insertUTXOs ctx hash txouts recs w = (Ok insert, w'))
    by (vm_compute; reflexivity).
  assert (Htxo : nth_error txouts i = Some txo)
    by (reflexivity).
  repeat (split; [assumption|]).
  exact (insertUTXOs_amount_column ctx hash txouts recs w insert w' i txo Hins Htxo).
Defined.

Lemma ApplyTx_inserted_shape_witness :
  let ctx := Demo.inTx in
  let tx := Demo.tx1 in
  let outRecs := Demo.recs1 in
  let now := 100 in
  let w := Demo.world0 in
  let deleted := Demo.deleted1 in
  let inserted := Demo.inserted1 in
  let w' := Demo.world1 in
  ApplyTx ctx tx outRecs now w = (Ok (deleted, inserted), w') /\
  (
  (List.length inserted <= List.length (Outputs tx))%nat /\
  Forall (fun v =>
            ResvExpires v = zeroTime /\
            exists i txo,
              nth_error (Outputs tx) i = Some txo /\
              Outpoint v = {| Hash := TxHash tx;
                              Index := Int.to_uint32 (Z.of_nat i) |} /\
              AssetID v = AssetID_String (O_AssetID txo) /\
              Amount v = Int.to_uint64 (Value txo))
         inserted).
Proof.
  intros ctx tx outRecs now w deleted inserted w'.
  assert (Happly : ApplyTx ctx tx outRecs now w = (Ok (deleted, inserted), w'))
    by (vm_compute; reflexivity).
  repeat (split; [assumption|]).
  exact (ApplyTx_inserted_shape ctx tx outRecs now w deleted inserted w' Happly).
Defined.

Lemma ApplyTx_keeps_addresses_witness :
  let ctx := Demo.inTx in
  let tx := Demo.tx1 in
  let outRecs := Demo.recs1 in
  let now := 100 in
  let w := Demo.world0 in
  let w' := Demo.world1 in
  let r := Ok (Demo.deleted1, Demo.inserted1) in
  (forall d t l n,
      addresses (snd (WriteActivity d t l n)) = addresses d) /\
  ApplyTx ctx tx outRecs now w = (r, w') /\
  (
  addresses (db w') = addresses (db w)).
Proof.
  intros ctx tx outRecs now w w' r.
  assert (Haddr : (forall d t l n,
      addresses (snd (WriteActivity d t l n)) = addresses d))
    by (intros; reflexivity).
  assert (Happly : ApplyTx ctx tx outRecs now w = (r, w'))
    by (vm_compute; reflexivity).
  repeat (split; [assumption|]).
  exact (ApplyTx_keeps_addresses ctx tx outRecs now w r w' Haddr Happly).
Defined.

Lemma ApplyTx_succeeds_witness :
  let tx := Demo.tx1 in
  let outRecs := Demo.recs1 in
  let now := 100 in
  let w := Demo.world0 in
  List.length (Outputs tx) = List.length outRecs /\
  Z.of_nat (List.length (Outputs tx)) <= 2 ^ 32 /\
  Forall (fun o => PkScriptAddr (Script o) <> None) (Outputs tx) /\
  (forall s d, pg_fail s d = false) /\
  (forall d l, fst (WriteActivity d tx l now) = None) /\
  (forall d t l n, utxos (snd (WriteActivity d t l n)) = utxos d) /\
  Forall (fun t => Hash_String (Hash (Previous t))
                   <> Hash_String (TxHash tx)) (Inputs tx) /\
  (forall r, In r (utxos (db w)) ->
              txid r <> Hash_String (TxHash tx)) /\
  (forall r, In r (utxos (db w)) ->
              In (txid r, index r) (spent (Inputs tx)) ->
              reportable r) /\
  (
  exists deleted inserted w',
    ApplyTx {| FromContext := pg_Tx |} tx outRecs now w
    = (Ok (deleted, inserted), w')).
Proof.
  intros tx outRecs now w.
  assert (Hlen : List.length (Outputs tx) = List.length outRecs)
    by (reflexivity).
  assert (Hsize : Z.of_nat (List.length (Outputs tx)) <= 2 ^ 32)
    by (vm_compute; discriminate).
  assert (Hscripts : Forall (fun o => PkScriptAddr (Script o) <> None) (Outputs tx))
    by (repeat constructor; discriminate).
  assert (Hpg : (forall s d, pg_fail s d = false))
    by (intros; reflexivity).
  assert (Hwa : (forall d l, fst (WriteActivity d tx l now) = None))
    by (intros; reflexivity).
  assert (Hact : (forall d t l n, utxos (snd (WriteActivity d t l n)) = utxos d))
    by (intros; reflexivity).
  assert (Hself : Forall (fun t => Hash_String (Hash (Previous t))
                   <> Hash_String (TxHash tx)) (Inputs tx))
    by (repeat constructor; vm_compute; discriminate).
  assert (Hfresh : (forall r, In r (utxos (db w)) ->
              txid r <> Hash_String (TxHash tx)))
    by (intros x [<-|[<-|[]]]; vm_compute; discriminate).
  assert (Hrep : (forall r, In r (utxos (db w)) ->
              In (txid r, index r) (spent (Inputs tx)) ->
              reportable r))
    by (intros r [<-|[<-|[]]] _; (split; [cbn; lia|discriminate])).
  repeat (split; [assumption|]).
  exact (ApplyTx_succeeds tx outRecs now w Hlen Hsize Hscripts Hpg Hwa Hact Hself Hfresh Hrep).
Defined.

Lemma reserve_inserted_witness :
  let ctx := Demo.inTx in
  let ctx' := Demo.noTx in
  let tx := Demo.tx1 in
  let outRecs := Demo.recs1 in
  let now := 100 in
  let w := Demo.world0 in
  let deleted := Demo.deleted1 in
  let inserted := Demo.inserted1 in
  let w' := Demo.world1 in
  let exp := 500 in
  let w2 := DemoLoad.world_res_fresh in
  (forall d t l n, utxos (snd (WriteActivity d t l n)) = utxos d) /\
  Forall (fun t => Hash_String (Hash (Previous t))
                   <> Hash_String (TxHash tx)) (Inputs tx) /\
  Z.of_nat (List.length (Outputs tx)) <= 2 ^ 32 /\
  ApplyTx ctx tx outRecs now w = (Ok (deleted, inserted), w') /\
  SaveReservations ctx' inserted exp w' = (Ok tt, w2) /\
  (
  exists insert w1,
    insertUTXOs ctx (TxHash tx) (Outputs tx) outRecs w = (Ok insert, w1) /\
    forall i u, nth_error insert i = Some u ->
      exists row,
        In row (utxos (db w2)) /\
        txid row = Hash_String (TxHash tx) /\ index row = Z.of_nat i /\
        reserved_until row
        = if negb (String.eqb (ManagerNodeID u) "") then Some exp else None).
Proof.
  intros ctx ctx' tx outRecs now w deleted inserted w' exp w2.
  assert (Hact : (forall d t l n, utxos (snd (WriteActivity d t l n)) = utxos d))
    by (intros; reflexivity).
  assert (Hself : Forall (fun t => Hash_String (Hash (Previous t))
                   <> Hash_String (TxHash tx)) (Inputs tx))
    by (repeat constructor; vm_compute; discriminate).
  assert (Hsize : Z.of_nat (List.length (Outputs tx)) <= 2 ^ 32)
    by (vm_compute; discriminate).
  assert (Happly : ApplyTx ctx tx outRecs now w = (Ok (deleted, inserted), w'))
    by (vm_compute; reflexivity).
  assert (Hres : SaveReservations ctx' inserted exp w' = (Ok tt, w2))
    by (vm_compute; reflexivity).
  repeat (split; [assumption|]).
  exact (reserve_inserted ctx ctx' tx outRecs now w deleted inserted w' exp w2 Hact Hself Hsize Happly Hres).
Defined.

End MoreInstances.

Section LoadInstances.
#[local] Existing Instance Demo.prims.
#[local] Existing Instance Demo.collab.
#[local] Existing Instance DemoLoad.scanner.

Lemma LoadUTXOs_shows_witness :
  let ctx := Demo.noTx in
  let accountID := "acc1"%string in
  let assetID := "gold"%string in
  let w := DemoLoad.world_reserved in
  let us := DemoLoad.loaded_acc1 in
  let w' := DemoLoad.world_reserved in
  LoadUTXOs ctx accountID assetID w = (Ok us, w') /\
  (
  db w' = db w /\
  Forall2 (shows accountID assetID)
          (filter (owned_by accountID assetID) (utxos (db w))) us).
Proof.
  intros ctx accountID assetID w us w'.
  assert (Hload : LoadUTXOs ctx accountID assetID w = (Ok us, w'))
    by (vm_compute; reflexivity).
  repeat (split; [assumption|]).
  exact (LoadUTXOs_shows ctx accountID assetID w us w' Hload).
Defined.

Lemma LoadUTXOs_all_or_nothing_witness :
  let ctx := Demo.noTx in
  let accountID := "acc2"%string in
  let assetID := "gold"%string in
  let w := DemoLoad.world_badhash in
  load_fail accountID assetID (db w) = false /\
  (
  ((forall r, In r (utxos (db w)) -> owned_by accountID assetID r = true ->
              readable r) ->
   exists us, fst (LoadUTXOs ctx accountID assetID w) = Ok us) /\
  (forall r, In r (utxos (db w)) -> owned_by accountID assetID r = true ->
             ~ readable r ->
   exists e, fst (LoadUTXOs ctx accountID assetID w) = Err e)).
Proof.
  intros ctx accountID assetID w.
  assert (Hpg : load_fail accountID assetID (db w) = false)
    by (reflexivity).
  repeat (split; [assumption|]).
  exact (LoadUTXOs_all_or_nothing ctx accountID assetID w Hpg).
Defined.

Lemma LoadUTXOs_after_reserve_witness :
  let ctx := Demo.noTx in
  let ctx' := Demo.inTx in
  let us := [Demo.at_outpoint "t1" 0] in
  let exp := 900 in
  let accountID := "acc1"%string in
  let assetID := "gold"%string in
  let w := DemoLoad.world_reserved in
  let w1 := DemoLoad.world_reserved2 in
  let loaded := DemoLoad.loaded_acc1_res in
  let w2 := DemoLoad.world_reserved2 in
  SaveReservations ctx us exp w = (Ok tt, w1) /\
  LoadUTXOs ctx' accountID assetID w1 = (Ok loaded, w2) /\
  (
  Forall2 (fun r u =>
             ParseHash (txid r) = Some (Hash (Outpoint u)) /\
             Index (Outpoint u) = index r /\
             scan_time (if outpoint_among r us then Some exp
                        else reserved_until r)
             = Some (ResvExpires u))
          (filter (owned_by accountID assetID) (utxos (db w))) loaded).
Proof.
  intros ctx ctx' us exp accountID assetID w w1 loaded w2.
  assert (Hres : SaveReservations ctx us exp w = (Ok tt, w1))
    by (vm_compute; reflexivity).
  assert (Hload : LoadUTXOs ctx' accountID assetID w1 = (Ok loaded, w2))
    by (vm_compute; reflexivity).
  repeat (split; [assumption|]).
  exact (LoadUTXOs_after_reserve ctx ctx' us exp accountID assetID w w1 loaded w2 Hres Hload).
Defined.

Lemma large_amount_blocks_load_witness :
  let ctx := Demo.inTx in
  let ctx' := Demo.noTx in
  let tx := DemoLoad.tx_big in
  let outRecs := [Demo.hint "acc1" "mn1"] in
  let now := 100 in
  let w := Demo.world0 in
  let deleted := @nil (@utxodb_UTXO Demo.prims) in
  let inserted := DemoLoad.inserted_big in
  let w' := DemoLoad.world_big in
  let i := 0%nat in
  let txo := @Build_bc_TxOutput Demo.prims "gold"%string (2 ^ 63) "addr1"%string in
  (forall d t l n, utxos (snd (WriteActivity d t l n)) = utxos d) /\
  Forall (fun t => Hash_String (Hash (Previous t))
                   <> Hash_String (TxHash tx)) (Inputs tx) /\
  ApplyTx ctx tx outRecs now w = (Ok (deleted, inserted), w') /\
  nth_error (Outputs tx) i = Some txo /\
  2 ^ 63 <= Value txo < 2 ^ 64 /\
  (
  exists row,
    In row (utxos (db w')) /\
    txid row = Hash_String (TxHash tx) /\
    index row = Int.to_uint32 (Z.of_nat i) /\
    asset_id row = AssetID_String (O_AssetID txo) /\
    amount row = Value txo - 2 ^ 64 /\
    (load_fail (account_id row) (asset_id row) (db w') = false ->
     exists e,
       fst (LoadUTXOs ctx' (account_id row) (asset_id row) w') = Err e)).
Proof.
  intros ctx ctx' tx outRecs now w deleted inserted w' i txo.
  assert (Hact : (forall d t l n, utxos (snd (WriteActivity d t l n)) = utxos d))
    by (intros; reflexivity).
  assert (Hself : Forall (fun t => Hash_String (Hash (Previous t))
                   <> Hash_String (TxHash tx)) (Inputs tx))
    by (constructor).
  assert (Happly : ApplyTx ctx tx outRecs now w = (Ok (deleted, inserted), w'))
    by (vm_compute; reflexivity).
  assert (Htxo : nth_error (Outputs tx) i = Some txo)
    by (reflexivity).
  assert (Hbig : 2 ^ 63 <= Value txo < 2 ^ 64)
    by (cbn; lia).
  repeat (split; [assumption|]).
  exact (large_amount_blocks_load ctx ctx' tx outRecs now w deleted inserted w' i txo Hact Hself Happly Htxo Hbig).
Defined.

End LoadInstances.
